(** * Paraphraser request handlers: a shallow embedding and its properties

    The repository holds several revisions of one HTTP handler that sends
    user text through a fixed chain of calls to the Gemini API:

    - [V1]      src/functions/api/paraphrase.js, first handler  (5 stages)
    - [V2]      src/functions/api/paraphrase.js, second handler (4 calls)
    - [V3]      src/functions/api/paraphrase.js, third handler  (4 stages)
    - [Part000] src/unnamed/part_000                            (4 stages)
    - [Part001] src/unnamed/part_001                            (6 stages)
    - [Server]  src/server.js, the Express route /paraphrase    (1 call)

    JavaScript strings are sequences of UTF-16 code units, JSON documents
    are a tree type, and a handler is a finite interaction tree whose only
    effect is a call to the external API; running a handler against an
    oracle for the API gives its response and the trace of calls made. *)

From Stdlib Require Import String Ascii ZArith NArith Floats Lia.
From stdpp Require Import base option list.

Local Open Scope N_scope.

(** ** JavaScript strings *)

(** A string is its list of UTF-16 code units, so [length] is [.length]. *)
Abbreviation jsstring := (list N).

Definition lit (s : string) : jsstring :=
  map N_of_ascii (list_ascii_of_string s).

Arguments lit : simpl never.

(** The double quote and the line feed, which the literals below splice in. *)
Definition dq : jsstring := [34].
Definition nl : jsstring := [10].

(** White space and line terminators of ECMAScript: what [trim] removes and
    what the regular expression class [\s] matches. *)
Definition is_space (c : N) : bool :=
  ((9 <=? c) && (c <=? 13)) || (c =? 32) || (c =? 160) || (c =? 5760)
  || ((8192 <=? c) && (c <=? 8202)) || (c =? 8232) || (c =? 8233)
  || (c =? 8239) || (c =? 8287) || (c =? 12288) || (c =? 65279).

Fixpoint trimStart (s : jsstring) : jsstring :=
  match s with
  | c :: s' => if is_space c then trimStart s' else s
  | [] => []
  end.

Definition trimEnd (s : jsstring) : jsstring :=
  reverse (trimStart (reverse s)).

Definition trim (s : jsstring) : jsstring := trimEnd (trimStart s).

Fixpoint startsWith (p s : jsstring) : bool :=
  match p, s with
  | [], _ => true
  | a :: p', b :: s' => (a =? b) && startsWith p' s'
  | _ :: _, [] => false
  end.

(** [s.split(sep)] for a non-empty separator: [skip] counts the code units
    of a separator match that are still to be passed over, [acc] holds the
    current piece in reverse. *)
Fixpoint split_from (sep : jsstring) (skip : nat) (acc s : jsstring)
  : list jsstring :=
  match s with
  | [] => [reverse acc]
  | c :: s' =>
      match skip with
      | S k => split_from sep k acc s'
      | O =>
          if startsWith sep s
          then reverse acc :: split_from sep (Nat.pred (length sep)) [] s'
          else split_from sep O (c :: acc) s'
      end
  end.

Definition split (sep s : jsstring) : list jsstring := split_from sep O [] s.

(** [Array.prototype.includes] on an array of strings. *)
Definition includes (l : list jsstring) (x : jsstring) : bool :=
  bool_decide (x ∈ l).

(** [a.filter(Boolean)] on an array of strings keeps the non-empty ones. *)
Definition nonempty (s : jsstring) : bool :=
  match s with [] => false | _ => true end.

(** [s.includes(t)]: [t] occurs in [s] as a contiguous run. *)
Fixpoint occurs_in (t s : jsstring) : bool :=
  startsWith t s || match s with [] => false | _ :: s' => occurs_in t s' end.

Definition substring_of (t s : jsstring) : Prop :=
  exists l r, s = l ++ t ++ r.

(** Decimal digits. *)
Definition digit_value (c : N) : option Z :=
  if (48 <=? c) && (c <=? 57) then Some (Z.of_N c - 48)%Z else None.

Definition hex_value (c : N) : option Z :=
  if (48 <=? c) && (c <=? 57) then Some (Z.of_N c - 48)%Z
  else if (97 <=? c) && (c <=? 102) then Some (Z.of_N c - 87)%Z
  else if (65 <=? c) && (c <=? 70) then Some (Z.of_N c - 55)%Z
  else None.

(** Reads the longest run of digits in the given radix; [None] when the run
    is empty. The accumulator carries the value read so far. *)
Fixpoint read_digits (dv : N -> option Z) (radix : Z) (acc : option Z)
  (s : jsstring) : option Z :=
  match s with
  | [] => acc
  | c :: s' =>
      match dv c with
      | Some d => read_digits dv radix (Some (default 0%Z acc * radix + d)%Z) s'
      | None => acc
      end
  end.

(** [parseInt(s)] without a radix: leading white space, an optional sign,
    an optional [0x]/[0X], then digits as far as they go. [None] is NaN. The
    value is the exact integer; the handlers only compare it with 1, 2, 3. *)
Definition parseInt (s : jsstring) : option Z :=
  let s1 := trimStart s in
  let '(sign, s2) :=
    match s1 with
    | 45 :: r => ((-1)%Z, r)
    | 43 :: r => (1%Z, r)
    | _ => (1%Z, s1)
    end in
  let n :=
    match s2 with
    | 48 :: 120 :: r | 48 :: 88 :: r => read_digits hex_value 16 None r
    | _ => read_digits digit_value 10 None s2
    end in
  (fun v => sign * v)%Z <$> n.

(** [Number(s)] on a non-empty string of decimal digits, the one form the
    handlers apply it to (the call is guarded by [includes]); other strings
    are outside this model and give [None]. *)
Definition Number_of_digits (s : jsstring) : option Z :=
  if forallb (fun c => bool_decide (is_Some (digit_value c))) s
  then read_digits digit_value 10 None s
  else None.

(** Decimal rendering of an HTTP status code, as string interpolation
    prints a small non-negative integer. *)
Definition digit_char (d : Z) : N := Z.to_N (48 + d).

Fixpoint decimal_go (fuel : nat) (n : Z) (acc : jsstring) : jsstring :=
  match fuel with
  | O => acc
  | S f =>
      let acc' := digit_char (n mod 10) :: acc in
      if (n <? 10)%Z then acc' else decimal_go f (n / 10)%Z acc'
  end.

Definition decimal (n : Z) : jsstring :=
  if (n <? 0)%Z then 45 :: decimal_go (Z.to_nat (- n)) (- n)%Z []
  else decimal_go (S (Z.to_nat n)) n [].

(** ** JSON documents and JavaScript values *)

#[warnings="-register-all"]
Inductive json : Type :=
| JNull
| JBool (b : bool)
| JNum (x : float)
| JStr (s : jsstring)
| JArr (items : list json)
| JObj (fields : list (jsstring * json)).

(** A JavaScript value that came out of [JSON.parse], or [undefined]. *)
Abbreviation jsvalue := (option json).

Fixpoint assoc (k : jsstring) (fs : list (jsstring * json)) : jsvalue :=
  match fs with
  | [] => None
  | (k', v) :: fs' => if bool_decide (k = k') then Some v else assoc k fs'
  end.

(** [v.name] for a name that no prototype defines ([text], [tone],
    [candidates], [content], [parts]) on a value that is not nullish. *)
Definition field (name : jsstring) (v : json) : jsvalue :=
  match v with
  | JObj fs => assoc name fs
  | _ => None
  end.

(** [v[0]] on a value that is not nullish. *)
Definition first (v : json) : jsvalue :=
  match v with
  | JArr items => items !! O
  | JStr s => (fun c => JStr [c]) <$> s !! O
  | JObj fs => assoc (lit "0") fs
  | _ => None
  end.

(** ToBoolean. *)
Definition truthy (v : jsvalue) : bool :=
  match v with
  | None | Some JNull => false
  | Some (JBool b) => b
  | Some (JNum x) => negb (PrimFloat.eqb x 0%float) && negb (PrimFloat.is_nan x)
  | Some (JStr s) => nonempty s
  | Some (JArr _) | Some (JObj _) => true
  end.

(** Optional chaining [v?.access]. *)
Definition chain (access : json -> jsvalue) (v : jsvalue) : jsvalue :=
  match v with
  | None | Some JNull => None
  | Some x => access x
  end.

(** ** Exceptions *)

(** Errors the runtime raises by itself; their message text belongs to the
    JavaScript engine. *)
Inductive fault : Type :=
| BodyNotJson        (* request.json() rejected *)
| PropertyOfNullish  (* property read on null or undefined *)
| NotAFunction       (* call of a property that is not a function *)
| ReplyNotJson       (* res.json() rejected *)
| FetchRejected      (* fetch() rejected *)
| SdkFailure.        (* the Gemini SDK threw *)

Inductive exn : Type :=
| Error (message : jsstring)   (* throw new Error(message) *)
| Native (f : fault).

(** What the engine supplies: the message of its own errors, the string
    conversion of values that are not strings, and [JSON.stringify] where
    its output is used as text. *)
Class Engine : Type := {
  native_message : fault -> jsstring;
  ToString : jsvalue -> jsstring;
  JSON_stringify : json -> jsstring
}.

Definition message `{Engine} (e : exn) : jsstring :=
  match e with
  | Error m => m
  | Native f => native_message f
  end.

(** String interpolation [${v}]. *)
Definition interpolate `{Engine} (v : jsvalue) : jsstring :=
  match v with
  | Some (JStr s) => s
  | _ => ToString v
  end.

(** ** Handlers as interaction trees *)

(** A computation that may throw and whose only effect is a call to the
    external API: [Q] is what is sent, [R] what comes back. There is no
    other state. *)
Inductive Prog (Q R A : Type) : Type :=
| Ret (a : A)
| Throw (e : exn)
| Call (q : Q) (k : R -> Prog Q R A).

Arguments Ret {Q R A} a.
Arguments Throw {Q R A} e.
Arguments Call {Q R A} q k.

Fixpoint bind {Q R A B} (p : Prog Q R A) (f : A -> Prog Q R B) : Prog Q R B :=
  match p with
  | Ret a => f a
  | Throw e => Throw e
  | Call q k => Call q (fun r => bind (k r) f)
  end.

#[export] Instance Prog_ret {Q R} : MRet (Prog Q R) := fun _ a => Ret a.
#[export] Instance Prog_bind {Q R} : MBind (Prog Q R) :=
  fun _ _ f p => bind p f.

(** [try { p } catch (err) { h err }]. *)
Fixpoint try_catch {Q R A} (p : Prog Q R A) (h : exn -> Prog Q R A)
  : Prog Q R A :=
  match p with
  | Ret a => Ret a
  | Throw e => h e
  | Call q k => Call q (fun r => try_catch (k r) h)
  end.

(** The external API answers the [n]-th call of a run (counted from 0)
    carrying [q] with [api n q]. A run gives the outcome and the calls made,
    in order, each with its answer. *)
Fixpoint run {Q R A} (api : nat -> Q -> R) (n : nat) (p : Prog Q R A)
  : (exn + A) * list (Q * R) :=
  match p with
  | Ret a => (inr a, [])
  | Throw e => (inl e, [])
  | Call q k =>
      let r := api n q in
      let '(out, calls) := run api (S n) (k r) in
      (out, (q, r) :: calls)
  end.

(** ** HTTP *)

(** A body is the output of [JSON.stringify] on a document, or other text. *)
Inductive Body : Type :=
| Stringified (data : json)
| Plain (text : jsstring).

Record Response : Type := {
  status : Z;
  headers : list (jsstring * jsstring);
  body : Body
}.

Record Request : Type := {
  (** the outcome of [await request.json()]; [None] when it rejects *)
  request_json : option json
}.

Record Env : Type := {
  GEMINI_API_KEY : option jsstring
}.

(** What [fetch] is given: the URL (which ends in the key) and the prompt,
    posted as [{contents: [{parts: [{text: prompt}]}]}]. [call_stage] is the
    stage tag [callGemini] was given where it takes one; the tag is not
    sent, it only goes to the console. *)
Record ApiCall : Type := {
  call_stage : option jsstring;
  call_url : jsstring;
  call_prompt : jsstring
}.

(** What [fetch] gives back: a rejection, or a reply with its status and
    the outcome of [res.json()] ([None] when it rejects). *)
Inductive FetchResult : Type :=
| NetworkError
| HttpReply (code : Z) (payload : option json).

(** [res.ok]. *)
Definition ok (code : Z) : bool := ((200 <=? code) && (code <=? 299))%Z.

Definition json_headers : list (jsstring * jsstring) :=
  [ (lit "Content-Type", lit "application/json");
    (lit "Access-Control-Allow-Origin", lit "*") ].

(** The helper [json(data, status = 200)]. *)
Definition json_response (data : json) (status : Z) : Response :=
  {| status := status; headers := json_headers; body := Stringified data |}.

Abbreviation Handler := (Prog ApiCall FetchResult Response).

(** [await request.json()]. *)
Definition await_json {Q R} (request : Request) : Prog Q R json :=
  match request_json request with
  | Some body => Ret body
  | None => Throw (Native BodyNotJson)
  end.

Definition is_null (v : json) : bool :=
  match v with
  | JNull => true
  | _ => false
  end.

(** [v.name] as a statement: reading a property of [null] throws. *)
Definition member {Q R} (name : jsstring) (v : json) : Prog Q R jsvalue :=
  if is_null v then Throw (Native PropertyOfNullish) else Ret (field name v).

(** A pure result brought into a computation. *)
Definition lift {Q R A} (r : exn + A) : Prog Q R A :=
  match r with
  | inl e => Throw e
  | inr a => Ret a
  end.

(** [!text || typeof text !== "string" || text.length > 2000]. *)
Definition invalid_text (text : jsvalue) : bool :=
  negb (truthy text)
  || match text with
     | Some (JStr s) => (2000 <? length s)%nat
     | _ => true
     end.

Definition allowedTones : list jsstring :=
  [lit "standard"; lit "simple"; lit "professional"; lit "academic"].

(** [allowedTones.includes(tone)]: strict equality, so only a string can
    be found. *)
Definition tone_allowed (tone : jsvalue) : bool :=
  match tone with
  | Some (JStr t) => includes allowedTones t
  | _ => false
  end.

(** [body.tone || "standard"]. *)
Definition tone_or_standard (tone : jsvalue) : jsvalue :=
  if truthy tone then tone else Some (JStr (lit "standard")).

(** [!env.GEMINI_API_KEY]. *)
Definition key_missing (env : Env) : bool :=
  negb (truthy (JStr <$> GEMINI_API_KEY env)).

(** An array element or an environment variable spliced into a string. *)
Definition spliced (s : option jsstring) : jsstring :=
  default (lit "undefined") s.

(** [raw.split("|||").map(v => v.trim()).filter(Boolean)]. *)
Definition variations_of (raw : jsstring) : list jsstring :=
  List.filter nonempty (map trim (split (lit "|||") raw)).

(** [["1", "2", "3"].includes(choice) ? Number(choice) - 1 : 0];
    [None] stands for NaN. *)
Definition index_of (choice : jsstring) : option Z :=
  if includes [lit "1"; lit "2"; lit "3"] choice
  then (fun n => n - 1)%Z <$> Number_of_digits choice
  else Some 0%Z.

(** [a[i]] for a number [i]: [undefined] outside the array. *)
Definition at_index {A} (a : list A) (i : option Z) : option A :=
  i ≫= fun z => if (0 <=? z)%Z then a !! Z.to_nat z else None.

(** ** The Gemini call with full error handling

    [callGemini(prompt, stage)] of the first handler of paraphrase.js, of
    part_000 and of part_001; the three copies differ in the endpoint. The
    stage tag only goes to the console. *)
Module Full.

(** [data?.candidates?.[0]?.content?.parts?.[0]?.text] *)
Definition reply_text (data : json) : jsvalue :=
  chain (field (lit "text"))
    (chain first
      (chain (field (lit "parts"))
        (chain (field (lit "content"))
          (chain first
            (chain (field (lit "candidates")) (Some data)))))).

(** Everything [callGemini] does once [fetch] has settled. *)
Definition read_reply (res : FetchResult) : exn + jsstring :=
  match res with
  | NetworkError => inl (Error (lit "Failed to reach Gemini API (network error)"))
  | HttpReply code None => inl (Error (lit "Gemini returned invalid JSON"))
  | HttpReply code (Some data) =>
      if negb (ok code) then
        if ((code =? 401) || (code =? 403))%Z
        then inl (Error (lit "Gemini API key is invalid or unauthorized"))
        else if (code =? 429)%Z
        then inl (Error (lit "Gemini rate limit exceeded"))
        else inl (Error (lit "Gemini API error (" ++ decimal code ++ lit ")"))
      else
        match reply_text data with
        | None | Some JNull => inl (Error (lit "Gemini returned empty content"))
        | Some (JStr s) =>
            let output := trim s in
            if nonempty output then inr output
            else inl (Error (lit "Gemini returned empty content"))
        | Some _ => inl (Native NotAFunction)
        end
  end.

Definition callGemini (endpoint : jsstring) (env : Env)
    (prompt stage : jsstring) : Prog ApiCall FetchResult jsstring :=
  Call {| call_stage := Some stage;
          call_url := endpoint ++ spliced (GEMINI_API_KEY env);
          call_prompt := prompt |}
       (fun res => lift (read_reply res)).

End Full.

(** ** src/functions/api/paraphrase.js, first handler: five stages *)
Module V1.
Section Handler.
Context `{Engine}.

Definition endpoint : jsstring :=
  lit "https://generativelanguage.googleapis.com/v1beta/models/gemini-2.5-flash:generateContent?key=".

Definition callGemini := Full.callGemini endpoint.

(** The prompt of stage 1. *)
Definition stage1_prompt (text : jsvalue) : jsstring :=
  lit "
You are a skilled human writer rewriting content to sound completely natural and undetectable.

Create THREE completely different versions of the text below. For each version:
- Use varied sentence lengths (mix short punchy sentences with longer flowing ones)
- Start sentences differently (avoid repetitive patterns)
- Use natural transitions and connectors humans use (" ++ dq ++ lit "though" ++ dq ++ lit ", " ++ dq ++ lit "however" ++ dq ++ lit ", " ++ dq ++ lit "actually" ++ dq ++ lit ", " ++ dq ++ lit "in fact" ++ dq ++ lit ")
- Mix sentence structures (simple, compound, complex)
- Use active voice predominantly but occasionally passive where natural
- Include subtle informal touches if appropriate (contractions, natural phrasing)
- Avoid overly formal or robotic patterns
- Change word order and paragraph flow significantly
- Use synonyms that humans would naturally choose, not thesaurus replacements

Output ONLY the three rewrites separated by |||. No explanations.

ORIGINAL TEXT:
" ++ interpolate text ++ lit "
".

(** The prompt of stage 2. *)
Definition stage2_prompt (variations : list jsstring) : jsstring :=
  lit "
You're an expert at detecting natural human writing vs AI patterns.

Which rewrite sounds MOST like authentic human writing?
Consider:
- Natural flow and rhythm
- Varied sentence structure
- Absence of AI patterns (overly formal, repetitive structures)
- Human-like word choices
- Natural transitions

Reply ONLY with the number 1, 2, or 3.

1. " ++ spliced (variations !! 0%nat) ++ lit "
2. " ++ spliced (variations !! 1%nat) ++ lit "
3. " ++ spliced (variations !! 2%nat) ++ lit "
".

(** The prompt of stage 3; [selected] is [variations[index]]. *)
Definition stage3_prompt (selected : option jsstring) : jsstring :=
  lit "
You are refining this text to be completely undetectable by AI detection tools.

Apply these human writing characteristics:
1. Vary sentence rhythm - mix 5-word sentences with 20+ word sentences
2. Use natural human connectors (" ++ dq ++ lit "and" ++ dq ++ lit ", " ++ dq ++ lit "but" ++ dq ++ lit ", " ++ dq ++ lit "though" ++ dq ++ lit ", " ++ dq ++ lit "while" ++ dq ++ lit ", " ++ dq ++ lit "since" ++ dq ++ lit ")
3. Break up any repetitive patterns in sentence structure
4. Use contractions naturally where appropriate (don't, it's, we're)
5. Add slight stylistic variation (not every sentence should follow subject-verb-object)
6. Use more specific, concrete language over generic terms
7. Avoid these AI tells:
   - Starting multiple sentences the same way
   - Overuse of formal vocabulary
   - Perfectly balanced sentence lengths
   - Lists with identical grammatical structure
   - Overuse of adverbs (particularly, significantly, notably)
8. Write like you're explaining to a friend, not writing an essay

Output ONLY the refined text. No explanations.

TEXT:
" ++ spliced selected ++ lit "
".

(** The prompt of stage 4. *)
Definition stage4_prompt (tone : jsvalue) (selected : jsstring) : jsstring :=
  lit "
Apply a " ++ interpolate tone ++ lit " tone while keeping the text authentically human.

Final polish checklist:
- Ensure natural, conversational flow
- Remove any remaining robotic patterns
- Vary sentence openings
- Mix sentence complexity (some simple, some complex)
- Use natural human phrasing for the " ++ interpolate tone ++ lit " tone
- Keep it genuine - humans aren't perfect writers
- Avoid AI red flags: overly formal language, repetitive structures, excessive politeness

If tone is " ++ dq ++ lit "simple" ++ dq ++ lit ": Use everyday words, short sentences, clear and direct
If tone is " ++ dq ++ lit "professional" ++ dq ++ lit ": Confident and clear, but still conversational 
If tone is " ++ dq ++ lit "academic" ++ dq ++ lit ": Formal but not robotic, use discipline-appropriate language
If tone is " ++ dq ++ lit "standard" ++ dq ++ lit ": Natural middle ground, like a good blog post

Output ONLY the final polished text.

TEXT:
" ++ selected ++ lit "
".

(** The prompt of stage 5. *)
Definition stage5_prompt (tone : jsvalue) (final : jsstring) : jsstring :=
  lit "
AI detectors measure " ++ dq ++ lit "perplexity" ++ dq ++ lit " (word predictability) and " ++ dq ++ lit "burstiness" ++ dq ++ lit " (sentence length variation).
Humans have HIGH burstiness (varied sentences) and HIGHER perplexity (less predictable word choices).

Rewrite this to maximize both:

PERPLEXITY (make word choices less predictable):
- Replace obvious next-word choices with natural alternatives
- Use less common but appropriate synonyms occasionally
- Vary your vocabulary - don't repeat the same descriptive words
- Choose unexpected but fitting transitions

BURSTINESS (create dramatic sentence length variation):
- Make some sentences very short. Like this.
- Then create longer, more flowing sentences that weave together multiple ideas with natural connectors and build a complete thought before ending.
- Follow with medium-length sentences for balance.
- Mix it up constantly - avoid any pattern.

Target: 30-50% variation in sentence length, with at least 2 sentences under 8 words and 2 over 20 words.

Keep all meaning and the " ++ interpolate tone ++ lit " tone. Output ONLY the final text.

TEXT:
" ++ final ++ lit "
".


(** Everything after the three guards: the stages. *)
Definition pipeline (env : Env) (text tone : jsvalue) : Handler :=
  variationsRaw ← callGemini env (stage1_prompt text) (lit "stage-1");
  let variations := variations_of variationsRaw in
  if (length variations <? 3)%nat
  then Throw (Error (lit "Gemini failed to generate 3 variations"))
  else
    selectionRaw ← callGemini env (stage2_prompt variations) (lit "stage-2");
    let choice := trim selectionRaw in
    let index := index_of choice in
    let selected := at_index variations index in
    selected ← callGemini env (stage3_prompt selected) (lit "stage-3");
    final ← callGemini env (stage4_prompt tone selected) (lit "stage-4");
    final ← callGemini env (stage5_prompt tone final) (lit "stage-5");
    Ret (json_response (JObj [(lit "result", JStr final)]) 200).

Definition onRequestPost (request : Request) (env : Env) : Handler :=
  try_catch
    (body ← await_json request;
     text ← member (lit "text") body;
     tone_field ← member (lit "tone") body;
     let tone := tone_or_standard tone_field in
     if invalid_text text
     then Ret (json_response (JObj [(lit "error", JStr (lit "Invalid input text"))]) 400)
     else if negb (tone_allowed tone)
     then Ret (json_response (JObj [(lit "error", JStr (lit "Invalid tone"))]) 400)
     else if key_missing env
     then Ret (json_response
                 (JObj [(lit "error",
                         JStr (lit "GEMINI_API_KEY is missing in environment variables"))])
                 500)
     else pipeline env text tone)
    (fun err =>
       Ret (json_response
              (JObj [(lit "error", JStr (lit "Paraphrasing failed"));
                     (lit "details", JStr (message err))])
              500)).

End Handler.
End V1.

(** ** src/functions/api/paraphrase.js, second handler: four calls *)
Module V2.
Section Handler.
Context `{Engine}.

Definition endpoint : jsstring :=
  lit "https://generativelanguage.googleapis.com/v1beta/models/gemini-1.5-flash:generateContent?key=".

(** A property read without [?.]: it throws on [null] and [undefined]. *)
Definition strict (access : json -> jsvalue) (v : exn + jsvalue)
  : exn + jsvalue :=
  match v with
  | inl e => inl e
  | inr None | inr (Some JNull) => inl (Native PropertyOfNullish)
  | inr (Some x) => inr (access x)
  end.

(** [data.candidates[0].content.parts[0].text.trim()], after the check of
    [response.ok] and [await response.json()]. *)
Definition read_reply (res : FetchResult) : exn + jsstring :=
  match res with
  | NetworkError => inl (Native FetchRejected)
  | HttpReply code payload =>
      if negb (ok code)
      then inl (Error (lit "Gemini API error: " ++ decimal code))
      else
        match payload with
        | None => inl (Native ReplyNotJson)
        | Some data =>
            let text :=
              strict (field (lit "text"))
                (strict first
                  (strict (field (lit "parts"))
                    (strict (field (lit "content"))
                      (strict first
                        (strict (field (lit "candidates")) (inr (Some data))))))) in
            match text with
            | inl e => inl e
            | inr None | inr (Some JNull) => inl (Native PropertyOfNullish)
            | inr (Some (JStr s)) => inr (trim s)
            | inr (Some _) => inl (Native NotAFunction)
            end
        end
  end.

Definition callGemini (apiKey : option jsstring) (prompt : jsstring)
  : Prog ApiCall FetchResult jsstring :=
  Call {| call_stage := None;
          call_url := endpoint ++ spliced apiKey;
          call_prompt := prompt |}
       (fun res => lift (read_reply res)).

(** [l.replace(/^d\.\s*/, '')] for the digit [d]. *)
Definition strip_number (d : jsstring) (l : jsstring) : jsstring :=
  if startsWith (d ++ lit ".") l
  then trimStart (drop (length (d ++ lit ".")) l)
  else l.

(** [lines.find(l => l.startsWith('d.'))?.replace(/^d\.\s*/, '') || ''] *)
Definition numbered (d : jsstring) (lines : list jsstring) : jsstring :=
  match List.find (startsWith (d ++ lit ".")) lines with
  | Some l => strip_number d l
  | None => []
  end.

(** [variationsText.split('\n').map(l => l.trim()).filter(l => l)] *)
Definition lines_of (variationsText : jsstring) : list jsstring :=
  List.filter nonempty (map trim (split nl variationsText)).

(** [!text || typeof text !== 'string' || text.length === 0 ||
    text.length > 2000] *)
Definition invalid_text (text : jsvalue) : bool :=
  negb (truthy text)
  || match text with
     | Some (JStr s) => (length s =? 0)%nat || (2000 <? length s)%nat
     | _ => true
     end.

Definition stage1Prompt (text : jsvalue) : jsstring :=
  lit "You are an expert editor. Rewrite the following text by deeply changing sentence structure and wording while preserving the original meaning. Do not add or remove information. Avoid clich" ++ [233] ++ lit "s and repetitive phrasing. Generate 3 different variations.

Text: " ++ dq ++ interpolate text ++ dq ++ lit "

Output each variation on a new line, numbered 1., 2., 3.".

Definition selectPrompt (text : jsvalue) (var1 var2 var3 : jsstring)
  : jsstring :=
  lit "Here are 3 paraphrased versions of the text " ++ dq ++ interpolate text ++ dq ++ lit ":

1. " ++ var1 ++ lit "

2. " ++ var2 ++ lit "

3. " ++ var3 ++ lit "

Select the best one based on meaning preservation, naturalness, and readability. Output only the number (1, 2, or 3).".

Definition stage2Prompt (selected : jsstring) : jsstring :=
  lit "Improve the following rewritten text to sound more fluent, natural, and human-written. Vary sentence length and rhythm. Remove robotic or AI-like phrasing. Output ONLY the improved text.

Text: " ++ dq ++ selected ++ dq.

Definition stage3Prompt (tone : jsvalue) (stage2Output : jsstring)
  : jsstring :=
  lit "Rewrite the following text in a " ++ interpolate tone ++ lit " tone. Keep clarity, coherence, and meaning intact. Do not explain changes. Output ONLY the final paraphrased text.

Text: " ++ dq ++ stage2Output ++ dq.

(** [new Response(JSON.stringify(data), { status, headers: {...} })] *)
Definition respond (data : json) (status : Z) : Response :=
  {| status := status; headers := json_headers; body := Stringified data |}.

Definition pipeline (apiKey : option jsstring) (text tone : jsvalue)
  : Handler :=
  variationsText ← callGemini apiKey (stage1Prompt text);
  let lines := lines_of variationsText in
  let var1 := numbered (lit "1") lines in
  let var2 := numbered (lit "2") lines in
  let var3 := numbered (lit "3") lines in
  if negb (nonempty var1) || negb (nonempty var2) || negb (nonempty var3)
  then Throw (Error (lit "Failed to generate variations"))
  else
    selectedNumStr ← callGemini apiKey (selectPrompt text var1 var2 var3);
    let selectedNum := parseInt (trim selectedNumStr) in
    selected ←
      (if bool_decide (selectedNum = Some 1%Z) then Ret var1
       else if bool_decide (selectedNum = Some 2%Z) then Ret var2
       else if bool_decide (selectedNum = Some 3%Z) then Ret var3
       else Throw (Error (lit "Invalid selection")));
    stage2Output ← callGemini apiKey (stage2Prompt selected);
    finalResult ← callGemini apiKey (stage3Prompt tone stage2Output);
    Ret (respond (JObj [(lit "result", JStr finalResult)]) 200).

Definition onRequestPost (request : Request) (env : Env) : Handler :=
  try_catch
    (body ← await_json request;
     text ← member (lit "text") body;
     tone ← member (lit "tone") body;
     if invalid_text text
     then Ret (respond
                 (JObj [(lit "error",
                         JStr (lit "Invalid input: text must be a non-empty string under 2000 characters"))])
                 400)
     else if negb (tone_allowed tone)
     then Ret (respond
                 (JObj [(lit "error",
                         JStr (lit "Invalid tone: must be one of standard, simple, professional, academic"))])
                 400)
     else
       let apiKey := GEMINI_API_KEY env in
       if negb (truthy (JStr <$> apiKey))
       then Ret (respond (JObj [(lit "error", JStr (lit "Server configuration error"))]) 500)
       else pipeline apiKey text tone)
    (fun error =>
       Ret (respond (JObj [(lit "error", JStr (lit "Internal server error"))]) 500)).

End Handler.
End V2.

(** ** src/functions/api/paraphrase.js, third handler: four stages *)
Module V3.
Section Handler.
Context `{Engine}.

Definition endpoint : jsstring :=
  lit "https://generativelanguage.googleapis.com/v1beta/models/gemini-1.5-flash:generateContent?key=".

(** [data.candidates?.[0]?.content?.parts?.[0]?.text || ""], after the
    check of [res.ok]. The value returned need not be a string. *)
Definition read_reply (res : FetchResult) : exn + json :=
  match res with
  | NetworkError => inl (Native FetchRejected)
  | HttpReply code None => inl (Native ReplyNotJson)
  | HttpReply code (Some data) =>
      if negb (ok code) then inl (Error (JSON_stringify data))
      else
        match data with
        | JNull => inl (Native PropertyOfNullish)
        | _ =>
            let text :=
              chain (field (lit "text"))
                (chain first
                  (chain (field (lit "parts"))
                    (chain (field (lit "content"))
                      (chain first (field (lit "candidates") data))))) in
            match text with
            | Some v => if truthy text then inr v else inr (JStr [])
            | None => inr (JStr [])
            end
        end
  end.

Definition callGemini (env : Env) (prompt : jsstring)
  : Prog ApiCall FetchResult json :=
  Call {| call_stage := None;
          call_url := endpoint ++ spliced (GEMINI_API_KEY env);
          call_prompt := prompt |}
       (fun res => lift (read_reply res)).

(** A string method ([split], [trim]) called on a value: only a string has
    it. *)
Definition string_method {Q R} (v : json) : Prog Q R jsstring :=
  match v with
  | JStr s => Ret s
  | _ => Throw (Native NotAFunction)
  end.

(** The prompt of stage 1. *)
Definition stage1_prompt (text : jsvalue) : jsstring :=
  lit "
Rewrite the text below in THREE different ways.
Each rewrite must preserve meaning but change structure and wording deeply.
Output ONLY the three rewrites separated by |||.

TEXT:
" ++ interpolate text ++ lit "
".

(** The prompt of stage 2. *)
Definition stage2_prompt (variations : list jsstring) : jsstring :=
  lit "
Choose the BEST rewrite based on clarity, naturalness, and meaning preservation.
Reply ONLY with the number 1, 2, or 3.

1. " ++ spliced (variations !! 0%nat) ++ lit "
2. " ++ spliced (variations !! 1%nat) ++ lit "
3. " ++ spliced (variations !! 2%nat) ++ lit "
".

(** The prompt of stage 3; [selected] is [variations[index]]. *)
Definition stage3_prompt (selected : option jsstring) : jsstring :=
  lit "
Improve the text to sound fluent, human, and natural.
Avoid AI patterns.
Output ONLY the rewritten text.

TEXT:
" ++ spliced selected ++ lit "
".

(** The prompt of stage 4; [selected] is what stage 3 returned. *)
Definition stage4_prompt (tone : jsvalue) (selected : json) : jsstring :=
  lit "
Rewrite the text in a " ++ interpolate tone ++ lit " tone.
Preserve meaning and clarity.
Output ONLY the final text.

TEXT:
" ++ interpolate (Some selected) ++ lit "
".

Definition pipeline (env : Env) (text tone : jsvalue) : Handler :=
  variationsRaw ← callGemini env (stage1_prompt text);
  raw ← string_method variationsRaw;
  let variations := variations_of raw in
  if (length variations <? 3)%nat
  then Throw (Error (lit "Variation generation failed"))
  else
    selectionRaw ← callGemini env (stage2_prompt variations);
    reply ← string_method selectionRaw;
    let index := index_of (trim reply) in
    let selected := at_index variations index in
    selected ← callGemini env (stage3_prompt selected);
    final ← callGemini env (stage4_prompt tone selected);
    Ret (json_response (JObj [(lit "result", final)]) 200).

Definition onRequestPost (request : Request) (env : Env) : Handler :=
  try_catch
    (body ← await_json request;
     text ← member (lit "text") body;
     tone_field ← member (lit "tone") body;
     let tone := tone_or_standard tone_field in
     if invalid_text text
     then Ret (json_response (JObj [(lit "error", JStr (lit "Invalid input text"))]) 400)
     else if negb (tone_allowed tone)
     then Ret (json_response (JObj [(lit "error", JStr (lit "Invalid tone"))]) 400)
     else if key_missing env
     then Ret (json_response (JObj [(lit "error", JStr (lit "Missing Gemini API key"))]) 500)
     else pipeline env text tone)
    (fun err =>
       Ret (json_response (JObj [(lit "error", JStr (lit "Internal server error"))]) 500)).

End Handler.
End V3.

(** ** src/unnamed/part_000: four stages *)
Module Part000.
Section Handler.
Context `{Engine}.

Definition endpoint : jsstring :=
  lit "https://generativelanguage.googleapis.com/v1/models/gemini-1.5-flash:generateContent?key=".

Definition callGemini := Full.callGemini endpoint.

(** The prompt of stage 1. *)
Definition stage1_prompt (text : jsvalue) : jsstring :=
  lit "
Rewrite the text below in THREE different ways.
Each rewrite must preserve meaning but change structure and wording deeply.
Output ONLY the three rewrites separated by |||.

TEXT:
" ++ interpolate text ++ lit "
".

(** The prompt of stage 2. *)
Definition stage2_prompt (variations : list jsstring) : jsstring :=
  lit "
Choose the BEST rewrite based on clarity, naturalness, and meaning preservation.
Reply ONLY with the number 1, 2, or 3.

1. " ++ spliced (variations !! 0%nat) ++ lit "
2. " ++ spliced (variations !! 1%nat) ++ lit "
3. " ++ spliced (variations !! 2%nat) ++ lit "
".

(** The prompt of stage 3; [selected] is [variations[index]]. *)
Definition stage3_prompt (selected : option jsstring) : jsstring :=
  lit "
Improve the text to sound fluent, natural, and human-written.
Avoid AI patterns.
Output ONLY the rewritten text.

TEXT:
" ++ spliced selected ++ lit "
".

(** The prompt of stage 4. *)
Definition stage4_prompt (tone : jsvalue) (selected : jsstring) : jsstring :=
  lit "
Rewrite the text in a " ++ interpolate tone ++ lit " tone.
Preserve meaning and clarity.
Output ONLY the final text.

TEXT:
" ++ selected ++ lit "
".

(** Everything after the three guards: the stages. *)
Definition pipeline (env : Env) (text tone : jsvalue) : Handler :=
  variationsRaw ← callGemini env (stage1_prompt text) (lit "stage-1");
  let variations := variations_of variationsRaw in
  if (length variations <? 3)%nat
  then Throw (Error (lit "Gemini failed to generate 3 variations"))
  else
    selectionRaw ← callGemini env (stage2_prompt variations) (lit "stage-2");
    let choice := trim selectionRaw in
    let index := index_of choice in
    let selected := at_index variations index in
    selected ← callGemini env (stage3_prompt selected) (lit "stage-3");
    final ← callGemini env (stage4_prompt tone selected) (lit "stage-4");
    Ret (json_response (JObj [(lit "result", JStr final)]) 200).

Definition onRequestPost (request : Request) (env : Env) : Handler :=
  try_catch
    (body ← await_json request;
     text ← member (lit "text") body;
     tone_field ← member (lit "tone") body;
     let tone := tone_or_standard tone_field in
     if invalid_text text
     then Ret (json_response (JObj [(lit "error", JStr (lit "Invalid input text"))]) 400)
     else if negb (tone_allowed tone)
     then Ret (json_response (JObj [(lit "error", JStr (lit "Invalid tone"))]) 400)
     else if key_missing env
     then Ret (json_response
                 (JObj [(lit "error",
                         JStr (lit "GEMINI_API_KEY is missing in environment variables"))])
                 500)
     else pipeline env text tone)
    (fun err =>
       Ret (json_response
              (JObj [(lit "error", JStr (lit "Paraphrasing failed"));
                     (lit "details", JStr (message err))])
              500)).

End Handler.
End Part000.

(** ** src/unnamed/part_001: six stages *)
Module Part001.
Section Handler.
Context `{Engine}.

(** The three characters of the prompts outside ASCII, one code unit each. *)
Definition arrow : jsstring := [8594].
Definition cross_mark : jsstring := [10060].
Definition check_mark : jsstring := [9989].

Definition endpoint : jsstring :=
  lit "https://generativelanguage.googleapis.com/v1beta/models/gemini-2.5-flash:generateContent?key=".

Definition callGemini := Full.callGemini endpoint.

(** The prompt of stage 1. *)
Definition stage1_prompt (text : jsvalue) : jsstring :=
  lit "
REWRITE this text to be completely undetectable by AI detectors. Think like a real human writer.

CREATE THREE VERSIONS using these strict rules:

1. SENTENCE VARIETY (critical):
   - At least 2 very short sentences (3-7 words)
   - At least 2 long sentences (20+ words)
   - NO patterns - random mix of lengths
   - Start sentences in completely different ways

2. HUMAN PATTERNS:
   - Use casual connectors: " ++ dq ++ lit "And" ++ dq ++ lit ", " ++ dq ++ lit "But" ++ dq ++ lit ", " ++ dq ++ lit "So" ++ dq ++ lit " to start sentences sometimes
   - Add natural fillers: " ++ dq ++ lit "actually" ++ dq ++ lit ", " ++ dq ++ lit "basically" ++ dq ++ lit ", " ++ dq ++ lit "really" ++ dq ++ lit ", " ++ dq ++ lit "just" ++ dq ++ lit "
   - Use contractions freely: don't, can't, it's, we're, I'm
   - Occasionally use incomplete thoughts that get completed

3. BREAK AI PATTERNS:
   - NEVER use: " ++ dq ++ lit "furthermore" ++ dq ++ lit ", " ++ dq ++ lit "moreover" ++ dq ++ lit ", " ++ dq ++ lit "additionally" ++ dq ++ lit ", " ++ dq ++ lit "consequently" ++ dq ++ lit " 
   - AVOID: " ++ dq ++ lit "significant" ++ dq ++ lit ", " ++ dq ++ lit "utilize" ++ dq ++ lit ", " ++ dq ++ lit "demonstrate" ++ dq ++ lit ", " ++ dq ++ lit "implement" ++ dq ++ lit "
   - NO bullet-point-like structures
   - NO parallel sentence structures (every sentence should be structurally different)

4. WORD CHOICES:
   - Use simpler, everyday words
   - Choose unexpected but natural synonyms
   - Vary how you express ideas (don't repeat patterns)

5. FLOW:
   - Write like you're talking to someone
   - Some ideas flow naturally into the next, some don't
   - Not every transition needs to be perfect

OUTPUT: Three complete rewrites separated by |||. NO explanations.

TEXT:
" ++ interpolate text ++ lit "
".

(** The prompt of stage 2. *)
Definition stage2_prompt (variations : list jsstring) : jsstring :=
  lit "
You're an expert at detecting natural human writing vs AI patterns.

Which rewrite sounds MOST like authentic human writing?
Consider:
- Natural flow and rhythm
- Varied sentence structure
- Absence of AI patterns (overly formal, repetitive structures)
- Human-like word choices
- Natural transitions

Reply ONLY with the number 1, 2, or 3.

1. " ++ spliced (variations !! 0%nat) ++ lit "
2. " ++ spliced (variations !! 1%nat) ++ lit "
3. " ++ spliced (variations !! 2%nat) ++ lit "
".

(** The prompt of stage 3; [selected] is [variations[index]]. *)
Definition stage3_prompt (selected : option jsstring) : jsstring :=
  lit "
AI DETECTORS look for patterns. Your job: DESTROY all patterns.

APPLY THESE FIXES:

1. SENTENCE LENGTH CHAOS:
   - Current text probably has similar-length sentences (AI habit)
   - FIX: Make some 4-5 words. Others 25+ words. Random mix.
   - Count the words - force variety

2. SENTENCE STARTERS:
   - Check: Do sentences start similarly? (The, It, This, etc.)
   - FIX: Start with different parts of speech - verbs, adverbs, conjunctions
   - Use " ++ dq ++ lit "And" ++ dq ++ lit ", " ++ dq ++ lit "But" ++ dq ++ lit ", " ++ dq ++ lit "So" ++ dq ++ lit " sometimes (humans do this, AI avoids it)

3. VOCABULARY DOWNGRADE:
   - Replace fancy AI words with normal ones:
   - " ++ dq ++ lit "utilize" ++ dq ++ lit " " ++ arrow ++ lit " " ++ dq ++ lit "use" ++ dq ++ lit "
   - " ++ dq ++ lit "demonstrate" ++ dq ++ lit " " ++ arrow ++ lit " " ++ dq ++ lit "show" ++ dq ++ lit " 
   - " ++ dq ++ lit "significant" ++ dq ++ lit " " ++ arrow ++ lit " " ++ dq ++ lit "big" ++ dq ++ lit " or " ++ dq ++ lit "major" ++ dq ++ lit "
   - " ++ dq ++ lit "implement" ++ dq ++ lit " " ++ arrow ++ lit " " ++ dq ++ lit "do" ++ dq ++ lit " or " ++ dq ++ lit "put in place" ++ dq ++ lit "
   - " ++ dq ++ lit "furthermore" ++ dq ++ lit " " ++ arrow ++ lit " " ++ dq ++ lit "also" ++ dq ++ lit " or " ++ dq ++ lit "and" ++ dq ++ lit "

4. ADD HUMAN QUIRKS:
   - Use contractions everywhere natural
   - Add emphasis words: " ++ dq ++ lit "really" ++ dq ++ lit ", " ++ dq ++ lit "actually" ++ dq ++ lit ", " ++ dq ++ lit "pretty" ++ dq ++ lit ", " ++ dq ++ lit "quite" ++ dq ++ lit "
   - Occasional casual phrasing
   - Not every sentence needs perfect transitions

5. RHYTHM BREAKING:
   - AI loves: statement, statement, statement
   - Humans use: short punch. Long explanation that flows. Medium followup.
   - Mix it completely randomly

6. REMOVE:
   - All adverbs ending in -ly if possible
   - Perfect parallel structures  
   - Overly formal tone
   - Academic-sounding phrases

Write like a human blogs or talks, not like AI writes essays.

OUTPUT: Refined text only.

TEXT:
" ++ spliced selected ++ lit "
".

(** The prompt of stage 4. *)
Definition stage4_prompt (tone : jsvalue) (selected : jsstring) : jsstring :=
  lit "
Apply a " ++ interpolate tone ++ lit " tone while keeping the text authentically human.

Final polish checklist:
- Ensure natural, conversational flow
- Remove any remaining robotic patterns
- Vary sentence openings
- Mix sentence complexity (some simple, some complex)
- Use natural human phrasing for the " ++ interpolate tone ++ lit " tone
- Keep it genuine - humans aren't perfect writers
- Avoid AI red flags: overly formal language, repetitive structures, excessive politeness

If tone is " ++ dq ++ lit "simple" ++ dq ++ lit ": Use everyday words, short sentences, clear and direct
If tone is " ++ dq ++ lit "professional" ++ dq ++ lit ": Confident and clear, but still conversational 
If tone is " ++ dq ++ lit "academic" ++ dq ++ lit ": Formal but not robotic, use discipline-appropriate language
If tone is " ++ dq ++ lit "standard" ++ dq ++ lit ": Natural middle ground, like a good blog post

Output ONLY the final polished text.

TEXT:
" ++ selected ++ lit "
".

(** The prompt of stage 5. *)
Definition stage5_prompt (tone : jsvalue) (final : jsstring) : jsstring :=
  lit "
FINAL CHECK: Make this text 100% undetectable.

AI DETECTION KILLER TECHNIQUES:

1. EXTREME SENTENCE VARIATION:
   - Shortest sentence: 3-5 words MAX
   - Longest sentence: 25-35 words
   - Create UNPREDICTABLE pattern: short, long, medium, short, very long, medium, etc.
   - No two consecutive sentences should be similar length

2. WORD UNPREDICTABILITY:
   - Where AI would say " ++ dq ++ lit "important" ++ dq ++ lit " " ++ arrow ++ lit " say " ++ dq ++ lit "key" ++ dq ++ lit " or " ++ dq ++ lit "crucial" ++ dq ++ lit " or " ++ dq ++ lit "big deal" ++ dq ++ lit "
   - Where AI would say " ++ dq ++ lit "however" ++ dq ++ lit " " ++ arrow ++ lit " say " ++ dq ++ lit "but" ++ dq ++ lit " or " ++ dq ++ lit "though" ++ dq ++ lit " or just start new sentence
   - Use everyday words, not formal ones
   - Occasionally use colloquial expressions if appropriate

3. STRUCTURE CHAOS:
   - Mix simple sentences with complex ones randomly
   - Some sentences with commas and clauses, others without
   - Vary how you connect ideas (sometimes with connectors, sometimes just new sentences)
   - Break expected patterns

4. HUMAN TOUCHES:
   - Contractions in at least 30% of opportunities
   - Start at least one sentence with " ++ dq ++ lit "And" ++ dq ++ lit ", " ++ dq ++ lit "But" ++ dq ++ lit ", or " ++ dq ++ lit "So" ++ dq ++ lit "
   - Use personal pronouns naturally (we, you, I if appropriate)
   - Add subtle emphasis: " ++ dq ++ lit "really" ++ dq ++ lit ", " ++ dq ++ lit "actually" ++ dq ++ lit ", " ++ dq ++ lit "definitely" ++ dq ++ lit "

5. TONE CHECK (" ++ interpolate tone ++ lit "):
   - Simple: Talk like a friend explaining something
   - Professional: Confident but conversational, not corporate
   - Academic: Scholarly but not robotic or overly formal
   - Standard: Natural blog-post style

6. FINAL SCAN:
   - Count words in each sentence - are they varied enough?
   - Read aloud - does it sound like a human or AI?
   - Any repeated sentence patterns? BREAK THEM.

OUTPUT: The final humanized text.

TEXT:
" ++ final ++ lit "
".

(** The prompt of stage 6. *)
Definition stage6_prompt (tone : jsvalue) (final : jsstring) : jsstring :=
  lit "
This is the FINAL PASS. Your ONLY job: make this pass AI detection at 0-20% AI likelihood.

AI DETECTORS SPECIFICALLY FLAG THESE - ELIMINATE THEM ALL:

" ++ cross_mark ++ lit " BANNED WORDS (replace with natural alternatives):
- Additionally, Furthermore, Moreover, Consequently " ++ arrow ++ lit " use " ++ dq ++ lit "Also" ++ dq ++ lit ", " ++ dq ++ lit "And" ++ dq ++ lit ", " ++ dq ++ lit "Plus" ++ dq ++ lit ", " ++ dq ++ lit "So" ++ dq ++ lit "
- Utilize, Leverage " ++ arrow ++ lit " use " ++ dq ++ lit "use" ++ dq ++ lit "
- Demonstrates, Showcases " ++ arrow ++ lit " use " ++ dq ++ lit "shows" ++ dq ++ lit "
- Significant, Substantial " ++ arrow ++ lit " use " ++ dq ++ lit "big" ++ dq ++ lit ", " ++ dq ++ lit "major" ++ dq ++ lit ", " ++ dq ++ lit "important" ++ dq ++ lit "
- Implement, Execute " ++ arrow ++ lit " use " ++ dq ++ lit "do" ++ dq ++ lit ", " ++ dq ++ lit "make" ++ dq ++ lit ", " ++ dq ++ lit "put in place" ++ dq ++ lit "
- Facilitate " ++ arrow ++ lit " use " ++ dq ++ lit "help" ++ dq ++ lit ", " ++ dq ++ lit "make easier" ++ dq ++ lit "
- Enhance " ++ arrow ++ lit " use " ++ dq ++ lit "improve" ++ dq ++ lit ", " ++ dq ++ lit "make better" ++ dq ++ lit "
- Comprehensive " ++ arrow ++ lit " use " ++ dq ++ lit "complete" ++ dq ++ lit ", " ++ dq ++ lit "full" ++ dq ++ lit "
- Robust " ++ arrow ++ lit " use " ++ dq ++ lit "strong" ++ dq ++ lit ", " ++ dq ++ lit "solid" ++ dq ++ lit "
- Ensure " ++ arrow ++ lit " use " ++ dq ++ lit "make sure" ++ dq ++ lit "

" ++ cross_mark ++ lit " AI SENTENCE PATTERNS (rewrite these):
- " ++ dq ++ lit "It is important to note that..." ++ dq ++ lit " " ++ arrow ++ lit " just state the fact
- " ++ dq ++ lit "This allows for..." ++ dq ++ lit " " ++ arrow ++ lit " use " ++ dq ++ lit "This lets..." ++ dq ++ lit "
- " ++ dq ++ lit "In order to..." ++ dq ++ lit " " ++ arrow ++ lit " use " ++ dq ++ lit "To..." ++ dq ++ lit "
- " ++ dq ++ lit "Due to the fact that..." ++ dq ++ lit " " ++ arrow ++ lit " use " ++ dq ++ lit "Because..." ++ dq ++ lit "
- " ++ dq ++ lit "For the purpose of..." ++ dq ++ lit " " ++ arrow ++ lit " use " ++ dq ++ lit "To..." ++ dq ++ lit "

" ++ check_mark ++ lit " DO THIS:
1. Replace at least 3 formal words with casual equivalents
2. Add 2+ contractions (don't, can't, it's, won't)
3. Start at least 1 sentence with: And, But, or So
4. Make shortest sentence 5 words or less
5. Make longest sentence 25+ words
6. Use simple, direct language
7. Break any repetitive rhythm

" ++ check_mark ++ lit " HUMAN WRITING SIGNS:
- Varied punctuation (mix periods, commas, occasional dashes)
- Natural flow, not robotic precision
- Some sentences that dive straight into the point
- Conversational tone (like explaining to a colleague)

Keep the " ++ interpolate tone ++ lit " tone and all original meaning.

OUTPUT: The final undetectable text ONLY.

TEXT:
" ++ final ++ lit "
".


(** Everything after the three guards: the stages. *)
Definition pipeline (env : Env) (text tone : jsvalue) : Handler :=
  variationsRaw ← callGemini env (stage1_prompt text) (lit "stage-1");
  let variations := variations_of variationsRaw in
  if (length variations <? 3)%nat
  then Throw (Error (lit "Gemini failed to generate 3 variations"))
  else
    selectionRaw ← callGemini env (stage2_prompt variations) (lit "stage-2");
    let choice := trim selectionRaw in
    let index := index_of choice in
    let selected := at_index variations index in
    selected ← callGemini env (stage3_prompt selected) (lit "stage-3");
    final ← callGemini env (stage4_prompt tone selected) (lit "stage-4");
    final ← callGemini env (stage5_prompt tone final) (lit "stage-5");
    final ← callGemini env (stage6_prompt tone final) (lit "stage-6");
    Ret (json_response (JObj [(lit "result", JStr final)]) 200).

Definition onRequestPost (request : Request) (env : Env) : Handler :=
  try_catch
    (body ← await_json request;
     text ← member (lit "text") body;
     tone_field ← member (lit "tone") body;
     let tone := tone_or_standard tone_field in
     if invalid_text text
     then Ret (json_response (JObj [(lit "error", JStr (lit "Invalid input text"))]) 400)
     else if negb (tone_allowed tone)
     then Ret (json_response (JObj [(lit "error", JStr (lit "Invalid tone"))]) 400)
     else if key_missing env
     then Ret (json_response
                 (JObj [(lit "error",
                         JStr (lit "GEMINI_API_KEY is missing in environment variables"))])
                 500)
     else pipeline env text tone)
    (fun err =>
       Ret (json_response
              (JObj [(lit "error", JStr (lit "Paraphrasing failed"));
                     (lit "details", JStr (message err))])
              500)).

End Handler.
End Part001.

(** ** src/server.js: the Express route POST /paraphrase, one call

    The route reaches Gemini through the SDK; what the SDK does on the wire
    is outside the repository, so one call is [model.generateContent(prompt)]
    followed by [result.response.text()]. *)
Module Server.

Record SdkCall : Type := {
  sdk_model : jsstring;
  sdk_prompt : jsstring
}.

(** The text of the response, or an exception from either SDK method. *)
Inductive SdkResult : Type :=
| SdkThrows
| SdkText (text : jsstring).

(** How the route answers: [res.status(s).json(data)] (status 200 when
    [status] is not called), or [res.send(text)], which the route never
    uses. *)
Inductive ExpressReply : Type :=
| res_json (status : Z) (data : json)
| res_send (status : Z) (text : jsstring).

Record ExpressRequest : Type := {
  (** [req.body] as [express.json()] left it *)
  req_body : jsvalue
}.

Definition validateInput (text : jsvalue) : option jsstring :=
  match text with
  | Some (JStr s) =>
      if negb (nonempty s) then Some (lit "Text must be a non-empty string.")
      else if (length (trim s) <? 10)%nat
      then Some (lit "Text must be at least 10 characters long.")
      else None
  | _ => Some (lit "Text must be a non-empty string.")
  end.

(** [text.trim()] *)
Definition trim_method {Q R} (text : jsvalue) : Prog Q R jsstring :=
  match text with
  | Some (JStr s) => Ret (trim s)
  | None | Some JNull => Throw (Native PropertyOfNullish)
  | Some _ => Throw (Native NotAFunction)
  end.

Definition prompt_of (sanitizedText : jsstring) : jsstring :=
  lit "Rewrite the following text as if written by a university student explaining their own work. Keep the original meaning fully intact. Use natural sentence length variation. Maintain an academic but human tone. Avoid robotic or overly polished language. Do not add new facts. Do not shorten aggressively. Do not mention AI or rewriting in the output.

Original text: " ++ sanitizedText.

Definition generateContent (prompt : jsstring)
  : Prog SdkCall SdkResult jsstring :=
  Call {| sdk_model := lit "gemini-2.5-flash-lite"; sdk_prompt := prompt |}
       (fun r => match r with
                 | SdkThrows => Throw (Native SdkFailure)
                 | SdkText t => Ret t
                 end).

Definition paraphrase (req : ExpressRequest)
  : Prog SdkCall SdkResult ExpressReply :=
  try_catch
    (text ← match req_body req with
            | None | Some JNull => Throw (Native PropertyOfNullish)
            | Some b => Ret (field (lit "text") b)
            end;
     match validateInput text with
     | Some validationError =>
         Ret (res_json 400 (JObj [(lit "error", JStr validationError)]))
     | None =>
         sanitizedText ← trim_method text;
         let prompt := prompt_of sanitizedText in
         result ← generateContent prompt;
         let paraphrased := trim result in
         Ret (res_json 200 (JObj [(lit "paraphrased", JStr paraphrased)]))
     end)
    (fun error =>
       Ret (res_json 500
              (JObj [(lit "error",
                      JStr (lit "An error occurred while paraphrasing the text."))]))).

End Server.

(** ** The five fetch-based handlers, side by side *)

Inductive worker : Type :=
| First    (* paraphrase.js, first handler *)
| Second   (* paraphrase.js, second handler *)
| Third    (* paraphrase.js, third handler *)
| P000     (* part_000 *)
| P001.    (* part_001 *)

(** The handlers whose [callGemini] has the full error handling. *)
Definition full (w : worker) : bool :=
  match w with
  | First | P000 | P001 => true
  | Second | Third => false
  end.

(** The number of calls in the pipeline. *)
Definition stages (w : worker) : nat :=
  match w with
  | First => 5
  | Second | Third | P000 => 4
  | P001 => 6
  end.

Definition result_map {A B} (f : A -> B) (r : exn + A) : exn + B :=
  match r with
  | inl e => inl e
  | inr a => inr (f a)
  end.

Section Workers.
Context `{Engine}.

Definition onRequestPost (w : worker) : Request -> Env -> Handler :=
  match w with
  | First => V1.onRequestPost
  | Second => V2.onRequestPost
  | Third => V3.onRequestPost
  | P000 => Part000.onRequestPost
  | P001 => Part001.onRequestPost
  end.

(** What [callGemini] makes of the outcome of [fetch]: an exception or the
    value it returns. *)
Definition read (w : worker) (r : FetchResult) : exn + json :=
  match w with
  | First | P000 | P001 => result_map JStr (Full.read_reply r)
  | Second => result_map JStr (V2.read_reply r)
  | Third => V3.read_reply r
  end.

(** [tone] as the guards and the prompts see it. *)
Definition effective_tone (w : worker) (body : json) : jsvalue :=
  match w with
  | Second => field (lit "tone") body
  | _ => tone_or_standard (field (lit "tone") body)
  end.

Definition bad_text (w : worker) (text : jsvalue) : bool :=
  match w with
  | Second => V2.invalid_text text
  | _ => invalid_text text
  end.

(** The two guards that answer 400. *)
Definition rejects (w : worker) (body : json) : bool :=
  bad_text w (field (lit "text") body)
  || negb (tone_allowed (effective_tone w body)).

(** The text and the tone the stages work with, when the three guards let
    the request through. *)
Definition accepted (w : worker) (request : Request) (env : Env)
  : option (jsvalue * jsvalue) :=
  match request_json request with
  | None => None
  | Some body =>
      if is_null body then None
      else if rejects w body then None
      else if key_missing env then None
      else Some (field (lit "text") body, effective_tone w body)
  end.

(** The status of the answer to a request that is not let through. *)
Definition refusal_status (w : worker) (request : Request) : Z :=
  match request_json request with
  | None => 500
  | Some body => if is_null body then 500 else if rejects w body then 400 else 500
  end.

(** The request [callGemini] sends for the call number [k] (from 0). *)
Definition request_for (w : worker) (env : Env) (k : nat) (prompt : jsstring)
  : ApiCall :=
  let key := spliced (GEMINI_API_KEY env) in
  let tag := Some (lit "stage-" ++ decimal (Z.of_nat (S k))) in
  match w with
  | First => {| call_stage := tag; call_url := V1.endpoint ++ key; call_prompt := prompt |}
  | Second => {| call_stage := None; call_url := V2.endpoint ++ key; call_prompt := prompt |}
  | Third => {| call_stage := None; call_url := V3.endpoint ++ key; call_prompt := prompt |}
  | P000 => {| call_stage := tag; call_url := Part000.endpoint ++ key; call_prompt := prompt |}
  | P001 => {| call_stage := tag; call_url := Part001.endpoint ++ key; call_prompt := prompt |}
  end.

(** The candidate rewrites read from what the first call returned; [None]
    when the handler throws instead. *)
Definition candidates (w : worker) (v : json) : option (list jsstring) :=
  match v with
  | JStr raw =>
      match w with
      | Second =>
          let lines := V2.lines_of raw in
          let var1 := V2.numbered (lit "1") lines in
          let var2 := V2.numbered (lit "2") lines in
          let var3 := V2.numbered (lit "3") lines in
          if negb (nonempty var1) || negb (nonempty var2) || negb (nonempty var3)
          then None else Some [var1; var2; var3]
      | _ =>
          let variations := variations_of raw in
          if (length variations <? 3)%nat then None else Some variations
      end
  | _ => None
  end.

(** The value of [selected] after the second call returned [v]; the outer
    [None] when the handler throws instead. *)
Definition chosen (w : worker) (cands : list jsstring) (v : json)
  : option (option jsstring) :=
  match v with
  | JStr reply =>
      match w with
      | Second =>
          let selectedNum := parseInt (trim reply) in
          if bool_decide (selectedNum = Some 1%Z) then Some (cands !! 0%nat)
          else if bool_decide (selectedNum = Some 2%Z) then Some (cands !! 1%nat)
          else if bool_decide (selectedNum = Some 3%Z) then Some (cands !! 2%nat)
          else None
      | _ => Some (at_index cands (index_of (trim reply)))
      end
  | _ => None
  end.

Definition prompt1 (w : worker) (text : jsvalue) : jsstring :=
  match w with
  | First => V1.stage1_prompt text
  | Second => V2.stage1Prompt text
  | Third => V3.stage1_prompt text
  | P000 => Part000.stage1_prompt text
  | P001 => Part001.stage1_prompt text
  end.

Definition prompt2 (w : worker) (text : jsvalue) (cands : list jsstring)
  : jsstring :=
  match w with
  | First => V1.stage2_prompt cands
  | Second =>
      V2.selectPrompt text (spliced (cands !! 0%nat)) (spliced (cands !! 1%nat))
        (spliced (cands !! 2%nat))
  | Third => V3.stage2_prompt cands
  | P000 => Part000.stage2_prompt cands
  | P001 => Part001.stage2_prompt cands
  end.

Definition prompt3 (w : worker) (selected : option jsstring) : jsstring :=
  match w with
  | First => V1.stage3_prompt selected
  | Second => V2.stage2Prompt (spliced selected)
  | Third => V3.stage3_prompt selected
  | P000 => Part000.stage3_prompt selected
  | P001 => Part001.stage3_prompt selected
  end.

(** The prompt of the call number [k >= 3] (from 0), built from the tone and
    from what the call before it returned. *)
Definition later_prompt (w : worker) (k : nat) (tone : jsvalue) (v : json)
  : option jsstring :=
  let s := interpolate (Some v) in
  match w, k with
  | First, 3%nat => Some (V1.stage4_prompt tone s)
  | First, 4%nat => Some (V1.stage5_prompt tone s)
  | Second, 3%nat => Some (V2.stage3Prompt tone s)
  | Third, 3%nat => Some (V3.stage4_prompt tone v)
  | P000, 3%nat => Some (Part000.stage4_prompt tone s)
  | P001, 3%nat => Some (Part001.stage4_prompt tone s)
  | P001, 4%nat => Some (Part001.stage5_prompt tone s)
  | P001, 5%nat => Some (Part001.stage6_prompt tone s)
  | _, _ => None
  end.

(** The prompt of the next call, given what the calls so far returned;
    [None] when there is no next call. *)
Definition next_prompt (w : worker) (text tone : jsvalue) (vs : list json)
  : option jsstring :=
  match vs with
  | [] => Some (prompt1 w text)
  | [v1] => prompt2 w text <$> candidates w v1
  | [v1; v2] => cands ← candidates w v1; prompt3 w <$> chosen w cands v2
  | _ => last vs ≫= later_prompt w (length vs) tone
  end.

(** The two ways a pipeline ends. *)
Definition success (w : worker) (final : json) : Response :=
  json_response (JObj [(lit "result", final)]) 200.

Definition failure (w : worker) (err : exn) : Response :=
  match w with
  | First | P000 | P001 =>
      json_response
        (JObj [(lit "error", JStr (lit "Paraphrasing failed"));
               (lit "details", JStr (message err))])
        500
  | Second | Third =>
      json_response (JObj [(lit "error", JStr (lit "Internal server error"))]) 500
  end.

(** The runs of a pipeline, call by call: [vs] holds what the earlier calls
    returned. *)
Inductive pipeline_run (w : worker) (env : Env) (text tone : jsvalue)
  : list json -> list (ApiCall * FetchResult) -> Response -> Prop :=
| run_done vs final :
    length vs = stages w -> last vs = Some final ->
    pipeline_run w env text tone vs [] (success w final)
| run_stuck vs err :
    (length vs < stages w)%nat -> next_prompt w text tone vs = None ->
    pipeline_run w env text tone vs [] (failure w err)
| run_failed vs prompt r err :
    next_prompt w text tone vs = Some prompt ->
    read w r = inl err ->
    pipeline_run w env text tone vs
      [(request_for w env (length vs) prompt, r)] (failure w err)
| run_step vs prompt r v rest resp :
    next_prompt w text tone vs = Some prompt ->
    read w r = inr v ->
    pipeline_run w env text tone (vs ++ [v]) rest resp ->
    pipeline_run w env text tone vs
      ((request_for w env (length vs) prompt, r) :: rest) resp.

(** A body that reports an error and carries no result. *)
Definition error_body (resp : Response) : Prop :=
  exists msg rest,
    body resp = Stringified (JObj ((lit "error", JStr msg) :: rest))
    /\ assoc (lit "result") rest = None.

(** What a run of a handler looks like. *)
Definition handled (w : worker) (request : Request) (env : Env)
    (t : list (ApiCall * FetchResult)) (o : exn + Response) : Prop :=
  exists resp, o = inr resp /\
    match accepted w request env with
    | Some (text, tone) => pipeline_run w env text tone [] t resp
    | None =>
        t = [] /\ headers resp = json_headers /\
        status resp = refusal_status w request /\ error_body resp
    end.

End Workers.

(** ** Reasoning about runs *)

(** [wp p Φ]: whatever the API answers, the calls [p] makes and its outcome
    satisfy [Φ]. *)
Fixpoint wp {Q R A} (p : Prog Q R A) (Φ : list (Q * R) -> exn + A -> Prop)
  : Prop :=
  match p with
  | Ret a => Φ [] (inr a)
  | Throw e => Φ [] (inl e)
  | Call q k => forall r, wp (k r) (fun t => Φ ((q, r) :: t))
  end.

(** ** The Express route, in the same terms *)

(** The text the route sends on, sanitized, when the request passes
    [validateInput]. *)
Definition server_accepted (req : Server.ExpressRequest) : option jsstring :=
  match Server.req_body req with
  | None | Some JNull => None
  | Some b =>
      match field (lit "text") b with
      | Some (JStr s) =>
          match Server.validateInput (Some (JStr s)) with
          | None => Some (trim s)
          | Some _ => None
          end
      | _ => None
      end
  end.

Definition server_call (sanitizedText : jsstring) : Server.SdkCall :=
  {| Server.sdk_model := lit "gemini-2.5-flash-lite";
     Server.sdk_prompt := Server.prompt_of sanitizedText |}.

Definition server_error : Server.ExpressReply :=
  Server.res_json 500
    (JObj [(lit "error",
            JStr (lit "An error occurred while paraphrasing the text."))]).

(** What a run of the route looks like. *)
Definition served (req : Server.ExpressRequest)
    (t : list (Server.SdkCall * Server.SdkResult))
    (o : exn + Server.ExpressReply) : Prop :=
  match server_accepted req with
  | Some s =>
      exists r, t = [(server_call s, r)] /\
        o = inr match r with
                | Server.SdkThrows => server_error
                | Server.SdkText x =>
                    Server.res_json 200 (JObj [(lit "paraphrased", JStr (trim x))])
                end
  | None =>
      t = [] /\
      ((exists msg, o = inr (Server.res_json 400 (JObj [(lit "error", JStr msg)])))
       \/ o = inr server_error)
  end.

(** ** Kinds of failure of a call *)

(** The network is down, the status is not 2xx, or the body is not JSON. *)
Definition transport_failure (r : FetchResult) : Prop :=
  match r with
  | NetworkError => True
  | HttpReply code payload => ok code = false \/ payload = None
  end.

(** A 2xx reply in JSON without text in its first candidate. *)
Definition empty_content (r : FetchResult) : Prop :=
  exists code data,
    r = HttpReply code (Some data) /\ ok code = true
    /\ match Full.reply_text data with
       | None | Some JNull => True
       | Some (JStr s) => trim s = []
       | Some _ => False
       end.

Section Usable.
Context `{Engine}.

(** The replies of the first two calls can be used: candidates are read
    from the first, and the second selects one of them. *)
Definition replies_usable (w : worker) (t : list (ApiCall * FetchResult))
  : Prop :=
  (forall q r v,
     t !! 0%nat = Some (q, r) -> read w r = inr v ->
     is_Some (candidates w v))
  /\ (forall q1 r1 q2 r2 v1 v2 cands,
        t !! 0%nat = Some (q1, r1) -> t !! 1%nat = Some (q2, r2) ->
        read w r1 = inr v1 -> read w r2 = inr v2 ->
        candidates w v1 = Some cands ->
        is_Some (chosen w cands v2)).

End Usable.

(** A request body with the given fields, as the handlers receive it. *)
Definition request_with (fields : list (jsstring * json)) : Request :=
  {| request_json := Some (JObj fields) |}.

Definition standard_tone : jsstring * json :=
  (lit "tone", JStr (lit "standard")).

(** ** Sample requests and API behaviours *)

Definition plain_engine : Engine :=
  {| native_message := fun _ => lit "TypeError";
     ToString := fun _ => lit "undefined";
     JSON_stringify := fun _ => lit "{}" |}.

(** A well-formed Gemini reply whose first candidate holds [s]. *)
Definition gemini_reply (s : string) : FetchResult :=
  HttpReply 200
    (Some (JObj [(lit "candidates",
                  JArr [JObj [(lit "content",
                               JObj [(lit "parts",
                                      JArr [JObj [(lit "text", JStr (lit s))]])])]])])).

(** The API answers the calls of a run with the listed replies, in order,
    and is unreachable afterwards. *)
Definition scripted (replies : list FetchResult) (n : nat) (q : ApiCall)
  : FetchResult :=
  default NetworkError (replies !! n).

Definition sample_env : Env := {| GEMINI_API_KEY := Some (lit "k") |}.

Definition sample_fields : list (jsstring * json) :=
  [(lit "text", JStr (lit "hello"))].

Definition sample_request : Request :=
  request_with (standard_tone :: sample_fields).

(** An API that gives the same reply to every call. *)
Definition always (r : FetchResult) (n : nat) (q : ApiCall) : FetchResult := r.

(** Replies that take the five-stage pipeline to its end. *)
Definition chain_replies : list FetchResult :=
  [gemini_reply "a|||b|||c"; gemini_reply "2"; gemini_reply "refined";
   gemini_reply "toned"; gemini_reply "final"].

(** The same, with a second reply that names no candidate. *)
Definition undecided_replies : list FetchResult :=
  [gemini_reply "a|||b|||c"; gemini_reply "the second one";
   gemini_reply "refined"; gemini_reply "toned"; gemini_reply "final"].

(** Three usable replies, then a 2xx reply without any candidate. *)
Definition hollow_replies : list FetchResult :=
  [gemini_reply "a|||b|||c"; gemini_reply "2"; gemini_reply "refined";
   HttpReply 200 (Some (JObj []))].

Definition empty_text_request : Request :=
  {| request_json := Some (JObj [(lit "text", JStr [])]) |}.

(** The number of separators [sep] in [s], counted as [split] finds them:
    from the left, a match starting only where the one before has ended
    ([skip] counts the code units of a match still to be passed over). *)
Fixpoint separators_from (sep : jsstring) (skip : nat) (s : jsstring) : nat :=
  match s with
  | [] => O
  | _ :: s' =>
      match skip with
      | S k => separators_from sep k s'
      | O =>
          if startsWith sep s
          then S (separators_from sep (Nat.pred (length sep)) s')
          else separators_from sep O s'
      end
  end.

Definition separators (sep s : jsstring) : nat := separators_from sep O s.

(** ** The answers of the guards and of the catch clause *)

(** [json({ error: message }, status)] *)
Definition error_response (message : jsstring) (status : Z) : Response :=
  json_response (JObj [(lit "error", JStr message)]) status.

(** [json({ error: "Paraphrasing failed", details }, 500)], the answer of
    the catch clause in the handlers with full error handling. *)
Definition pipeline_failed (details : jsstring) : Response :=
  json_response
    (JObj [(lit "error", JStr (lit "Paraphrasing failed"));
           (lit "details", JStr details)])
    500.

(** The messages of the three guards. *)
Definition text_error (w : worker) : jsstring :=
  match w with
  | Second =>
      lit "Invalid input: text must be a non-empty string under 2000 characters"
  | _ => lit "Invalid input text"
  end.

Definition tone_error (w : worker) : jsstring :=
  match w with
  | Second =>
      lit "Invalid tone: must be one of standard, simple, professional, academic"
  | _ => lit "Invalid tone"
  end.

Definition key_error (w : worker) : jsstring :=
  match w with
  | First | P000 | P001 =>
      lit "GEMINI_API_KEY is missing in environment variables"
  | Second => lit "Server configuration error"
  | Third => lit "Missing Gemini API key"
  end.

(** The endpoint each handler calls. *)
Definition endpoint_of (w : worker) : jsstring :=
  match w with
  | First => V1.endpoint
  | Second => V2.endpoint
  | Third => V3.endpoint
  | P000 => Part000.endpoint
  | P001 => Part001.endpoint
  end.

(** ** src/public/script.js: the click handler of the page *)
Module Client.

(** What the handler reads and writes of the page: the text of the output
    element, the display style of the loading element, and whether the
    button is disabled. *)
Record Page : Type := {
  output_text : jsstring;
  loading_display : jsstring;
  button_disabled : bool
}.

(** [fetch(url, { method: 'POST', headers: {'Content-Type':
    'application/json'}, body: JSON.stringify(body) })] *)
Record Post : Type := {
  post_url : jsstring;
  post_body : json
}.

Definition with_output (page : Page) (text : jsstring) : Page :=
  {| output_text := text;
     loading_display := loading_display page;
     button_disabled := button_disabled page |}.

Section Handler.
Context `{Engine}.

(** [output.textContent = v]: null and undefined clear the element. *)
Definition textContent (v : jsvalue) : jsstring :=
  match v with
  | None | Some JNull => []
  | Some (JStr s) => s
  | Some _ => ToString v
  end.

(** The listener on the button, given the value of the input element. *)
Definition onClick (value : jsstring) (page : Page)
  : Prog Post FetchResult Page :=
  let input := trim value in
  if negb (nonempty input)
  then Ret (with_output page (lit "Please enter some text to paraphrase."))
  else
    let shown :=
      {| output_text := [];
         loading_display := lit "block";
         button_disabled := true |} in
    settled ←
      try_catch
        (Call {| post_url := lit "/paraphrase";
                 post_body := JObj [(lit "text", JStr input)] |}
           (fun response =>
              match response with
              | NetworkError => Throw (Native FetchRejected)
              | HttpReply code None => Throw (Native ReplyNotJson)
              | HttpReply code (Some data) =>
                  if ok code
                  then
                    paraphrased ← member (lit "paraphrased") data;
                    Ret (with_output shown (textContent paraphrased))
                  else
                    error ← member (lit "error") data;
                    Ret (with_output shown (lit "Error: " ++ interpolate error))
              end))
        (fun error =>
           Ret (with_output shown (lit "An error occurred. Please try again.")));
    (* finally *)
    Ret {| output_text := output_text settled;
           loading_display := lit "none";
           button_disabled := false |}.

End Handler.
End Client.

(** The page against the Express route: a post of the page reaches the
    route with its body as [req.body] (the rate limiter lets it through), and
    the page gets back the status and the document the route passed to
    [res.json]. The route answers in no other way. *)
Definition through_route (sdk : nat -> Server.SdkCall -> Server.SdkResult)
    (n : nat) (post : Client.Post) : FetchResult :=
  match (run sdk 0
           (Server.paraphrase {| Server.req_body := Some (Client.post_body post) |})).1
  with
  | inr (Server.res_json code data) => HttpReply code (Some data)
  | _ => NetworkError
  end.

(** Replies that take the second handler of paraphrase.js to its end: a
    numbered list, then a selection that goes on after the number. *)
Definition numbered_replies : list FetchResult :=
  [gemini_reply "1. a
2. b
3. c"; gemini_reply "2) the second"; gemini_reply "refined";
   gemini_reply "toned"].

(** A first reply with two candidates only. *)
Definition short_replies : list FetchResult := [gemini_reply "a|||b"].

(** The same with a fourth bar: still one separator for [split]. *)
Definition four_bar_replies : list FetchResult := [gemini_reply "a||||b"].

(** A request whose tone is the empty string. *)
Definition empty_tone_fields : list (jsstring * json) :=
  (lit "tone", JStr []) :: sample_fields.

(** An SDK that answers every call with the same text. *)
Definition sdk_says (s : string) (n : nat) (q : Server.SdkCall)
  : Server.SdkResult :=
  Server.SdkText (lit s).

(** A server that answers every post of the page with the same reply. *)
Definition answers (r : FetchResult) (n : nat) (post : Client.Post)
  : FetchResult := r.

Definition limit_reply : FetchResult :=
  HttpReply 429 (Some (JObj [(lit "error", JStr (lit "slow down"))])).

Definition sample_page : Client.Page :=
  {| Client.output_text := lit "before";
     Client.loading_display := lit "none";
     Client.button_disabled := false |}.

(** The sample request with another tone. *)
Definition academic_request : Request :=
  request_with ((lit "tone", JStr (lit "academic")) :: sample_fields).

(** * Properties *)

(** ** The rules of [wp] *)

Lemma wp_run {Q R A} (p : Prog Q R A) Φ :
  wp p Φ -> forall api n, Φ (run api n p).2 (run api n p).1.
Proof.
  revert Φ. induction p as [a|e|q k IH]; intros Φ Hwp api n; simpl in *;
    [exact Hwp | exact Hwp | ].
  specialize (IH _ _ (Hwp (api n q)) api (S n)).
  destruct (run api (S n) (k (api n q))) as [o t]. exact IH.
Qed.

Lemma wp_bind {Q R A B} (p : Prog Q R A) (f : A -> Prog Q R B) Φ :
  wp p (fun t o =>
          match o with
          | inl e => Φ t (inl e)
          | inr a => wp (f a) (fun t' => Φ (t ++ t'))
          end) ->
  wp (p ≫= f) Φ.
Proof.
  unfold mbind, Prog_bind.
  revert Φ. induction p as [a|e|q k IH]; intros Φ Hwp; simpl in *;
    [exact Hwp | exact Hwp | intros r; apply IH; apply Hwp].
Qed.

Lemma wp_try_catch {Q R A} (p : Prog Q R A) (h : exn -> Prog Q R A) Φ :
  wp p (fun t o =>
          match o with
          | inl e => wp (h e) (fun t' => Φ (t ++ t'))
          | inr a => Φ t (inr a)
          end) ->
  wp (try_catch p h) Φ.
Proof.
  revert Φ. induction p as [a|e|q k IH]; intros Φ Hwp; simpl in *;
    [exact Hwp | exact Hwp | intros r; apply IH; apply Hwp].
Qed.

Lemma wp_lift {Q R A} (x : exn + A) (Φ : list (Q * R) -> exn + A -> Prop) :
  Φ [] x -> wp (lift x) Φ.
Proof. destruct x; simpl; auto. Qed.

(** ** Every handler against the shape of its runs *)

Lemma wp_await_json {Q R} (request : Request) (Φ : list (Q * R) -> exn + json -> Prop) :
  (forall body, request_json request = Some body -> Φ [] (inr body)) ->
  (request_json request = None -> Φ [] (inl (Native BodyNotJson))) ->
  wp (await_json request) Φ.
Proof. unfold await_json. destruct (request_json request); simpl; auto. Qed.

Lemma wp_full_call `{Engine} endpoint env prompt stage
    (Φ : list (ApiCall * FetchResult) -> exn + jsstring -> Prop) :
  (forall r, Φ [({| call_stage := Some stage;
                   call_url := endpoint ++ spliced (GEMINI_API_KEY env);
                   call_prompt := prompt |}, r)] (Full.read_reply r)) ->
  wp (Full.callGemini endpoint env prompt stage) Φ.
Proof. intros HΦ r. simpl. apply wp_lift. apply HΦ. Qed.

Lemma wp_ret {Q R A} (a : A) (Φ : list (Q * R) -> exn + A -> Prop) :
  Φ [] (inr a) -> wp (Ret a) Φ.
Proof. exact id. Qed.

Lemma wp_throw {Q R A} e (Φ : list (Q * R) -> exn + A -> Prop) :
  Φ [] (inl e) -> wp (Throw e) Φ.
Proof. exact id. Qed.

Lemma wp_v3_call `{Engine} env prompt
    (Φ : list (ApiCall * FetchResult) -> exn + json -> Prop) :
  (forall r, Φ [({| call_stage := None;
                   call_url := V3.endpoint ++ spliced (GEMINI_API_KEY env);
                   call_prompt := prompt |}, r)] (V3.read_reply r)) ->
  wp (V3.callGemini env prompt) Φ.
Proof. intros HΦ r. simpl. apply wp_lift. apply HΦ. Qed.

Lemma wp_v2_call `{Engine} apiKey prompt
    (Φ : list (ApiCall * FetchResult) -> exn + jsstring -> Prop) :
  (forall r, Φ [({| call_stage := None;
                   call_url := V2.endpoint ++ spliced apiKey;
                   call_prompt := prompt |}, r)] (V2.read_reply r)) ->
  wp (V2.callGemini apiKey prompt) Φ.
Proof. intros HΦ r. simpl. apply wp_lift. apply HΦ. Qed.

(** One step through a handler: a bind, a guard, a call. *)
Ltac step :=
  match goal with
  | |- wp (try_catch _ _) _ => apply wp_try_catch
  | |- wp (_ ≫= _) _ => apply wp_bind
  | |- wp (await_json _) _ => apply wp_await_json; [intros ? ? | intros ?]
  | |- wp (member _ _) _ => unfold member
  | |- wp (Full.callGemini _ _ _ _) _ =>
      apply wp_full_call;
      let r := fresh "r" in let e := fresh "e" in let out := fresh "out" in
      let E := fresh "E" in
      intros r; destruct (Full.read_reply r) as [e|out] eqn:E; cbv beta iota
  | |- wp (V3.callGemini _ _) _ =>
      apply wp_v3_call;
      let r := fresh "r" in let e := fresh "e" in let out := fresh "out" in
      let E := fresh "E" in
      intros r; destruct (V3.read_reply r) as [e|out] eqn:E; cbv beta iota
  | |- wp (V2.callGemini _ _) _ =>
      apply wp_v2_call;
      let r := fresh "r" in let e := fresh "e" in let out := fresh "out" in
      let E := fresh "E" in
      intros r; destruct (V2.read_reply r) as [e|out] eqn:E; cbv beta iota
  | |- wp (V3.string_method ?v) _ => destruct v; cbn [V3.string_method]
  | |- wp (if ?c then _ else _) _ => let E := fresh "E" in destruct c eqn:E
  | |- wp (Ret _) _ => apply wp_ret; cbv beta iota
  | |- wp (Throw _) _ => apply wp_throw; cbv beta iota
  | |- wp (let x := _ in _) _ => cbv zeta
  end.

(** Rewrites with the case equations in the context. *)
Ltac use_eqs :=
  repeat match goal with
         | E : ?c = _ |- context [?c] => rewrite E
         end.

(** The constructors of [pipeline_run], with the request and the response
    up to an equation. *)
Section Constructors.
Context `{Engine}.
Variables (w : worker) (env : Env) (text tone : jsvalue).

Lemma run_done' vs final resp :
  length vs = stages w -> last vs = Some final -> resp = success w final ->
  pipeline_run w env text tone vs [] resp.
Proof. intros ? ? ->. by constructor. Qed.

Lemma run_stuck' vs err resp :
  (length vs < stages w)%nat -> next_prompt w text tone vs = None ->
  resp = failure w err ->
  pipeline_run w env text tone vs [] resp.
Proof. intros ? ? ->. by constructor. Qed.

Lemma run_failed' vs prompt c r err resp :
  next_prompt w text tone vs = Some prompt ->
  read w r = inl err ->
  c = request_for w env (length vs) prompt ->
  resp = failure w err ->
  pipeline_run w env text tone vs [(c, r)] resp.
Proof. intros ? ? -> ->. by constructor. Qed.

Lemma run_step' vs prompt c r v rest resp :
  next_prompt w text tone vs = Some prompt ->
  read w r = inr v ->
  c = request_for w env (length vs) prompt ->
  pipeline_run w env text tone (vs ++ [v]) rest resp ->
  pipeline_run w env text tone vs ((c, r) :: rest) resp.
Proof. intros ? ? -> ?. by econstructor. Qed.
End Constructors.

(** Builds the [pipeline_run] derivation of one path through a handler. *)
Ltac solve_next :=
  solve [unfold next_prompt, candidates, chosen;
         cbn [fmap option_fmap option_map mbind option_bind last length];
         cbv beta iota zeta; use_eqs; reflexivity].
Ltac solve_read := solve [unfold read; use_eqs; reflexivity].
Ltac solve_run :=
  first
    [ eapply run_step'; [solve_next | solve_read | reflexivity | cbn [app]; solve_run]
    | eapply run_failed'; [solve_next | solve_read | reflexivity | reflexivity]
    | eapply run_done'; [reflexivity | reflexivity | reflexivity]
    | eapply run_stuck'; [cbn [length stages]; lia | solve_next | reflexivity] ].

Ltac leaf :=
  eexists; split; [reflexivity|];
  unfold accepted, refusal_status, rejects, bad_text, effective_tone,
    key_missing in *;
  repeat (progress (cbv beta iota zeta; use_eqs; cbn [orb andb]));
  first
    [ split; [reflexivity|]; split; [reflexivity|]; split; [reflexivity|];
      eexists; eexists; split; reflexivity
    | cbn [app]; solve_run ].


(** Every run of every handler has the shape [handled] describes. *)
Section Master.
Context `{Engine}.

Lemma handler_runs w request env :
  wp (onRequestPost w request env) (handled w request env).
Proof.
  destruct w; unfold onRequestPost, handled.
  - unfold V1.onRequestPost, V1.pipeline, V1.callGemini. repeat step. all: leaf.
  - unfold V2.onRequestPost, V2.pipeline. repeat step. all: leaf.
  - unfold V3.onRequestPost, V3.pipeline. repeat step. all: leaf.
  - unfold Part000.onRequestPost, Part000.pipeline, Part000.callGemini. repeat step. all: leaf.
  - unfold Part001.onRequestPost, Part001.pipeline, Part001.callGemini. repeat step. all: leaf.
  Unshelve. all: exact (Error []).
Qed.
End Master.

(** ** What follows from the shape of a run *)

Section Shape.
Context `{Engine}.

Lemma handled_run api w request env :
  handled w request env
    (run api 0 (onRequestPost w request env)).2
    (run api 0 (onRequestPost w request env)).1.
Proof. apply wp_run, handler_runs. Qed.

Lemma next_prompt_long w text tone v1 v2 v3 vs :
  next_prompt w text tone (v1 :: v2 :: v3 :: vs) =
  last (v1 :: v2 :: v3 :: vs) ≫= later_prompt w (length (v1 :: v2 :: v3 :: vs)) tone.
Proof. reflexivity. Qed.

Lemma later_prompt_lt w k tone v p :
  later_prompt w k tone v = Some p -> (3 <= k < stages w)%nat.
Proof.
  unfold later_prompt.
  intros Hp; destruct w;
    do 6 (try (destruct k as [|k]; simpl in Hp; try discriminate Hp));
    simpl; lia.
Qed.

Lemma next_prompt_lt w text tone vs p :
  next_prompt w text tone vs = Some p -> (length vs < stages w)%nat.
Proof.
  destruct vs as [|v1 [|v2 [|v3 vs]]].
  - destruct w; simpl; lia.
  - destruct w; simpl; lia.
  - destruct w; simpl; lia.
  - rewrite next_prompt_long. intros Hp.
    destruct (last (v1 :: v2 :: v3 :: vs)) as [v|]; [|discriminate].
    apply later_prompt_lt in Hp. lia.
Qed.

Variables (w : worker) (env : Env) (text tone : jsvalue).

Lemma pipeline_run_nil vs resp :
  pipeline_run w env text tone vs [] resp ->
  (length vs = stages w /\ exists final, last vs = Some final /\ resp = success w final)
  \/ ((length vs < stages w)%nat /\ next_prompt w text tone vs = None
      /\ exists err, resp = failure w err).
Proof. inversion 1; subst; eauto 10. Qed.

Lemma pipeline_run_cons vs q r rest resp :
  pipeline_run w env text tone vs ((q, r) :: rest) resp ->
  next_prompt w text tone vs = Some (call_prompt q)
  /\ q = request_for w env (length vs) (call_prompt q)
  /\ ((exists err, read w r = inl err /\ rest = [] /\ resp = failure w err)
      \/ (exists v, read w r = inr v
                    /\ pipeline_run w env text tone (vs ++ [v]) rest resp)).
Proof.
  assert (Hp : forall k p, call_prompt (request_for w env k p) = p)
    by (intros; destruct w; reflexivity).
  inversion 1; subst; rewrite Hp; eauto 10.
Qed.

Lemma pipeline_run_json vs t resp :
  pipeline_run w env text tone vs t resp ->
  headers resp = json_headers /\ exists data, body resp = Stringified data.
Proof.
  induction 1; try assumption; unfold success, failure;
    destruct w; simpl; eauto.
Qed.

Lemma pipeline_run_length vs t resp :
  pipeline_run w env text tone vs t resp ->
  (length vs + length t <= stages w)%nat.
Proof.
  induction 1 as [| |vs p r e Hp _|vs p r v rest resp Hp _ _ IH]; simpl.
  - lia.
  - lia.
  - apply next_prompt_lt in Hp. lia.
  - rewrite length_app in IH. simpl in IH. lia.
Qed.

Lemma status_failure err : status (failure w err) = 500%Z.
Proof. destruct w; reflexivity. Qed.

(** A call that fails is the last one, and the answer is the failure
    response. *)
Lemma pipeline_run_failure vs t resp k q r err :
  pipeline_run w env text tone vs t resp ->
  t !! k = Some (q, r) -> read w r = inl err ->
  length t = S k /\ resp = failure w err.
Proof.
  intros Hrun. revert k.
  induction Hrun as [| |vs p r0 e Hp Hr|vs p r0 v rest resp Hp Hr _ IH];
    intros k Hk Herr.
  - destruct k; discriminate Hk.
  - destruct k; discriminate Hk.
  - destruct k as [|k]; [|destruct k; discriminate Hk]. simpl in Hk.
    simplify_eq. split; [reflexivity | congruence].
  - destruct k as [|k]; simpl in Hk.
    + simplify_eq. congruence.
    + destruct (IH _ Hk Herr) as [Hlen ->]. simpl. auto.
Qed.

(** A run answers 200 only after every call of the pipeline has succeeded,
    and then with what the last call returned. *)
Lemma pipeline_run_200 vs t resp :
  pipeline_run w env text tone vs t resp ->
  status resp = 200%Z ->
  (length vs + length t = stages w)%nat
  /\ Forall (fun c => exists v, read w c.2 = inr v) t
  /\ exists final, resp = success w final
     /\ match last t with
        | Some (q, r) => read w r = inr final
        | None => last vs = Some final
        end.
Proof.
  induction 1 as [vs final Hlen Hlast|vs e|vs p r e Hp Hr
                 |vs p r v rest resp Hp Hr Hrun IH]; intros Hst.
  - simpl. split; [lia|]. split; [constructor|]. eauto.
  - rewrite status_failure in Hst. discriminate.
  - rewrite status_failure in Hst. discriminate.
  - destruct (IH Hst) as (Hlen & Hall & final & -> & Hfin).
    rewrite length_app in Hlen. cbn [length] in *.
    split; [lia|]. split; [constructor; eauto|].
    exists final. split; [reflexivity|].
    destruct rest as [|c rest].
    + cbn [last] in *. rewrite last_snoc in Hfin. congruence.
    + rewrite last_cons_cons.
      destruct (last (c :: rest)) as [[q' r']|] eqn:E; [exact Hfin|].
      apply last_None in E. discriminate.
Qed.

(** The prompt of every call is the one the pipeline prescribes after what
    the calls before it returned, and the call is the one [callGemini]
    makes at that position. *)
Lemma pipeline_run_lookup vs t resp k q r :
  pipeline_run w env text tone vs t resp ->
  t !! k = Some (q, r) ->
  exists vs',
    Forall2 (fun c v => read w c.2 = inr v) (take k t) vs'
    /\ next_prompt w text tone (vs ++ vs') = Some (call_prompt q)
    /\ q = request_for w env (length vs + k) (call_prompt q).
Proof.
  intros Hrun. revert k.
  induction Hrun as [| |vs p r0 e Hp Hr|vs p r0 v rest resp Hp Hr Hrun IH];
    intros k Hk.
  - destruct k; discriminate Hk.
  - destruct k; discriminate Hk.
  - destruct k as [|k]; [|destruct k; discriminate Hk].
    cbn in Hk. simplify_eq. exists []. rewrite app_nil_r, Nat.add_0_r.
    destruct w; cbn; auto using Forall2_nil.
  - destruct k as [|k]; cbn in Hk.
    + simplify_eq. exists []. rewrite app_nil_r, Nat.add_0_r.
      destruct w; cbn; auto using Forall2_nil.
    + destruct (IH _ Hk) as (vs' & Hall & Hnext & Hq).
      exists (v :: vs'). rewrite <- app_assoc in Hnext.
      rewrite length_app in Hq. cbn [length] in Hq.
      replace (length vs + 1 + k)%nat with (length vs + S k)%nat in Hq by lia.
      cbn [take]. auto using Forall2_cons.
Qed.

(** When every call made has succeeded, the run either ran through all
    stages or stopped because a reply could not be used. *)
Lemma pipeline_run_end vs t resp :
  pipeline_run w env text tone vs t resp ->
  Forall (fun c => exists v, read w c.2 = inr v) t ->
  exists vs',
    Forall2 (fun c v => read w c.2 = inr v) t vs'
    /\ ((length (vs ++ vs') = stages w /\ status resp = 200%Z)
        \/ ((length (vs ++ vs') < stages w)%nat
            /\ next_prompt w text tone (vs ++ vs') = None
            /\ status resp = 500%Z)).
Proof.
  induction 1 as [vs final Hlen Hlast|vs e Hlen Hnone|vs p r e Hp Hr
                 |vs p r v rest resp Hp Hr Hrun IH]; intros Hall.
  - exists []. rewrite app_nil_r. auto using Forall2_nil.
  - exists []. rewrite app_nil_r, status_failure. auto 6 using Forall2_nil.
  - apply Forall_cons in Hall as [[v Hv] _]. cbn in Hv. congruence.
  - apply Forall_cons in Hall as [_ Hall].
    destruct (IH Hall) as (vs' & H2 & Hend).
    exists (v :: vs'). rewrite <- app_assoc in Hend.
    split; [constructor; assumption|exact Hend].
Qed.

End Shape.

(** ** The Express route *)

Lemma route_runs req : wp (Server.paraphrase req) (served req).
Proof.
  unfold Server.paraphrase, served, server_accepted.
  apply wp_try_catch, wp_bind.
  destruct (Server.req_body req) as [b|]; [|cbn; eauto].
  destruct b as [ | b | x | s | items | fields ].
  all: cbn [wp app field]; eauto.
  all: try match goal with
           | |- context [assoc ?k ?fs] =>
               destruct (assoc k fs) as [ [ | b | x | s | items | fields2 ] | ]
           end.
  all: try solve [cbn; eauto].
  all: unfold Server.validateInput; destruct (nonempty s); cbn [negb]; eauto;
    destruct (length (trim s) <? 10)%nat; cbn [wp app]; eauto.
  all: apply wp_bind; cbn [Server.trim_method wp app]; apply wp_bind.
  all: unfold Server.generateContent; intros r; destruct r; cbn [wp app];
    eexists; split; reflexivity.
Qed.

Lemma served_run api req :
  served req (run api 0 (Server.paraphrase req)).2
             (run api 0 (Server.paraphrase req)).1.
Proof. apply wp_run, route_runs. Qed.

(** ** Responses and validation *)

Section Responses.
Context `{Engine}.

Lemma pipeline_run_status w env text tone vs t resp :
  pipeline_run w env text tone vs t resp ->
  status resp = 200%Z \/ status resp = 500%Z.
Proof.
  induction 1; auto; rewrite ?status_failure; auto.
Qed.

Lemma accepted_key w request env x :
  accepted w request env = Some x -> key_missing env = false.
Proof.
  unfold accepted. destruct (request_json request) as [b|]; [|discriminate].
  destruct (is_null b); [discriminate|].
  destruct (rejects w b); [discriminate|].
  destruct (key_missing env); [discriminate|reflexivity].
Qed.

Lemma refusal_status_cases w request :
  refusal_status w request = 400%Z \/ refusal_status w request = 500%Z.
Proof.
  unfold refusal_status. destruct (request_json request) as [b|]; auto.
  destruct (is_null b); auto. destruct (rejects w b); auto.
Qed.

(** C8: every response of every handler, whatever the request, the
    environment and the API do, is a JSON document (the output of
    JSON.stringify) under the header Content-Type: application/json; the
    Express route answers every request through res.json. *)
Theorem C8_every_response_is_json :
  (forall api w request env,
     exists resp,
       (run api 0 (onRequestPost w request env)).1 = inr resp
       /\ (lit "Content-Type", lit "application/json") ∈ headers resp
       /\ exists data, body resp = Stringified data)
  /\ (forall api req,
        exists code data,
          (run api 0 (Server.paraphrase req)).1 = inr (Server.res_json code data)).
Proof.
  split.
  - intros api w request env.
    destruct (handled_run api w request env) as (resp & Ho & Hshape).
    exists resp. split; [exact Ho|].
    destruct (accepted w request env) as [[text tone]|].
    + destruct (pipeline_run_json _ _ _ _ _ _ _ Hshape) as [-> Hbody].
      split; [apply list_elem_of_here|exact Hbody].
    + destruct Hshape as (_ & -> & _ & msg & rest & -> & _).
      split; [apply list_elem_of_here|eauto].
  - intros api req. pose proof (served_run api req) as Hs. unfold served in Hs.
    destruct (server_accepted req) as [s|].
    + destruct Hs as (r & _ & ->). destruct r; unfold server_error; eauto.
    + destruct Hs as (_ & [[msg ->] | ->]); unfold server_error; eauto.
Qed.

(** C9: a handler that answers 400, or that runs without GEMINI_API_KEY,
    has made no call to the API. *)
Theorem C9_validation_precedes_calls :
  (forall api w request env resp,
     (run api 0 (onRequestPost w request env)).1 = inr resp ->
     status resp = 400%Z \/ key_missing env = true ->
     (run api 0 (onRequestPost w request env)).2 = [])
  /\ (forall api req data,
        (run api 0 (Server.paraphrase req)).1 = inr (Server.res_json 400 data) ->
        (run api 0 (Server.paraphrase req)).2 = []).
Proof.
  split.
  - intros api w request env resp Ho Hcase.
    destruct (handled_run api w request env) as (resp' & Ho' & Hshape).
    rewrite Ho in Ho'. injection Ho' as <-.
    destruct (accepted w request env) as [[text tone]|] eqn:Hacc.
    + exfalso. destruct Hcase as [H400 | Hkey].
      * destruct (pipeline_run_status _ _ _ _ _ _ _ Hshape); congruence.
      * apply accepted_key in Hacc. congruence.
    + apply Hshape.
  - intros api req data Ho. pose proof (served_run api req) as Hs.
    unfold served in Hs. destruct (server_accepted req) as [s|].
    + destruct Hs as (r & _ & Ho'). rewrite Ho in Ho'.
      destruct r; discriminate Ho'.
    + apply Hs.
Qed.

End Responses.

(** ** Failing calls *)

Section Failures.
Context `{Engine}.

Lemma transport_failure_read w r :
  transport_failure r -> exists err, read w r = inl err.
Proof.
  destruct r as [|code [data|]]; cbn.
  - intros _. destruct w; cbn; eauto.
  - intros [Hok|?]; [|discriminate].
    destruct w; cbn; rewrite Hok; cbn;
      repeat match goal with |- context [if ?c then _ else _] => destruct c end;
      cbn; eauto.
  - intros _. destruct w; cbn; eauto. destruct (ok code); cbn; eauto.
Qed.

Lemma empty_content_read w r :
  full w = true -> empty_content r -> exists err, read w r = inl err.
Proof.
  intros Hw (code & data & -> & Hok & Hempty).
  assert (exists err, Full.read_reply (HttpReply code (Some data)) = inl err)
    as [err Herr].
  { cbn. rewrite Hok. cbn.
    destruct (Full.reply_text data) as [[ | b | x | s | items | fields]|];
      try contradiction; eauto.
    rewrite Hempty. cbn. eauto. }
  destruct w; try discriminate Hw; unfold read; rewrite Herr; cbn; eauto.
Qed.

Lemma handled_lookup api w request env k q r :
  (run api 0 (onRequestPost w request env)).2 !! k = Some (q, r) ->
  exists text tone resp,
    accepted w request env = Some (text, tone)
    /\ (run api 0 (onRequestPost w request env)).1 = inr resp
    /\ pipeline_run w env text tone []
         (run api 0 (onRequestPost w request env)).2 resp.
Proof.
  intros Hk.
  destruct (handled_run api w request env) as (resp & Ho & Hshape).
  destruct (accepted w request env) as [[text tone]|].
  - eauto 6.
  - destruct Hshape as [Hnil _]. rewrite Hnil in Hk. discriminate Hk.
Qed.

Lemma stage_tag_inj i j :
  (i < 6)%nat -> (j < 6)%nat ->
  lit "stage-" ++ decimal (Z.of_nat (S i)) = lit "stage-" ++ decimal (Z.of_nat (S j)) ->
  i = j.
Proof.
  intros Hi Hj Heq.
  destruct i as [|[|[|[|[|[|i]]]]]]; try lia;
    destruct j as [|[|[|[|[|[|j]]]]]]; try lia;
    first [reflexivity | (vm_compute in Heq; discriminate Heq)].
Qed.

Lemma stages_le w : (stages w <= 6)%nat.
Proof. destruct w; cbn; lia. Qed.

Lemma call_stage_full w env k p :
  full w = true ->
  call_stage (request_for w env k p)
  = Some (lit "stage-" ++ decimal (Z.of_nat (S k))).
Proof. destruct w; try discriminate; reflexivity. Qed.

(** A run makes at most as many calls as the pipeline has stages. *)
Lemma run_length api w request env :
  (length (run api 0 (onRequestPost w request env)).2 <= stages w)%nat.
Proof.
  destruct (handled_run api w request env) as (resp & _ & Hshape).
  destruct (accepted w request env) as [[text tone]|].
  - apply pipeline_run_length in Hshape. cbn in Hshape. lia.
  - destruct Hshape as [-> _]. cbn. lia.
Qed.

(** C6: a run makes at most as many calls as the pipeline has stages, no
    two calls of a run belong to the same stage, and a call that fails
    (network error, status outside 2xx, body that is not JSON, and in the
    handlers with full error handling a reply without text) is the last
    call of the run, which answers 500. *)
Theorem C6_no_retry :
  forall api w request env,
    let t := (run api 0 (onRequestPost w request env)).2 in
    let o := (run api 0 (onRequestPost w request env)).1 in
    (length t <= stages w)%nat
    /\ (forall i j qi ri qj rj,
          full w = true ->
          t !! i = Some (qi, ri) -> t !! j = Some (qj, rj) ->
          call_stage qi = call_stage qj -> i = j)
    /\ (forall k q r,
          t !! k = Some (q, r) ->
          transport_failure r \/ (full w = true /\ empty_content r)
          \/ (exists err, read w r = inl err) ->
          length t = S k /\ exists resp, o = inr resp /\ status resp = 500%Z).
Proof.
  intros api w request env t o.
  pose proof (run_length api w request env) as Hlen. fold t in Hlen.
  split; [exact Hlen|]. split.
  - intros i j qi ri qj rj Hw Hi Hj Htag.
    destruct (handled_lookup _ _ _ _ _ _ _ Hi) as (text & tone & resp' & _ & _ & Hrun).
    fold t in Hrun.
    destruct (pipeline_run_lookup _ _ _ _ _ _ _ _ _ _ Hrun Hi) as (_ & _ & _ & Hqi).
    destruct (pipeline_run_lookup _ _ _ _ _ _ _ _ _ _ Hrun Hj) as (_ & _ & _ & Hqj).
    rewrite Hqi, Hqj, !call_stage_full in Htag by assumption.
    injection Htag as Htag. cbn [length Nat.add] in Htag.
    pose proof (stages_le w).
    apply lookup_lt_Some in Hi. apply lookup_lt_Some in Hj.
    apply stage_tag_inj; [lia | lia | congruence].
  - intros k q r Hk Hfail.
    assert (exists err, read w r = inl err) as [err Herr].
    { destruct Hfail as [Ht | [[Hw He] | Hr]];
        eauto using transport_failure_read, empty_content_read. }
    destruct (handled_lookup _ _ _ _ _ _ _ Hk)
      as (text & tone & resp' & _ & Ho' & Hrun).
    fold t in Hrun. fold o in Ho'.
    destruct (pipeline_run_failure _ _ _ _ _ _ _ _ _ _ _ Hrun Hk Herr) as [Hl ->].
    split; [exact Hl|]. exists (failure w err). split; [exact Ho'|].
    apply status_failure.
Qed.

End Failures.

(** ** Candidates and selection *)

Section Selection.
Context `{Engine}.

Lemma index_of_range choice :
  index_of choice = Some 0%Z \/ index_of choice = Some 1%Z
  \/ index_of choice = Some 2%Z.
Proof.
  unfold index_of, includes. case_bool_decide as Hin; [|auto].
  repeat (apply elem_of_cons in Hin as [->|Hin]); [vm_compute; auto ..|].
  apply elem_of_nil in Hin. contradiction.
Qed.

Lemma index_of_fallback choice :
  choice ∉ [lit "1"; lit "2"; lit "3"] -> index_of choice = Some 0%Z.
Proof.
  intros Hout. unfold index_of, includes. case_bool_decide as Hin; [|reflexivity].
  contradiction.
Qed.

Lemma at_index_range {A} (l : list A) i :
  (3 <= length l)%nat ->
  i = Some 0%Z \/ i = Some 1%Z \/ i = Some 2%Z ->
  exists c, at_index l i = Some c /\ c ∈ l.
Proof.
  intros Hlen Hi.
  destruct l as [|a [|b [|c l]]]; cbn in Hlen; try lia.
  destruct Hi as [-> | [-> | ->]]; cbn; eexists; (split; [reflexivity|]);
    auto using list_elem_of_here, list_elem_of_further.
Qed.

Lemma candidates_spec w v cands :
  candidates w v = Some cands ->
  exists raw, v = JStr raw /\ (3 <= length cands)%nat
              /\ (w <> Second -> cands = variations_of raw).
Proof.
  unfold candidates. destruct v as [ | b | x | raw | items | fields ];
    try discriminate.
  intros Hc. exists raw. split; [reflexivity|].
  destruct w; try (destruct (length (variations_of raw) <? 3)%nat eqn:E;
                   [discriminate|]; injection Hc as <-;
                   apply Nat.ltb_ge in E; auto).
  cbv zeta in Hc.
  destruct (negb _ || negb _ || negb _); [discriminate|].
  injection Hc as <-. cbn. split; [lia|]. congruence.
Qed.

Lemma chosen_spec w cands v sel :
  (3 <= length cands)%nat ->
  chosen w cands v = Some sel ->
  exists reply c, v = JStr reply /\ sel = Some c /\ c ∈ cands
    /\ (w <> Second -> at_index cands (index_of (trim reply)) = Some c).
Proof.
  intros Hlen. unfold chosen.
  destruct v as [ | b | x | reply | items | fields ]; try discriminate.
  intros Hc. exists reply.
  destruct (at_index_range cands (index_of (trim reply)) Hlen
              (index_of_range _)) as (c & Hc' & Hin).
  destruct w.
  2: { cbv zeta in Hc.
       destruct cands as [|a1 [|a2 [|a3 l]]]; cbn in Hlen; try lia.
       repeat case_bool_decide; cbn in Hc; try discriminate Hc;
         injection Hc as <-; eexists; (split; [reflexivity|]);
         (split; [reflexivity|]);
         (split; [auto using list_elem_of_here, list_elem_of_further
                 |congruence]). }
  all: injection Hc as <-; exists c; auto.
Qed.

Variables (w : worker) (env : Env) (text tone : jsvalue).

Lemma run_first t resp q1 r1 :
  pipeline_run w env text tone [] t resp ->
  t !! 0%nat = Some (q1, r1) ->
  call_prompt q1 = prompt1 w text.
Proof.
  intros Hrun Hk.
  destruct (pipeline_run_lookup _ _ _ _ _ _ _ _ _ _ Hrun Hk) as (vs' & Hall & Hp & _).
  cbn in Hall. apply Forall2_nil_inv_l in Hall as ->. cbn in Hp. congruence.
Qed.

Lemma run_second t resp q2 r2 :
  pipeline_run w env text tone [] t resp ->
  t !! 1%nat = Some (q2, r2) ->
  exists q1 r1 v1 cands,
    t !! 0%nat = Some (q1, r1) /\ read w r1 = inr v1
    /\ candidates w v1 = Some cands
    /\ call_prompt q2 = prompt2 w text cands.
Proof.
  intros Hrun Hk.
  destruct (pipeline_run_lookup _ _ _ _ _ _ _ _ _ _ Hrun Hk) as (vs' & Hall & Hp & _).
  destruct t as [|[q1 r1] t']; [discriminate Hk|].
  cbn in Hall. apply Forall2_cons_inv_l in Hall as (v1 & vs'' & Hv1 & Hnil & ->).
  apply Forall2_nil_inv_l in Hnil as ->. cbn in Hp, Hv1.
  destruct (candidates w v1) as [cands|] eqn:Hc; [|discriminate Hp].
  cbn in Hp. exists q1, r1, v1, cands. repeat split; congruence.
Qed.

Lemma run_third t resp q3 r3 :
  pipeline_run w env text tone [] t resp ->
  t !! 2%nat = Some (q3, r3) ->
  exists q1 r1 q2 r2 v1 v2 cands sel,
    t !! 0%nat = Some (q1, r1) /\ t !! 1%nat = Some (q2, r2)
    /\ read w r1 = inr v1 /\ read w r2 = inr v2
    /\ candidates w v1 = Some cands /\ chosen w cands v2 = Some sel
    /\ call_prompt q3 = prompt3 w sel.
Proof.
  intros Hrun Hk.
  destruct (pipeline_run_lookup _ _ _ _ _ _ _ _ _ _ Hrun Hk) as (vs' & Hall & Hp & _).
  destruct t as [|[q1 r1] [|[q2 r2] t']]; try discriminate Hk.
  cbn in Hall. apply Forall2_cons_inv_l in Hall as (v1 & vs1 & Hv1 & Hall & ->).
  apply Forall2_cons_inv_l in Hall as (v2 & vs2 & Hv2 & Hnil & ->).
  apply Forall2_nil_inv_l in Hnil as ->. cbn in Hp, Hv1, Hv2.
  destruct (candidates w v1) as [cands|] eqn:Hc; [|discriminate Hp].
  cbn in Hp. destruct (chosen w cands v2) as [sel|] eqn:Hs; [|discriminate Hp].
  cbn in Hp. exists q1, r1, q2, r2, v1, v2, cands, sel.
  repeat split; congruence.
Qed.

(** After two calls whose replies can be used there is a third call. *)
Lemma run_third_exists t resp q1 r1 q2 r2 v1 v2 cands sel :
  pipeline_run w env text tone [] t resp ->
  t !! 0%nat = Some (q1, r1) -> t !! 1%nat = Some (q2, r2) ->
  read w r1 = inr v1 -> read w r2 = inr v2 ->
  candidates w v1 = Some cands -> chosen w cands v2 = Some sel ->
  exists q3 r3, t !! 2%nat = Some (q3, r3).
Proof.
  intros Hrun H0 H1 Hv1 Hv2 Hc Hs.
  destruct t as [|[q1' r1'] [|[q2' r2'] t']]; try discriminate.
  cbn in H0, H1. simplify_eq.
  apply pipeline_run_cons in Hrun as (_ & _ & [(e & He & _) | (v & Hv & Hrun)]);
    [congruence|].
  apply pipeline_run_cons in Hrun as (_ & _ & [(e & He & _) | (v' & Hv' & Hrun)]);
    [congruence|].
  assert (v = v1) as -> by congruence. assert (v' = v2) as -> by congruence.
  destruct t' as [|[q3 r3] t'']; [|cbn; eauto].
  apply pipeline_run_nil in Hrun as [(Hlen & _) | (_ & Hnone & _)].
  - destruct w; discriminate Hlen.
  - cbn in Hnone. rewrite Hc in Hnone. cbn in Hnone. rewrite Hs in Hnone.
    discriminate Hnone.
Qed.

End Selection.

(** ** Prompts and what they contain *)

Lemma substring_head (s r : jsstring) : substring_of s (s ++ r).
Proof. exists [], r. reflexivity. Qed.

Lemma substring_refl (s : jsstring) : substring_of s s.
Proof. exists [], []. rewrite app_nil_r. reflexivity. Qed.

Lemma substring_app_r (s x y : jsstring) :
  substring_of s y -> substring_of s (x ++ y).
Proof. intros (l & r & ->). exists (x ++ l), r. by rewrite <- app_assoc. Qed.

Ltac find_substring :=
  repeat first [ apply substring_head | apply substring_refl
               | apply substring_app_r ].

Lemma startsWith_spec p s : startsWith p s = true <-> exists r, s = p ++ r.
Proof.
  revert s. induction p as [|a p IH]; intros s; cbn.
  - split; eauto.
  - destruct s as [|b s]; cbn.
    + split; [discriminate|]. intros [r Hr]. discriminate Hr.
    + rewrite andb_true_iff, N.eqb_eq, IH. split.
      * intros [-> [r ->]]. eauto.
      * intros [r Hr]. injection Hr as -> ->. eauto.
Qed.

Lemma occurs_in_spec t s : occurs_in t s = true <-> substring_of t s.
Proof.
  unfold substring_of. induction s as [|b s IH]; cbn.
  - rewrite orb_false_r, startsWith_spec. split.
    + intros [r Hr]. exists [], r. exact Hr.
    + intros (l & r & Heq). destruct l; [|discriminate Heq]. eauto.
  - rewrite orb_true_iff, IH, startsWith_spec. split.
    + intros [[r Hr] | (l & r & ->)].
      * exists [], r. exact Hr.
      * exists (b :: l), r. reflexivity.
    + intros (l & r & Heq). destruct l as [|c l].
      * left. eauto.
      * right. injection Heq as -> ->. eauto.
Qed.

Section Prompts.
Context `{Engine}.

Lemma prompt1_contains w s :
  substring_of s (prompt1 w (Some (JStr s))).
Proof.
  destruct w; cbn [prompt1];
    unfold V1.stage1_prompt, V2.stage1Prompt, V3.stage1_prompt,
      Part000.stage1_prompt, Part001.stage1_prompt;
    cbn [interpolate]; find_substring.
Qed.

Lemma prompt2_contains w text cands i c :
  (i < 3)%nat -> cands !! i = Some c ->
  substring_of c (prompt2 w text cands).
Proof.
  intros Hi Hc.
  destruct w; cbn [prompt2];
    unfold V1.stage2_prompt, V2.selectPrompt, V3.stage2_prompt,
      Part000.stage2_prompt, Part001.stage2_prompt;
    destruct i as [|[|[|i]]]; try lia; rewrite Hc; cbn [spliced default];
    find_substring.
Qed.

Lemma prompt3_contains w c : substring_of c (prompt3 w (Some c)).
Proof.
  destruct w; cbn [prompt3];
    unfold V1.stage3_prompt, V2.stage2Prompt, V3.stage3_prompt,
      Part000.stage3_prompt, Part001.stage3_prompt;
    cbn [spliced default]; find_substring.
Qed.

Lemma later_prompt_contains w k tone v p :
  later_prompt w k tone v = Some p ->
  substring_of (interpolate (Some v)) p.
Proof.
  unfold later_prompt.
  destruct w; destruct k as [|[|[|[|[|[|k]]]]]]; try discriminate;
    intros Hp; injection Hp as <-;
    unfold V1.stage4_prompt, V1.stage5_prompt, V2.stage3Prompt,
      V3.stage4_prompt, Part000.stage4_prompt, Part001.stage4_prompt,
      Part001.stage5_prompt, Part001.stage6_prompt;
    find_substring.
Qed.

Lemma accepted_text w request env text tone :
  accepted w request env = Some (text, tone) ->
  exists body s,
    request_json request = Some body
    /\ field (lit "text") body = Some (JStr s)
    /\ text = Some (JStr s) /\ s <> [] /\ (length s <= 2000)%nat
    /\ tone = effective_tone w body /\ tone_allowed tone = true
    /\ key_missing env = false.
Proof.
  unfold accepted. destruct (request_json request) as [body|]; [|discriminate].
  destruct (is_null body); [discriminate|].
  destruct (rejects w body) eqn:Hrej; [discriminate|].
  destruct (key_missing env); [discriminate|].
  intros Heq. injection Heq as <- <-.
  unfold rejects in Hrej. apply orb_false_iff in Hrej as [Htext Htone].
  apply negb_false_iff in Htone.
  assert (invalid_text (field (lit "text") body) = false) as Hinv.
  { destruct w; cbn in Htext; try exact Htext.
    unfold V2.invalid_text in Htext. unfold invalid_text.
    apply orb_false_iff in Htext as [Ht Hl]. rewrite Ht. cbn.
    destruct (field (lit "text") body) as [[ | b | x | s | items | fields]|];
      try discriminate Hl. apply orb_false_iff in Hl as [_ Hl]. exact Hl. }
  unfold invalid_text in Hinv. apply orb_false_iff in Hinv as [Ht Hl].
  destruct (field (lit "text") body) as [[ | b | x | s | items | fields]|]
    eqn:Hf; try discriminate Hl.
  exists body, s. apply Nat.ltb_ge in Hl.
  repeat split; auto. intros ->. discriminate Ht.
Qed.

Lemma run_later w env text tone t resp k q r q' r' :
  pipeline_run w env text tone [] t resp ->
  (2 <= k)%nat ->
  t !! k = Some (q, r) -> t !! S k = Some (q', r') ->
  exists v, read w r = inr v
            /\ later_prompt w (S k) tone v = Some (call_prompt q').
Proof.
  intros Hrun Hk Hq Hq'.
  destruct (pipeline_run_lookup _ _ _ _ _ _ _ _ _ _ Hrun Hq')
    as (vs' & Hall & Hp & _).
  rewrite (take_S_r _ _ _ Hq) in Hall.
  apply Forall2_app_inv_l in Hall as (vs1 & vs2 & Hall1 & Hall2 & ->).
  apply Forall2_cons_inv_l in Hall2 as (v & vs3 & Hv & Hnil & ->).
  apply Forall2_nil_inv_l in Hnil as ->.
  exists v. split; [exact Hv|].
  apply Forall2_length in Hall1. rewrite length_take in Hall1.
  apply lookup_lt_Some in Hq.
  assert (length vs1 = k) as Hl by lia.
  cbn [app] in Hp.
  destruct vs1 as [|v1 [|v2 vs1]]; cbn in Hl; try lia.
  cbn [app] in Hp.
  assert (Hlong : forall a b l,
             next_prompt w text tone (a :: b :: l ++ [v])
             = later_prompt w (S (S (length l + 1))) tone v).
  { intros a b [|c l].
    - reflexivity.
    - change (next_prompt w text tone (a :: b :: (c :: l) ++ [v]))
        with (last (a :: b :: (c :: l) ++ [v])
                ≫= later_prompt w (length (a :: b :: (c :: l) ++ [v])) tone).
      change (a :: b :: (c :: l) ++ [v]) with ((a :: b :: c :: l) ++ [v]).
      rewrite last_snoc, length_app. cbn. reflexivity. }
  rewrite Hlong in Hp. rewrite <- Hp. f_equal. lia.
Qed.

End Prompts.

(** ** The chain of stages *)

Section Chain.
Context `{Engine}.

(** C10: in the first handler of paraphrase.js, in part_000 and in
    part_001, when the trimmed reply of the second call is none of "1", "2",
    "3", the index is 0 and the run goes on: a third call is made, and its
    prompt is the stage-3 prompt on the first candidate. *)
Theorem C10_fallback_to_first_candidate :
  forall api w request env q1 r1 q2 r2 raw reply,
    let t := (run api 0 (onRequestPost w request env)).2 in
    full w = true ->
    t !! 0%nat = Some (q1, r1) -> t !! 1%nat = Some (q2, r2) ->
    read w r1 = inr (JStr raw) -> read w r2 = inr (JStr reply) ->
    trim reply ∉ [lit "1"; lit "2"; lit "3"] ->
    index_of (trim reply) = Some 0%Z
    /\ exists first_candidate q3 r3,
         variations_of raw !! 0%nat = Some first_candidate
         /\ t !! 2%nat = Some (q3, r3)
         /\ call_prompt q3 = prompt3 w (Some first_candidate).
Proof.
  intros api w request env q1 r1 q2 r2 raw reply t Hw H0 H1 Hr1 Hr2 Hout.
  pose proof (index_of_fallback _ Hout) as Hidx. split; [exact Hidx|].
  destruct (handled_lookup _ _ _ _ _ _ _ H1) as (text & tone & resp & _ & _ & Hrun).
  fold t in Hrun.
  destruct (run_second _ _ _ _ _ _ _ _ Hrun H1)
    as (q1' & r1' & v1 & cands & H0' & Hv1 & Hc & _).
  assert (v1 = JStr raw) as -> by congruence.
  destruct (candidates_spec _ _ _ Hc) as (raw' & Heq & Hlen & Hvar).
  injection Heq as <-.
  assert (cands = variations_of raw) as -> by (apply Hvar; destruct w; discriminate).
  destruct (variations_of raw) as [|c0 rest] eqn:Hvs; [cbn in Hlen; lia|].
  assert (Hs : chosen w (c0 :: rest) (JStr reply) = Some (Some c0)).
  { unfold chosen. rewrite Hidx. destruct w; try discriminate Hw; reflexivity. }
  destruct (run_third_exists _ _ _ _ _ _ _ _ _ _ _ _ _ _ Hrun H0 H1 Hr1 Hr2 Hc Hs)
    as (q3 & r3 & H2).
  destruct (run_third _ _ _ _ _ _ _ _ Hrun H2)
    as (? & ? & ? & ? & v1' & v2' & cands' & sel & H0'' & H1'' & Hv1' & Hv2'
        & Hc' & Hs' & Hp).
  assert (v1' = JStr raw) as -> by congruence.
  assert (v2' = JStr reply) as -> by congruence.
  assert (cands' = c0 :: rest) as -> by congruence.
  assert (sel = Some c0) as -> by congruence.
  exists c0, q3, r3. auto.
Qed.

(** C3: the selection index is always 0, 1 or 2; and whenever the first
    refinement call is made, the first call returned a string from which at
    least three candidates were read, and the text in the prompt of the
    refinement call is one of them, found inside the list at the selection
    index. *)
Theorem C3_selection_within_candidates :
  (forall choice,
     index_of choice = Some 0%Z \/ index_of choice = Some 1%Z
     \/ index_of choice = Some 2%Z)
  /\ forall api w request env q3 r3,
       let t := (run api 0 (onRequestPost w request env)).2 in
       t !! 2%nat = Some (q3, r3) ->
       exists q1 r1 q2 r2 raw reply cands c,
         t !! 0%nat = Some (q1, r1) /\ t !! 1%nat = Some (q2, r2)
         /\ read w r1 = inr (JStr raw) /\ read w r2 = inr (JStr reply)
         /\ candidates w (JStr raw) = Some cands
         /\ (3 <= length cands)%nat
         /\ c ∈ cands
         /\ call_prompt q3 = prompt3 w (Some c)
         /\ (w <> Second ->
             cands = variations_of raw
             /\ at_index cands (index_of (trim reply)) = Some c).
Proof.
  split; [exact index_of_range|].
  intros api w request env q3 r3 t H2.
  destruct (handled_lookup _ _ _ _ _ _ _ H2) as (text & tone & resp & _ & _ & Hrun).
  fold t in Hrun.
  destruct (run_third _ _ _ _ _ _ _ _ Hrun H2)
    as (q1 & r1 & q2 & r2 & v1 & v2 & cands & sel & H0 & H1 & Hv1 & Hv2
        & Hc & Hs & Hp).
  destruct (candidates_spec _ _ _ Hc) as (raw & -> & Hlen & Hvar).
  destruct (chosen_spec _ _ _ _ Hlen Hs) as (reply & c & -> & -> & Hin & Hat).
  exists q1, r1, q2, r2, raw, reply, cands, c. repeat split; auto.
Qed.

(** The second handler of paraphrase.js selects by the number [parseInt]
    reads from the trimmed reply. *)
Lemma chosen_second cands reply c :
  chosen Second cands (JStr reply) = Some (Some c) ->
  exists i, (i < 3)%nat /\ parseInt (trim reply) = Some (Z.of_nat (S i))
            /\ cands !! i = Some c.
Proof.
  unfold chosen. cbv zeta.
  repeat case_bool_decide; intros Heq; try discriminate Heq;
    injection Heq as Heq.
  - exists 0%nat. auto with lia.
  - exists 1%nat. auto with lia.
  - exists 2%nat. auto with lia.
Qed.

(** C2, as amended: the prompt of the first call contains the request
    text; the prompt of the second call contains each of the first three
    candidates read from what the first call returned; the prompt of the
    third call contains the one candidate that the reply to the second call
    selects (by index where the handler computes an index, by the number
    [parseInt] reads in the second handler of paraphrase.js); and the prompt
    of every later call contains what the call just before it returned. *)
Theorem C2_prompt_chain :
  forall api w request env,
    let t := (run api 0 (onRequestPost w request env)).2 in
    (forall q1 r1,
       t !! 0%nat = Some (q1, r1) ->
       exists body s,
         request_json request = Some body
         /\ field (lit "text") body = Some (JStr s)
         /\ substring_of s (call_prompt q1))
    /\ (forall q2 r2,
          t !! 1%nat = Some (q2, r2) ->
          exists q1 r1 raw cands,
            t !! 0%nat = Some (q1, r1) /\ read w r1 = inr (JStr raw)
            /\ candidates w (JStr raw) = Some cands
            /\ forall i c, (i < 3)%nat -> cands !! i = Some c ->
                           substring_of c (call_prompt q2))
    /\ (forall q3 r3,
          t !! 2%nat = Some (q3, r3) ->
          exists q1 r1 q2 r2 raw reply cands c,
            t !! 0%nat = Some (q1, r1) /\ t !! 1%nat = Some (q2, r2)
            /\ read w r1 = inr (JStr raw) /\ read w r2 = inr (JStr reply)
            /\ candidates w (JStr raw) = Some cands
            /\ chosen w cands (JStr reply) = Some (Some c)
            /\ (w <> Second ->
                at_index cands (index_of (trim reply)) = Some c)
            /\ (w = Second ->
                exists i, (i < 3)%nat
                          /\ parseInt (trim reply) = Some (Z.of_nat (S i))
                          /\ cands !! i = Some c)
            /\ c ∈ cands /\ substring_of c (call_prompt q3))
    /\ (forall k q r q' r',
          (2 <= k)%nat ->
          t !! k = Some (q, r) -> t !! S k = Some (q', r') ->
          exists v, read w r = inr v
                    /\ substring_of (interpolate (Some v)) (call_prompt q')).
Proof.
  intros api w request env t. repeat split.
  - intros q1 r1 H0.
    destruct (handled_lookup _ _ _ _ _ _ _ H0) as (text & tone & resp & Hacc & _ & Hrun).
    fold t in Hrun.
    destruct (accepted_text _ _ _ _ _ Hacc) as (body & s & Hb & Hf & -> & _).
    exists body, s. split; [exact Hb|]. split; [exact Hf|].
    rewrite (run_first _ _ _ _ _ _ _ _ Hrun H0). apply prompt1_contains.
  - intros q2 r2 H1.
    destruct (handled_lookup _ _ _ _ _ _ _ H1) as (text & tone & resp & _ & _ & Hrun).
    fold t in Hrun.
    destruct (run_second _ _ _ _ _ _ _ _ Hrun H1)
      as (q1 & r1 & v1 & cands & H0 & Hv1 & Hc & Hp).
    destruct (candidates_spec _ _ _ Hc) as (raw & -> & _).
    exists q1, r1, raw, cands. repeat split; auto.
    intros i c Hi Hic. rewrite Hp. eapply prompt2_contains; eassumption.
  - intros q3 r3 H2.
    destruct (handled_lookup _ _ _ _ _ _ _ H2) as (text & tone & resp & _ & _ & Hrun).
    fold t in Hrun.
    destruct (run_third _ _ _ _ _ _ _ _ Hrun H2)
      as (q1 & r1 & q2 & r2 & v1 & v2 & cands & sel & H0 & H1 & Hv1 & Hv2
          & Hc & Hs & Hp).
    destruct (candidates_spec _ _ _ Hc) as (raw & -> & Hlen & _).
    destruct (chosen_spec _ _ _ _ Hlen Hs) as (reply & c & -> & -> & Hin & Hat).
    exists q1, r1, q2, r2, raw, reply, cands, c.
    split; [exact H0|]. split; [exact H1|]. split; [exact Hv1|].
    split; [exact Hv2|]. split; [exact Hc|]. split; [exact Hs|].
    split; [exact Hat|]. split.
    { intros ->. apply chosen_second, Hs. }
    split; [exact Hin|].
    rewrite Hp. apply prompt3_contains.
  - intros k q r q' r' Hk Hq Hq'.
    destruct (handled_lookup _ _ _ _ _ _ _ Hq) as (text & tone & resp & _ & _ & Hrun).
    fold t in Hrun.
    destruct (run_later _ _ _ _ _ _ _ _ _ _ _ Hrun Hk Hq Hq') as (v & Hv & Hp).
    exists v. split; [exact Hv|]. eapply later_prompt_contains, Hp.
Qed.

End Chain.

(** ** How a pipeline ends *)

Section Completion.
Context `{Engine}.

Lemma error_body_failure w err : error_body (failure w err).
Proof. destruct w; cbn; eexists _, _; split; reflexivity. Qed.

Lemma later_prompt_total w k tone v :
  (3 <= k < stages w)%nat -> is_Some (later_prompt w k tone v).
Proof.
  intros Hk. unfold later_prompt.
  destruct w; cbn in Hk; destruct k as [|[|[|[|[|[|k]]]]]]; try lia; eauto.
Qed.

Lemma accepted_intro w request env body s :
  request_json request = Some body ->
  field (lit "text") body = Some (JStr s) ->
  s <> [] -> (length s <= 2000)%nat ->
  tone_allowed (effective_tone w body) = true ->
  key_missing env = false ->
  accepted w request env = Some (Some (JStr s), effective_tone w body).
Proof.
  intros Hb Hf Hs Hl Ht Hk. unfold accepted. rewrite Hb.
  assert (is_null body = false) as -> by (destruct body; try reflexivity; discriminate Hf).
  unfold rejects. rewrite Hf, Ht, Hk.
  assert (bad_text w (Some (JStr s)) = false) as ->; [|reflexivity].
  apply Nat.ltb_ge in Hl.
  destruct s as [|c s]; [congruence|].
  destruct w; unfold bad_text, V2.invalid_text, invalid_text; rewrite Hl;
    reflexivity.
Qed.

(** A run whose first reply yields no candidates answers with the failure
    response. *)
Lemma run_stuck_first w env text tone t resp q r v :
  pipeline_run w env text tone [] t resp ->
  t !! 0%nat = Some (q, r) -> read w r = inr v -> candidates w v = None ->
  exists err, resp = failure w err.
Proof.
  intros Hrun H0 Hv Hc.
  destruct t as [|[q1 r1] t']; [discriminate H0|]. cbn in H0. simplify_eq.
  apply pipeline_run_cons in Hrun as (_ & _ & [(e & He & _) | (v' & Hv' & Hrun)]);
    [congruence|].
  assert (v' = v) as -> by congruence.
  destruct t' as [|[q2 r2] t''].
  - apply pipeline_run_nil in Hrun as [(Hlen & _) | (_ & _ & Herr)]; [|exact Herr].
    destruct w; discriminate Hlen.
  - apply pipeline_run_cons in Hrun as (Hp & _). cbn in Hp. rewrite Hc in Hp.
    discriminate Hp.
Qed.

Lemma run_stuck_second w env text tone t resp q1 r1 q2 r2 v1 v2 cands :
  pipeline_run w env text tone [] t resp ->
  t !! 0%nat = Some (q1, r1) -> t !! 1%nat = Some (q2, r2) ->
  read w r1 = inr v1 -> read w r2 = inr v2 ->
  candidates w v1 = Some cands -> chosen w cands v2 = None ->
  exists err, resp = failure w err.
Proof.
  intros Hrun H0 H1 Hv1 Hv2 Hc Hs.
  destruct t as [|[q1' r1'] [|[q2' r2'] t']]; try discriminate.
  cbn in H0, H1. simplify_eq.
  apply pipeline_run_cons in Hrun as (_ & _ & [(e & He & _) | (v & Hv & Hrun)]);
    [congruence|].
  apply pipeline_run_cons in Hrun as (_ & _ & [(e & He & _) | (v' & Hv' & Hrun)]);
    [congruence|].
  assert (v = v1) as -> by congruence. assert (v' = v2) as -> by congruence.
  destruct t' as [|[q3 r3] t''].
  - apply pipeline_run_nil in Hrun as [(Hlen & _) | (_ & _ & Herr)]; [|exact Herr].
    destruct w; discriminate Hlen.
  - apply pipeline_run_cons in Hrun as (Hp & _). cbn in Hp. rewrite Hc in Hp.
    cbn in Hp. rewrite Hs in Hp. discriminate Hp.
Qed.

(** A run in which every call succeeded and the replies could be used
    answers 200. *)
Lemma run_completes w env text tone t resp :
  pipeline_run w env text tone [] t resp ->
  Forall (fun c => exists v, read w c.2 = inr v) t ->
  replies_usable w t ->
  status resp = 200%Z.
Proof.
  intros Hrun Hall [Hu1 Hu2].
  destruct (pipeline_run_end _ _ _ _ _ _ _ Hrun Hall)
    as (vs & H2 & [[_ Hst] | (Hlen & Hnone & _)]); [exact Hst|].
  exfalso. cbn [app] in Hlen, Hnone.
  destruct t as [|[q1 r1] t].
  { apply Forall2_nil_inv_l in H2 as ->. discriminate Hnone. }
  apply Forall2_cons_inv_l in H2 as (v1 & vs1 & Hv1 & H2 & ->). cbn in Hv1.
  destruct (Hu1 q1 r1 v1 eq_refl Hv1) as [cands Hc].
  destruct t as [|[q2 r2] t].
  { apply Forall2_nil_inv_l in H2 as ->. cbn in Hnone. rewrite Hc in Hnone.
    discriminate Hnone. }
  apply Forall2_cons_inv_l in H2 as (v2 & vs2 & Hv2 & H2 & ->). cbn in Hv2.
  destruct (Hu2 q1 r1 q2 r2 v1 v2 cands eq_refl eq_refl Hv1 Hv2 Hc) as [sel Hs].
  destruct vs2 as [|v3 vs3].
  { cbn in Hnone. rewrite Hc in Hnone. cbn in Hnone. rewrite Hs in Hnone.
    discriminate Hnone. }
  rewrite next_prompt_long in Hnone.
  destruct (last (v1 :: v2 :: v3 :: vs3)) as [v|] eqn:Hlast.
  - cbn [mbind option_bind] in Hnone.
    destruct (later_prompt_total w (length (v1 :: v2 :: v3 :: vs3)) tone v)
      as [p Hp]; [cbn in *; lia|].
    rewrite Hp in Hnone. discriminate Hnone.
  - apply last_None in Hlast. discriminate Hlast.
Qed.

End Completion.

Section Outcome.
Context `{Engine}.

Lemma run_200 api w request env resp :
  (run api 0 (onRequestPost w request env)).1 = inr resp ->
  status resp = 200%Z ->
  let t := (run api 0 (onRequestPost w request env)).2 in
  length t = stages w
  /\ Forall (fun c => exists v, read w c.2 = inr v) t
  /\ exists q r final,
       last t = Some (q, r) /\ read w r = inr final
       /\ resp = success w final.
Proof.
  intros Ho Hst t.
  destruct (handled_run api w request env) as (resp' & Ho' & Hshape).
  rewrite Ho in Ho'. injection Ho' as <-. fold t in Hshape.
  destruct (accepted w request env) as [[text tone]|].
  - destruct (pipeline_run_200 _ _ _ _ _ _ _ Hshape Hst)
      as (Hlen & Hall & final & -> & Hlast).
    cbn in Hlen. split; [exact Hlen|]. split; [exact Hall|].
    destruct (last t) as [[q r]|] eqn:E; [|discriminate Hlast].
    exists q, r, final. auto.
  - destruct Hshape as (_ & _ & Hs & _).
    destruct (refusal_status_cases w request); congruence.
Qed.

(** C5, as amended: a call that fails (network error, status outside 2xx,
    body that is not JSON; in the handlers with full error handling also a
    reply without text), a first reply from which no three candidates can be
    read, or a second reply that selects none of them makes the handler
    answer 500 with a JSON error body that carries no result; and an answer
    200 is only given after every call of the pipeline has succeeded, with
    what the last call returned. The Express route answers 500 when the SDK
    throws. *)
Theorem C5_failures_answer_500 :
  (forall api w request env,
     let t := (run api 0 (onRequestPost w request env)).2 in
     exists resp,
       (run api 0 (onRequestPost w request env)).1 = inr resp
       /\ (forall k q r,
             t !! k = Some (q, r) ->
             transport_failure r \/ (full w = true /\ empty_content r)
             \/ (exists err, read w r = inl err) ->
             status resp = 500%Z /\ error_body resp)
       /\ (forall q r v,
             t !! 0%nat = Some (q, r) -> read w r = inr v ->
             candidates w v = None ->
             status resp = 500%Z /\ error_body resp)
       /\ (forall q1 r1 q2 r2 v1 v2 cands,
             t !! 0%nat = Some (q1, r1) -> t !! 1%nat = Some (q2, r2) ->
             read w r1 = inr v1 -> read w r2 = inr v2 ->
             candidates w v1 = Some cands -> chosen w cands v2 = None ->
             status resp = 500%Z /\ error_body resp)
       /\ (status resp = 200%Z ->
           length t = stages w
           /\ Forall (fun c => exists v, read w c.2 = inr v) t
           /\ exists q r final,
                last t = Some (q, r) /\ read w r = inr final
                /\ body resp = Stringified (JObj [(lit "result", final)])))
  /\ (forall api req k q,
        (run api 0 (Server.paraphrase req)).2 !! k = Some (q, Server.SdkThrows) ->
        (run api 0 (Server.paraphrase req)).1 = inr server_error).
Proof.
  split.
  - intros api w request env t.
    destruct (handled_run api w request env) as (resp & Ho & _).
    exists resp. split; [exact Ho|].
    assert (Hfailure : forall k q r err,
               t !! k = Some (q, r) -> resp = failure w err ->
               status resp = 500%Z /\ error_body resp).
    { intros k q r err _ ->. split; [apply status_failure|apply error_body_failure]. }
    split; [|split; [|split]].
    + intros k q r Hk Hfail.
      assert (exists err, read w r = inl err) as [err Herr].
      { destruct Hfail as [Ht | [[Hw He] | Hr]];
          eauto using transport_failure_read, empty_content_read. }
      destruct (handled_lookup _ _ _ _ _ _ _ Hk)
        as (text & tone & resp' & _ & Ho' & Hrun).
      rewrite Ho in Ho'. injection Ho' as <-.
      destruct (pipeline_run_failure _ _ _ _ _ _ _ _ _ _ _ Hrun Hk Herr) as [_ Hresp].
      eapply Hfailure; eassumption.
    + intros q r v H0 Hv Hc.
      destruct (handled_lookup _ _ _ _ _ _ _ H0)
        as (text & tone & resp' & _ & Ho' & Hrun).
      rewrite Ho in Ho'. injection Ho' as <-.
      destruct (run_stuck_first _ _ _ _ _ _ _ _ _ Hrun H0 Hv Hc) as [err Hresp].
      eapply Hfailure; eassumption.
    + intros q1 r1 q2 r2 v1 v2 cands H0 H1 Hv1 Hv2 Hc Hs.
      destruct (handled_lookup _ _ _ _ _ _ _ H0)
        as (text & tone & resp' & _ & Ho' & Hrun).
      rewrite Ho in Ho'. injection Ho' as <-.
      destruct (run_stuck_second _ _ _ _ _ _ _ _ _ _ _ _ _ Hrun H0 H1 Hv1 Hv2 Hc Hs)
        as [err Hresp].
      eapply Hfailure; eassumption.
    + intros Hst.
      destruct (run_200 api w request env resp Ho Hst)
        as (Hlen & Hall & q & r & final & Hl & Hr & ->).
      split; [exact Hlen|]. split; [exact Hall|]. exists q, r, final. auto.
  - intros api req k q Hk. pose proof (served_run api req) as Hs.
    unfold served in Hs. destruct (server_accepted req) as [s|].
    + destruct Hs as (r & Ht & Ho). rewrite Ht in Hk.
      destruct k as [|k]; [|destruct k; discriminate Hk].
      cbn in Hk. injection Hk as _ ->. exact Ho.
    + destruct Hs as [Ht _]. rewrite Ht in Hk. discriminate Hk.
Qed.

(** C1, as amended: a handler makes at most as many calls as its pipeline
    has stages (5, 4, 4, 4 and 6; the Express route 1); for a request that
    passes the guards (text a non-empty string of at most 2000 characters, an
    allowed tone, the API key set), when every call made succeeds and the
    replies of the first two calls can be used (three candidates are read,
    one is selected), the handler makes exactly that many calls and answers
    200 with a JSON body whose result is what the last call returned. *)
Theorem C1_fixed_pipeline :
  (forall api w request env,
     let t := (run api 0 (onRequestPost w request env)).2 in
     (length t <= stages w)%nat
     /\ forall body s,
          request_json request = Some body ->
          field (lit "text") body = Some (JStr s) ->
          s <> [] -> (length s <= 2000)%nat ->
          tone_allowed (effective_tone w body) = true ->
          key_missing env = false ->
          Forall (fun c => exists v, read w c.2 = inr v) t ->
          replies_usable w t ->
          length t = stages w
          /\ exists q r final,
               last t = Some (q, r) /\ read w r = inr final
               /\ (run api 0 (onRequestPost w request env)).1
                  = inr (json_response (JObj [(lit "result", final)]) 200))
  /\ (forall api req,
        let t := (run api 0 (Server.paraphrase req)).2 in
        (length t <= 1)%nat
        /\ forall b s x q,
             Server.req_body req = Some b ->
             field (lit "text") b = Some (JStr s) ->
             Server.validateInput (Some (JStr s)) = None ->
             last t = Some (q, Server.SdkText x) ->
             length t = 1%nat
             /\ (run api 0 (Server.paraphrase req)).1
                = inr (Server.res_json 200
                         (JObj [(lit "paraphrased", JStr (trim x))]))).
Proof.
  split.
  - intros api w request env t. split.
    + apply run_length.
    + intros body s Hb Hf Hs Hl Ht Hk Hall Hu.
      pose proof (accepted_intro w request env body s Hb Hf Hs Hl Ht Hk) as Hacc.
      destruct (handled_run api w request env) as (resp & Ho & Hshape).
      rewrite Hacc in Hshape. fold t in Hshape.
      pose proof (run_completes _ _ _ _ _ _ Hshape Hall Hu) as Hst.
      destruct (run_200 api w request env resp Ho Hst)
        as (Hlen & _ & q & r & final & Hlast & Hr & ->).
      split; [exact Hlen|]. exists q, r, final. auto.
  - intros api req t. pose proof (served_run api req) as Hs. fold t in Hs.
    unfold served in Hs. split.
    + destruct (server_accepted req) as [s|].
      * destruct Hs as (r & -> & _). cbn. lia.
      * destruct Hs as [-> _]. cbn. lia.
    + intros b s x q Hb Hf Hv Hlast. unfold server_accepted in Hs.
      rewrite Hb in Hs.
      assert (b <> JNull) by (intros ->; discriminate Hf).
      destruct b; try congruence; rewrite Hf, Hv in Hs;
        destruct Hs as (r & Ht & Ho); rewrite Ht in Hlast |- *;
        cbn in Hlast; injection Hlast as _ ->; auto.
Qed.

End Outcome.

(** ** The default tone *)

Section Tone.
Context `{Engine}.

Lemma assoc_tone_standard fields :
  assoc (lit "tone") (standard_tone :: fields) = Some (JStr (lit "standard")).
Proof. reflexivity. Qed.

Lemma assoc_text_standard fields :
  assoc (lit "text") (standard_tone :: fields) = assoc (lit "text") fields.
Proof.
  unfold standard_tone. cbn [assoc]. rewrite bool_decide_eq_false_2; [reflexivity|].
  intros Heq. vm_compute in Heq. discriminate Heq.
Qed.

Lemma tone_defaults fields :
  assoc (lit "tone") fields = None ->
  tone_or_standard (field (lit "tone") (JObj fields))
  = tone_or_standard (field (lit "tone") (JObj (standard_tone :: fields))).
Proof.
  intros Hnone. cbn [field]. rewrite Hnone, assoc_tone_standard. reflexivity.
Qed.

Lemma handler_tone_defaults w fields env :
  w <> Second -> assoc (lit "tone") fields = None ->
  onRequestPost w (request_with fields) env
  = onRequestPost w (request_with (standard_tone :: fields)) env.
Proof.
  intros Hw Hnone. pose proof (tone_defaults fields Hnone) as Htone.
  pose proof (assoc_text_standard fields) as Htext.
  destruct w; try congruence; cbn [onRequestPost];
    unfold V1.onRequestPost, V3.onRequestPost, Part000.onRequestPost,
      Part001.onRequestPost, request_with, await_json, member;
    cbn [request_json is_null mbind Prog_bind bind];
    rewrite Htone; cbn [field]; rewrite Htext; reflexivity.
Qed.

(** C4, as amended: in every handler that reads the tone, except the
    second handler of paraphrase.js, a request without a tone field is
    handled exactly as the same request with tone "standard", and with a
    valid text it is not answered 400. The Express route does not read the
    tone. (The second handler of paraphrase.js requires the field.) *)
Theorem C4_tone_defaults_to_standard :
  (forall api w fields env,
     w <> Second ->
     assoc (lit "tone") fields = None ->
     run api 0 (onRequestPost w (request_with fields) env)
     = run api 0 (onRequestPost w (request_with (standard_tone :: fields)) env)
     /\ (invalid_text (assoc (lit "text") fields) = false ->
         forall resp,
           (run api 0 (onRequestPost w (request_with fields) env)).1 = inr resp ->
           status resp <> 400%Z))
  /\ (forall api fields,
        assoc (lit "tone") fields = None ->
        run api 0 (Server.paraphrase {| Server.req_body := Some (JObj fields) |})
        = run api 0 (Server.paraphrase
                       {| Server.req_body := Some (JObj (standard_tone :: fields)) |})).
Proof.
  split.
  - intros api w fields env Hw Hnone. split.
    + rewrite (handler_tone_defaults w fields env Hw Hnone). reflexivity.
    + intros Hvalid resp Ho.
      destruct (handled_run api w (request_with fields) env) as (resp' & Ho' & Hshape).
      rewrite Ho in Ho'. injection Ho' as <-.
      destruct (accepted w (request_with fields) env) as [[text tone]|].
      * destruct (pipeline_run_status _ _ _ _ _ _ _ Hshape); congruence.
      * destruct Hshape as (_ & _ & -> & _).
        unfold refusal_status, request_with, rejects. cbn [request_json is_null field].
        assert (bad_text w (assoc (lit "text") fields) = false) as ->
          by (destruct w; try congruence; exact Hvalid).
        assert (effective_tone w (JObj fields) = Some (JStr (lit "standard"))) as ->.
        { destruct w; try congruence; cbn [effective_tone field]; rewrite Hnone;
            reflexivity. }
        discriminate.
  - intros api fields Hnone. unfold Server.paraphrase.
    cbn [Server.req_body field]. rewrite assoc_text_standard. reflexivity.
Qed.

End Tone.

(** ** The claims that fail as stated, on sample runs *)

(** C1 fails as stated: the request passes the guards and every call
    succeeds, yet the first handler of paraphrase.js stops after one call
    and answers 500, because the first reply holds a single candidate. *)
Lemma C1_counterexample :
  let api := always (gemini_reply "only one") in
  let r := run api 0 (@onRequestPost plain_engine First sample_request sample_env) in
  is_Some (accepted First sample_request sample_env)
  /\ (forall n q, exists v, @read plain_engine First (api n q) = inr v)
  /\ length r.2 = 1%nat
  /\ exists resp, r.1 = inr resp /\ status resp = 500%Z.
Proof.
  cbv zeta. split; [vm_compute; eauto|]. split.
  - intros n q. unfold always. vm_compute. eauto.
  - split; [vm_compute; reflexivity|]. eexists. split; vm_compute; reflexivity.
Qed.

(** C2 fails as stated: the prompt of the second call does not contain
    what the first call returned. *)
Lemma C2_counterexample :
  let t := (run (scripted chain_replies) 0
              (@onRequestPost plain_engine First sample_request sample_env)).2 in
  exists q1 r1 q2 r2,
    t !! 0%nat = Some (q1, r1) /\ t !! 1%nat = Some (q2, r2)
    /\ @read plain_engine First r1 = inr (JStr (lit "a|||b|||c"))
    /\ ~ substring_of (lit "a|||b|||c") (call_prompt q2).
Proof.
  cbv zeta. eexists _, _, _, _.
  split; [vm_compute; reflexivity|]. split; [vm_compute; reflexivity|].
  split; [vm_compute; reflexivity|].
  rewrite <- occurs_in_spec. vm_compute. discriminate.
Qed.

(** C4 fails as stated: the second handler of paraphrase.js answers a
    request with a valid text and no tone with 400. *)
Lemma C4_counterexample :
  let r := run (scripted []) 0
             (@onRequestPost plain_engine Second (request_with sample_fields)
                sample_env) in
  assoc (lit "tone") sample_fields = None
  /\ V2.invalid_text (assoc (lit "text") sample_fields) = false
  /\ exists resp, r.1 = inr resp /\ status resp = 400%Z.
Proof.
  cbv zeta. split; [vm_compute; reflexivity|]. split; [vm_compute; reflexivity|].
  eexists. split; vm_compute; reflexivity.
Qed.

(** C5 fails as stated: in the third handler of paraphrase.js the last
    call gets a reply without content, and the handler answers 200. *)
Lemma C5_counterexample :
  let r := run (scripted hollow_replies) 0
             (@onRequestPost plain_engine Third sample_request sample_env) in
  exists q r4,
    r.2 !! 3%nat = Some (q, r4) /\ empty_content r4
    /\ exists resp, r.1 = inr resp /\ status resp = 200%Z
                    /\ body resp = Stringified (JObj [(lit "result", JStr [])]).
Proof.
  cbv zeta. eexists _, _. split; [vm_compute; reflexivity|]. split.
  - exists 200%Z, (JObj []). repeat split.
  - eexists. split; [vm_compute; reflexivity|]. split; vm_compute; reflexivity.
Qed.

(** ** The theorems at work on sample runs *)

(** Evaluates a run on sample data. *)
Ltac evaluate := vm_compute; reflexivity.

(** The replies a run received, in order. *)
Lemma lookup_reply {Q R} (t : list (Q * R)) k q r :
  t !! k = Some (q, r) -> (snd <$> t) !! k = Some r.
Proof. intros Hk. rewrite list_lookup_fmap, Hk. reflexivity. Qed.

Lemma chain_run_replies :
  snd <$> (run (scripted chain_replies) 0
             (@onRequestPost plain_engine First sample_request sample_env)).2
  = chain_replies.
Proof. evaluate. Qed.

Ltac all_succeed E :=
  apply (proj1 (Forall_fmap snd (fun r => exists v, read _ r = inr v) _));
  rewrite E; repeat (constructor; [eexists; evaluate|]); constructor.

Ltac usable E :=
  split; intros;
  repeat match goal with
         | Hk : _ !! _ = Some _ |- _ =>
             apply lookup_reply in Hk; rewrite E in Hk; injection Hk as <-
         end;
  repeat match goal with
         | Hr : @read ?e ?w ?r = inr ?v |- _ =>
             let x := eval vm_compute in (@read e w r) in
             assert (@read e w r = x) as Heq by evaluate;
             rewrite Heq in Hr; clear Heq; injection Hr as <-
         | Hc : candidates ?w ?v = Some ?c |- _ =>
             let x := eval vm_compute in (candidates w v) in
             assert (candidates w v = x) as Heq by evaluate;
             rewrite Heq in Hc; clear Heq; injection Hc as <-
         end;
  eexists; evaluate.

(** C1 at work: the five-stage handler runs through on usable replies. *)
Lemma C1_witness :
  let t := (run (scripted chain_replies) 0
              (@onRequestPost plain_engine First sample_request sample_env)).2 in
  length t = 5%nat
  /\ exists q r final,
       last t = Some (q, r) /\ @read plain_engine First r = inr final
       /\ (run (scripted chain_replies) 0
             (@onRequestPost plain_engine First sample_request sample_env)).1
          = inr (json_response (JObj [(lit "result", final)]) 200).
Proof.
  refine (proj2 (proj1 (@C1_fixed_pipeline plain_engine)
                   (scripted chain_replies) First sample_request sample_env)
            (JObj (standard_tone :: sample_fields)) (lit "hello")
            _ _ _ _ _ _ _ _).
  - reflexivity.
  - evaluate.
  - discriminate.
  - vm_compute. lia.
  - evaluate.
  - evaluate.
  - all_succeed chain_run_replies.
  - usable chain_run_replies.
Defined.

(** C2 at work: in the sample run the first prompt holds the request
    text, and the third prompt holds the candidate that the reply to the
    second call selects. *)
Lemma C2_witness :
  let t := (run (scripted chain_replies) 0
              (@onRequestPost plain_engine First sample_request sample_env)).2 in
  (exists body s,
     request_json sample_request = Some body
     /\ field (lit "text") body = Some (JStr s)
     /\ substring_of s
          (@prompt1 plain_engine First (Some (JStr (lit "hello")))))
  /\ exists q3 q1 r1 q2 r2 raw reply cands c,
       t !! 0%nat = Some (q1, r1) /\ t !! 1%nat = Some (q2, r2)
       /\ @read plain_engine First r1 = inr (JStr raw)
       /\ @read plain_engine First r2 = inr (JStr reply)
       /\ candidates First (JStr raw) = Some cands
       /\ chosen First cands (JStr reply) = Some (Some c)
       /\ (First <> Second ->
           at_index cands (index_of (trim reply)) = Some c)
       /\ (First = Second ->
           exists i, (i < 3)%nat
                     /\ parseInt (trim reply) = Some (Z.of_nat (S i))
                     /\ cands !! i = Some c)
       /\ c ∈ cands /\ substring_of c (call_prompt q3).
Proof.
  cbv zeta. split.
  - exact (proj1 (@C2_prompt_chain plain_engine (scripted chain_replies) First
                    sample_request sample_env)
             (@request_for First sample_env 0
                (@prompt1 plain_engine First (Some (JStr (lit "hello")))))
             (gemini_reply "a|||b|||c")
             ltac:(evaluate)).
  - eexists.
    eapply (proj1 (proj2 (proj2 (@C2_prompt_chain plain_engine
                                   (scripted chain_replies) First
                                   sample_request sample_env)))
              _ (gemini_reply "refined")).
    evaluate.
Defined.

(** C3 at work: the refinement call of the sample run. *)
Lemma C3_witness :
  let t := (run (scripted chain_replies) 0
              (@onRequestPost plain_engine First sample_request sample_env)).2 in
  exists q3 q1 r1 q2 r2 raw reply cands c,
    t !! 0%nat = Some (q1, r1) /\ t !! 1%nat = Some (q2, r2)
    /\ @read plain_engine First r1 = inr (JStr raw)
    /\ @read plain_engine First r2 = inr (JStr reply)
    /\ candidates First (JStr raw) = Some cands
    /\ (3 <= length cands)%nat
    /\ c ∈ cands
    /\ call_prompt q3 = prompt3 First (Some c)
    /\ (First <> Second ->
        cands = variations_of raw
        /\ at_index cands (index_of (trim reply)) = Some c).
Proof.
  cbv zeta. eexists.
  eapply (proj2 (@C3_selection_within_candidates plain_engine)
            (scripted chain_replies) First sample_request sample_env
            _ (gemini_reply "refined")).
  evaluate.
Defined.

(** C4 at work: a request without tone against the same request with tone standard. *)
Lemma C4_witness :
  assoc (lit "tone") sample_fields = None
  /\ run (scripted chain_replies) 0
       (@onRequestPost plain_engine First (request_with sample_fields) sample_env)
     = run (scripted chain_replies) 0
         (@onRequestPost plain_engine First
            (request_with (standard_tone :: sample_fields)) sample_env).
Proof.
  split; [reflexivity|].
  apply (proj1 (@C4_tone_defaults_to_standard plain_engine)
           (scripted chain_replies) First sample_fields sample_env).
  - discriminate.
  - reflexivity.
Defined.

(** C5 at work: an unreachable API. *)
Lemma C5_witness :
  exists resp,
    (run (always NetworkError) 0
       (@onRequestPost plain_engine First sample_request sample_env)).1 = inr resp
    /\ status resp = 500%Z /\ error_body resp.
Proof.
  destruct (proj1 (@C5_failures_answer_500 plain_engine) (always NetworkError)
              First sample_request sample_env) as (resp & Ho & Hfail & _).
  exists resp. split; [exact Ho|].
  eapply (Hfail 0%nat _ NetworkError); [evaluate|]. left. exact I.
Defined.

(** C6 at work: an unreachable API: one call, then 500. *)
Lemma C6_witness :
  let r := run (always NetworkError) 0
             (@onRequestPost plain_engine First sample_request sample_env) in
  length r.2 = 1%nat /\ exists resp, r.1 = inr resp /\ status resp = 500%Z.
Proof.
  cbv zeta.
  destruct (@C6_no_retry plain_engine (always NetworkError) First sample_request
              sample_env) as (_ & _ & Hlast).
  eapply (Hlast 0%nat _ NetworkError); [evaluate|]. left. exact I.
Defined.

(** C9 at work: an empty text is answered 400 without a call. *)
Lemma C9_witness :
  (run (scripted chain_replies) 0
     (@onRequestPost plain_engine First empty_text_request sample_env)).2 = [].
Proof.
  eapply (proj1 (@C9_validation_precedes_calls plain_engine)
            (scripted chain_replies) First empty_text_request sample_env).
  - evaluate.
  - left. reflexivity.
Defined.

(** C10 at work: a second reply that names no candidate. *)
Lemma C10_witness :
  let t := (run (scripted undecided_replies) 0
              (@onRequestPost plain_engine First sample_request sample_env)).2 in
  index_of (trim (lit "the second one")) = Some 0%Z
  /\ exists first_candidate q3 r3,
       variations_of (lit "a|||b|||c") !! 0%nat = Some first_candidate
       /\ t !! 2%nat = Some (q3, r3)
       /\ call_prompt q3 = prompt3 First (Some first_candidate).
Proof.
  cbv zeta.
  eapply (@C10_fallback_to_first_candidate plain_engine
            (scripted undecided_replies) First sample_request sample_env
            _ _ _ _ (lit "a|||b|||c") (lit "the second one")).
  - reflexivity.
  - evaluate.
  - evaluate.
  - evaluate.
  - evaluate.
  - apply (proj1 (bool_decide_eq_false _)). evaluate.
Defined.

(** * Further properties of the code *)

(** ** Trimmed strings *)

Lemma trimStart_head s :
  trimStart s = [] \/ exists c t, trimStart s = c :: t /\ is_space c = false.
Proof.
  induction s as [|c s IH]; cbn; [auto|].
  destruct (is_space c) eqn:E; [exact IH|]. right. eauto.
Qed.

Lemma trimStart_fixed c t : is_space c = false -> trimStart (c :: t) = c :: t.
Proof. intros E. cbn. rewrite E. reflexivity. Qed.

Lemma trimStart_idem s : trimStart (trimStart s) = trimStart s.
Proof.
  destruct (trimStart_head s) as [-> | (c & t & -> & E)]; [reflexivity|].
  apply trimStart_fixed, E.
Qed.

Lemma trimStart_snoc l c :
  is_space c = false -> trimStart (l ++ [c]) = trimStart l ++ [c].
Proof.
  intros E. induction l as [|a l IH]; cbn.
  - rewrite E. reflexivity.
  - destruct (is_space a); [exact IH|reflexivity].
Qed.

Lemma trimEnd_cons c t :
  is_space c = false -> trimEnd (c :: t) = c :: trimEnd t.
Proof.
  intros E. unfold trimEnd.
  rewrite reverse_cons, trimStart_snoc, reverse_snoc by exact E. reflexivity.
Qed.

Lemma trimEnd_idem s : trimEnd (trimEnd s) = trimEnd s.
Proof. unfold trimEnd. rewrite reverse_involutive, trimStart_idem. reflexivity. Qed.

Lemma trimStart_trim s : trimStart (trim s) = trim s.
Proof.
  unfold trim. destruct (trimStart_head s) as [-> | (c & t & -> & E)].
  - reflexivity.
  - rewrite trimEnd_cons by exact E. apply trimStart_fixed, E.
Qed.

Lemma trim_idem s : trim (trim s) = trim s.
Proof.
  unfold trim at 1. rewrite trimStart_trim. unfold trim. apply trimEnd_idem.
Qed.

Lemma nonempty_spec (s : jsstring) : nonempty s = true <-> s <> [].
Proof. destruct s; cbn; split; congruence. Qed.

(** What the Gemini call with full error handling returns is never empty
    and carries no white space at either end. *)
Lemma full_read_reply_trimmed r s :
  Full.read_reply r = inr s -> s <> [] /\ trim s = s.
Proof.
  unfold Full.read_reply.
  destruct r as [|code [data|]]; try discriminate.
  destruct (negb (ok code)).
  { repeat match goal with |- context [if ?c then _ else _] => destruct c end;
      discriminate. }
  destruct (Full.reply_text data) as [[ | b | x | raw | items | fields]|];
    try discriminate.
  cbv zeta. destruct (nonempty (trim raw)) eqn:E; [|discriminate].
  intros Heq. injection Heq as <-.
  split; [apply nonempty_spec, E|apply trim_idem].
Qed.

(** Every candidate is non-empty and trimmed. *)
Lemma variations_of_trimmed raw c :
  c ∈ variations_of raw -> c <> [] /\ trim c = c.
Proof.
  unfold variations_of. rewrite list_elem_of_In, filter_In, <- list_elem_of_In.
  intros [Hin Hne]. split; [apply nonempty_spec, Hne|].
  apply list_elem_of_In, in_map_iff in Hin as (x & <- & _). apply trim_idem.
Qed.

(** ** What a 200 answer and the selection call hold *)

Section Results.
Context `{Engine}.

Lemma full_read w r v :
  full w = true -> read w r = inr v ->
  exists s, Full.read_reply r = inr s /\ v = JStr s.
Proof.
  intros Hw. destruct w; try discriminate Hw; unfold read;
    destruct (Full.read_reply r) as [e|s]; cbn; intros Heq;
    try discriminate Heq; injection Heq as <-; eauto.
Qed.

(** X1: in the handlers with full error handling, the result of a 200
    answer is a string that is not empty and has no white space at either
    end. *)
Theorem full_result_is_trimmed_text :
  forall api w request env resp,
    full w = true ->
    (run api 0 (onRequestPost w request env)).1 = inr resp ->
    status resp = 200%Z ->
    exists s,
      body resp = Stringified (JObj [(lit "result", JStr s)])
      /\ s <> [] /\ trim s = s.
Proof.
  intros api w request env resp Hw Ho Hst.
  destruct (run_200 api w request env resp Ho Hst)
    as (_ & _ & q & r & final & _ & Hr & ->).
  destruct (full_read w r final Hw Hr) as (s & Hs & ->).
  exists s. split; [reflexivity|]. eapply full_read_reply_trimmed, Hs.
Qed.

(** X2: whenever the selection call is made, the candidates it lists were
    read from what the first call returned and none of them is empty; in the
    handlers that split on the separator they are also trimmed. *)
Theorem listed_candidates_are_clean :
  forall api w request env q2 r2,
    let t := (run api 0 (onRequestPost w request env)).2 in
    t !! 1%nat = Some (q2, r2) ->
    exists q1 r1 raw cands,
      t !! 0%nat = Some (q1, r1) /\ read w r1 = inr (JStr raw)
      /\ candidates w (JStr raw) = Some cands
      /\ forall c, c ∈ cands -> c <> [] /\ (w <> Second -> trim c = c).
Proof.
  intros api w request env q2 r2 t H1.
  destruct (handled_lookup _ _ _ _ _ _ _ H1) as (text & tone & resp & _ & _ & Hrun).
  fold t in Hrun.
  destruct (run_second _ _ _ _ _ _ _ _ Hrun H1)
    as (q1 & r1 & v1 & cands & H0 & Hv1 & Hc & _).
  destruct (candidates_spec _ _ _ Hc) as (raw & -> & _ & Hvar).
  exists q1, r1, raw, cands.
  split; [exact H0|]. split; [exact Hv1|]. split; [exact Hc|].
  intros c Hin. split.
  - destruct w; try (rewrite (Hvar ltac:(discriminate)) in Hin;
                     apply variations_of_trimmed in Hin; tauto).
    unfold candidates in Hc. cbv zeta in Hc.
    destruct (negb _ || negb _ || negb _) eqn:E; [discriminate Hc|].
    injection Hc as <-.
    apply orb_false_iff in E as [E E3]. apply orb_false_iff in E as [E1 E2].
    apply negb_false_iff, nonempty_spec in E1, E2, E3.
    repeat (apply elem_of_cons in Hin as [->|Hin]); auto.
    apply elem_of_nil in Hin. contradiction.
  - intros Hw. rewrite (Hvar Hw) in Hin. apply variations_of_trimmed in Hin. tauto.
Qed.

End Results.

(** ** Counting candidates and reading the selection *)

Lemma split_from_length sep skip acc s :
  length (split_from sep skip acc s) = S (separators_from sep skip s).
Proof.
  revert skip acc. induction s as [|c s IH]; intros skip acc;
    cbn [split_from separators_from]; [reflexivity|].
  destruct skip as [|k]; [|apply IH].
  destruct (startsWith sep (c :: s)); [|apply IH].
  cbn [length]. rewrite IH. reflexivity.
Qed.

(** [split] gives one piece more than there are separators. *)
Lemma split_length sep s : length (split sep s) = S (separators sep s).
Proof. apply split_from_length. Qed.

Lemma variations_of_length raw :
  (length (variations_of raw) <= 1 + separators (lit "|||") raw)%nat.
Proof.
  unfold variations_of.
  pose proof (split_length (lit "|||") raw) as Hs.
  pose proof (filter_length nonempty (map trim (split (lit "|||") raw))) as Hf.
  rewrite length_map in Hf. lia.
Qed.

Lemma index_of_decimal i :
  (i < 3)%nat -> index_of (decimal (Z.of_nat (S i))) = Some (Z.of_nat i).
Proof. intros Hi. destruct i as [|[|[|i]]]; try lia; reflexivity. Qed.

Lemma at_index_nat {A} (l : list A) i : at_index l (Some (Z.of_nat i)) = l !! i.
Proof.
  unfold at_index. cbn. destruct (0 <=? Z.of_nat i)%Z eqn:E.
  - rewrite Nat2Z.id. reflexivity.
  - apply Z.leb_gt in E. lia.
Qed.

(** [parseInt] reads a leading digit 1 to 9 that no digit follows, whatever
    comes after it. *)
Lemma parseInt_leading_digit i rest :
  (i < 9)%nat ->
  match rest with [] => True | c :: _ => digit_value c = None end ->
  parseInt (decimal (Z.of_nat (S i)) ++ rest) = Some (Z.of_nat (S i)).
Proof.
  intros Hi Hrest.
  assert (Hread : forall c d,
             digit_value c = Some d ->
             read_digits digit_value 10 None (c :: rest) = Some d).
  { intros c d Hc. cbn [read_digits]. rewrite Hc.
    destruct rest as [|x rest']; cbn [read_digits]; [|rewrite Hrest];
      cbn; f_equal; lia. }
  destruct i as [|[|[|[|[|[|[|[|[|i]]]]]]]]]; try lia;
    match goal with
    | |- context [decimal ?z] =>
        let x := eval vm_compute in (decimal z) in change (decimal z) with x
    end; unfold parseInt; cbn [app];
    match goal with
    | |- context [trimStart (?c :: rest)] =>
        change (trimStart (c :: rest)) with (c :: rest)
    end; cbv beta iota zeta;
    match goal with
    | |- context [read_digits digit_value 10 None (?c :: rest)] =>
        rewrite (Hread c _ eq_refl)
    end; reflexivity.
Qed.

(** ** Which candidate is refined *)

Section Selecting.
Context `{Engine}.

Lemma candidates_second_length v cands :
  candidates Second v = Some cands -> length cands = 3%nat.
Proof.
  unfold candidates. destruct v; try discriminate. cbv zeta.
  destruct (negb _ || negb _ || negb _); [discriminate|].
  intros Heq. injection Heq as <-. reflexivity.
Qed.

(** The third call of a run, given what the first two returned and what
    that makes of [selected]. *)
Lemma third_call api w request env q1 r1 q2 r2 v1 v2 cands c :
  let t := (run api 0 (onRequestPost w request env)).2 in
  t !! 0%nat = Some (q1, r1) -> t !! 1%nat = Some (q2, r2) ->
  read w r1 = inr v1 -> read w r2 = inr v2 ->
  candidates w v1 = Some cands -> chosen w cands v2 = Some (Some c) ->
  exists q3 r3, t !! 2%nat = Some (q3, r3)
                /\ call_prompt q3 = prompt3 w (Some c).
Proof.
  intros t H0 H1 Hv1 Hv2 Hc Hs.
  destruct (handled_lookup _ _ _ _ _ _ _ H1) as (text & tone & resp & _ & _ & Hrun).
  fold t in Hrun.
  destruct (run_third_exists _ _ _ _ _ _ _ _ _ _ _ _ _ _ Hrun H0 H1 Hv1 Hv2 Hc Hs)
    as (q3 & r3 & H2).
  destruct (run_third _ _ _ _ _ _ _ _ Hrun H2)
    as (? & ? & ? & ? & v1' & v2' & cands' & sel & H0' & H1' & Hv1' & Hv2'
        & Hc' & Hs' & Hp).
  assert (v1' = v1) as -> by congruence. assert (v2' = v2) as -> by congruence.
  assert (cands' = cands) as -> by congruence.
  assert (sel = Some c) as -> by congruence.
  eauto.
Qed.

(** X3: in the handlers that select by index, a second reply that is, once
    trimmed, exactly the number [i + 1] for [i] among 0, 1, 2 selects the
    candidate at index [i]: the third call is made on it. *)
Theorem selection_follows_the_reply :
  forall api w request env q1 r1 q2 r2 raw reply i,
    let t := (run api 0 (onRequestPost w request env)).2 in
    w <> Second -> (i < 3)%nat ->
    t !! 0%nat = Some (q1, r1) -> t !! 1%nat = Some (q2, r2) ->
    read w r1 = inr (JStr raw) -> read w r2 = inr (JStr reply) ->
    trim reply = decimal (Z.of_nat (S i)) ->
    exists c q3 r3,
      variations_of raw !! i = Some c
      /\ t !! 2%nat = Some (q3, r3)
      /\ call_prompt q3 = prompt3 w (Some c).
Proof.
  intros api w request env q1 r1 q2 r2 raw reply i t Hw Hi H0 H1 Hr1 Hr2 Hreply.
  destruct (handled_lookup _ _ _ _ _ _ _ H1) as (text & tone & resp & _ & _ & Hrun).
  fold t in Hrun.
  destruct (run_second _ _ _ _ _ _ _ _ Hrun H1)
    as (q1' & r1' & v1 & cands & H0' & Hv1 & Hc & _).
  assert (v1 = JStr raw) as -> by congruence.
  destruct (candidates_spec _ _ _ Hc) as (raw' & Heq & Hlen & Hvar).
  injection Heq as <-. rewrite (Hvar Hw) in *.
  destruct (lookup_lt_is_Some_2 (variations_of raw) i ltac:(lia)) as [c Hic].
  assert (Hs : chosen w (variations_of raw) (JStr reply) = Some (Some c)).
  { unfold chosen. rewrite Hreply, index_of_decimal, at_index_nat, Hic by exact Hi.
    destruct w; congruence. }
  destruct (third_call api w request env _ _ _ _ _ _ _ _ H0 H1 Hr1 Hr2 Hc Hs)
    as (q3 & r3 & H2 & Hp).
  exists c, q3, r3. auto.
Qed.

(** X4: the second handler of paraphrase.js reads the selection with
    parseInt: a second reply that, once trimmed, starts with the number
    [i + 1] for [i] among 0, 1, 2, followed by anything but a digit, selects
    the candidate at index [i]. *)
Theorem second_handler_reads_a_leading_number :
  forall api request env q1 r1 q2 r2 v1 cands reply i rest,
    let t := (run api 0 (onRequestPost Second request env)).2 in
    (i < 3)%nat ->
    match rest with [] => True | c :: _ => digit_value c = None end ->
    t !! 0%nat = Some (q1, r1) -> t !! 1%nat = Some (q2, r2) ->
    read Second r1 = inr v1 -> candidates Second v1 = Some cands ->
    read Second r2 = inr (JStr reply) ->
    trim reply = decimal (Z.of_nat (S i)) ++ rest ->
    exists c q3 r3,
      cands !! i = Some c
      /\ t !! 2%nat = Some (q3, r3)
      /\ call_prompt q3 = V2.stage2Prompt c.
Proof.
  intros api request env q1 r1 q2 r2 v1 cands reply i rest t Hi Hrest H0 H1
    Hr1 Hc Hr2 Hreply.
  pose proof (candidates_second_length _ _ Hc) as Hlen.
  destruct (lookup_lt_is_Some_2 cands i ltac:(lia)) as [c Hic].
  assert (Hs : chosen Second cands (JStr reply) = Some (Some c)).
  { unfold chosen. rewrite Hreply, parseInt_leading_digit by (lia || exact Hrest).
    cbv zeta. destruct i as [|[|[|i]]]; try lia; cbn; rewrite Hic; reflexivity. }
  destruct (third_call api Second request env _ _ _ _ _ _ _ _ H0 H1 Hr1 Hr2 Hc Hs)
    as (q3 & r3 & H2 & Hp).
  exists c, q3, r3. auto.
Qed.

(** X5: however many candidates the first reply holds, the one that is
    refined is among the first three. *)
Theorem refined_candidate_is_among_the_first_three :
  forall api w request env q3 r3,
    let t := (run api 0 (onRequestPost w request env)).2 in
    t !! 2%nat = Some (q3, r3) ->
    exists q1 r1 raw cands c,
      t !! 0%nat = Some (q1, r1) /\ read w r1 = inr (JStr raw)
      /\ candidates w (JStr raw) = Some cands
      /\ c ∈ take 3 cands
      /\ call_prompt q3 = prompt3 w (Some c).
Proof.
  intros api w request env q3 r3 t H2.
  destruct (handled_lookup _ _ _ _ _ _ _ H2) as (text & tone & resp & _ & _ & Hrun).
  fold t in Hrun.
  destruct (run_third _ _ _ _ _ _ _ _ Hrun H2)
    as (q1 & r1 & q2 & r2 & v1 & v2 & cands & sel & H0 & H1 & Hv1 & Hv2
        & Hc & Hs & Hp).
  destruct (candidates_spec _ _ _ Hc) as (raw & -> & Hlen & Hvar).
  destruct (chosen_spec _ _ _ _ Hlen Hs) as (reply & c & -> & -> & Hin & Hat).
  exists q1, r1, raw, cands, c. repeat split; auto.
  assert (w = Second \/ w <> Second) as [->|Hw]
    by (destruct w; auto; right; discriminate).
  - rewrite take_ge by (rewrite (candidates_second_length _ _ Hc); lia). exact Hin.
  - specialize (Hat Hw).
    destruct (index_of_range (trim reply)) as [Hi | [Hi | Hi]];
      rewrite Hi in Hat; cbn in Hat;
      match type of Hat with
      | _ !! ?i = _ =>
          apply (list_elem_of_lookup_2 _ i); rewrite lookup_take_lt by lia;
          exact Hat
      end.
Qed.

End Selecting.

(** ** What a failed run answers *)

Section Errors.
Context `{Engine}.

Lemma failure_full w err :
  full w = true -> failure w err = pipeline_failed (message err).
Proof. destruct w; try discriminate; reflexivity. Qed.

Lemma failure_opaque w err :
  full w = false ->
  failure w err = error_response (lit "Internal server error") 500.
Proof. destruct w; try discriminate; reflexivity. Qed.

Lemma pipeline_run_end_cases w env text tone vs t resp :
  pipeline_run w env text tone vs t resp ->
  (exists final, resp = success w final) \/ (exists err, resp = failure w err).
Proof. induction 1; eauto. Qed.

Lemma full_call_failed api w request env k q r err :
  full w = true ->
  (run api 0 (onRequestPost w request env)).2 !! k = Some (q, r) ->
  Full.read_reply r = inl err ->
  (run api 0 (onRequestPost w request env)).1
  = inr (pipeline_failed (message err)).
Proof.
  intros Hw Hk Herr.
  destruct (handled_lookup _ _ _ _ _ _ _ Hk) as (text & tone & resp & _ & Ho & Hrun).
  assert (read w r = inl err) as Hread
    by (destruct w; try discriminate Hw; unfold read; rewrite Herr; reflexivity).
  destruct (pipeline_run_failure _ _ _ _ _ _ _ _ _ _ _ Hrun Hk Hread) as [_ ->].
  rewrite Ho, failure_full by exact Hw. reflexivity.
Qed.

(** X6: in the handlers with full error handling, the answer to a failed
    call names the failure in its details: the network, a body that is not
    JSON (whatever the status), a refused key (401, 403), the rate limit
    (429), any other status outside 2xx with its number, or a reply without
    text. The status of the API itself is never passed on: the answer is 500. *)
Theorem upstream_failure_is_named :
  forall api w request env k q r,
    let t := (run api 0 (onRequestPost w request env)).2 in
    let answer details :=
      (run api 0 (onRequestPost w request env)).1 = inr (pipeline_failed details) in
    full w = true ->
    t !! k = Some (q, r) ->
    (r = NetworkError ->
     answer (lit "Failed to reach Gemini API (network error)"))
    /\ (forall code, r = HttpReply code None ->
        answer (lit "Gemini returned invalid JSON"))
    /\ (forall code data, r = HttpReply code (Some data) ->
        code = 401%Z \/ code = 403%Z ->
        answer (lit "Gemini API key is invalid or unauthorized"))
    /\ (forall data, r = HttpReply 429 (Some data) ->
        answer (lit "Gemini rate limit exceeded"))
    /\ (forall code data, r = HttpReply code (Some data) ->
        ok code = false -> code <> 401%Z -> code <> 403%Z -> code <> 429%Z ->
        answer (lit "Gemini API error (" ++ decimal code ++ lit ")"))
    /\ (empty_content r -> answer (lit "Gemini returned empty content")).
Proof.
  intros api w request env k q r t answer Hw Hk.
  assert (Hfail : forall m, Full.read_reply r = inl (Error m) -> answer m).
  { intros m Hm. apply (full_call_failed api w request env k q r _ Hw Hk Hm). }
  repeat split.
  - intros ->. apply Hfail. reflexivity.
  - intros code ->. apply Hfail. reflexivity.
  - intros code data -> [-> | ->]; apply Hfail; reflexivity.
  - intros data ->. apply Hfail. reflexivity.
  - intros code data -> Hok H401 H403 H429. apply Hfail. cbn. rewrite Hok. cbn.
    apply Z.eqb_neq in H401, H403, H429. rewrite H401, H403, H429. reflexivity.
  - intros (code & data & -> & Hok & Hempty). apply Hfail. cbn. rewrite Hok. cbn.
    destruct (Full.reply_text data) as [[ | b | x | s | items | fields]|];
      try contradiction; try reflexivity.
    rewrite Hempty. reflexivity.
Qed.

(** X7: in the second and the third handler of paraphrase.js, every
    answer other than 200 that follows a call is the same fixed body: nothing
    of what the API sent back reaches the client. *)
Theorem failure_is_opaque :
  forall api w request env resp,
    full w = false ->
    (run api 0 (onRequestPost w request env)).2 <> [] ->
    (run api 0 (onRequestPost w request env)).1 = inr resp ->
    status resp <> 200%Z ->
    resp = error_response (lit "Internal server error") 500.
Proof.
  intros api w request env resp Hw Ht Ho Hst.
  destruct (handled_run api w request env) as (resp' & Ho' & Hshape).
  rewrite Ho in Ho'. injection Ho' as <-.
  destruct (accepted w request env) as [[text tone]|].
  - destruct (pipeline_run_end_cases _ _ _ _ _ _ _ Hshape) as [[final ->] | [err ->]].
    + contradiction.
    + apply failure_opaque, Hw.
  - destruct Hshape as [Hnil _]. contradiction.
Qed.

End Errors.

(** ** The statuses and the guards *)

Section Guards.
Context `{Engine}.

(** A run of a handler with full error handling that consists of one call
    that succeeded ends in the answer for too few variations. *)
Lemma single_call_reason w request env :
  full w = true ->
  wp (onRequestPost w request env)
     (fun t o =>
        forall q r s,
          t = [(q, r)] -> Full.read_reply r = inr s ->
          o = inr (pipeline_failed (lit "Gemini failed to generate 3 variations"))).
Proof.
  intros Hw.
  destruct w; try discriminate Hw; unfold onRequestPost.
  - unfold V1.onRequestPost, V1.pipeline, V1.callGemini. repeat step.
    all: intros qx rx sx Ht Hr; cbn [app] in Ht; try discriminate Ht;
      injection Ht as <- <-; first [congruence | reflexivity].
  - unfold Part000.onRequestPost, Part000.pipeline, Part000.callGemini. repeat step.
    all: intros qx rx sx Ht Hr; cbn [app] in Ht; try discriminate Ht;
      injection Ht as <- <-; first [congruence | reflexivity].
  - unfold Part001.onRequestPost, Part001.pipeline, Part001.callGemini. repeat step.
    all: intros qx rx sx Ht Hr; cbn [app] in Ht; try discriminate Ht;
      injection Ht as <- <-; first [congruence | reflexivity].
Qed.

(** X8: in the handlers with full error handling, a first reply with fewer
    than two separators "|||" (counted as [split] finds them, so a run of
    four bars holds one) cannot hold three candidates: the run stops after
    this one call and answers 500 with the details "Gemini failed to
    generate 3 variations". *)
Theorem too_few_separators_stop_the_run :
  forall api w request env q1 r1 raw,
    let t := (run api 0 (onRequestPost w request env)).2 in
    full w = true ->
    t !! 0%nat = Some (q1, r1) ->
    Full.read_reply r1 = inr raw ->
    (separators (lit "|||") raw < 2)%nat ->
    t = [(q1, r1)]
    /\ (run api 0 (onRequestPost w request env)).1
       = inr (pipeline_failed (lit "Gemini failed to generate 3 variations")).
Proof.
  intros api w request env q1 r1 raw t Hw H0 Hr Hocc.
  assert (Ht : t = [(q1, r1)]).
  { destruct (handled_lookup _ _ _ _ _ _ _ H0)
      as (text & tone & resp & _ & _ & Hrun). fold t in Hrun.
    destruct t as [|[q r] [|[q2 r2] t']]; try discriminate H0.
    - cbn in H0. congruence.
    - exfalso.
      destruct (run_second _ _ _ _ _ _ _ _ Hrun eq_refl)
        as (q1' & r1' & v1 & cands & H0' & Hv1 & Hc & _).
      cbn in H0, H0'. simplify_eq.
      assert (v1 = JStr raw) as ->.
      { destruct w; try discriminate Hw; unfold read in Hv1; rewrite Hr in Hv1;
          cbn in Hv1; congruence. }
      destruct (candidates_spec _ _ _ Hc) as (raw' & Heq & Hlen & Hvar).
      injection Heq as <-.
      rewrite (Hvar ltac:(destruct w; discriminate)) in Hlen.
      pose proof (variations_of_length raw). lia. }
  split; [exact Ht|].
  exact (wp_run _ _ (single_call_reason w request env Hw) api 0%nat q1 r1 raw Ht Hr).
Qed.

Lemma tone_allowed_string tone :
  tone_allowed tone = true ->
  exists tn, tone = Some (JStr tn) /\ tn ∈ allowedTones.
Proof.
  destruct tone as [[ | b | x | tn | items | fields]|]; try discriminate.
  cbn. unfold includes. intros Hin. apply bool_decide_eq_true in Hin. eauto.
Qed.

(** X9: every answer has status 200, 400 or 500, and it is 400 exactly
    when the body is JSON other than null and the text or the tone is
    refused. *)
Theorem status_is_200_400_or_500 :
  forall api w request env resp,
    (run api 0 (onRequestPost w request env)).1 = inr resp ->
    (status resp = 200%Z \/ status resp = 400%Z \/ status resp = 500%Z)
    /\ (status resp = 400%Z <->
        exists body,
          request_json request = Some body /\ is_null body = false
          /\ (bad_text w (field (lit "text") body) = true
              \/ tone_allowed (effective_tone w body) = false)).
Proof.
  intros api w request env resp Ho.
  destruct (handled_run api w request env) as (resp' & Ho' & Hshape).
  rewrite Ho in Ho'. injection Ho' as <-.
  unfold accepted, refusal_status, rejects in Hshape.
  destruct (request_json request) as [body|].
  2: { destruct Hshape as (_ & _ & -> & _). split; [auto|].
       split; [discriminate|]. intros (b & Hb & _). discriminate Hb. }
  destruct (is_null body) eqn:Hnull.
  { destruct Hshape as (_ & _ & -> & _). split; [auto|].
    split; [discriminate|]. intros (b & Hb & Hn & _). congruence. }
  destruct (bad_text w (field (lit "text") body)
            || negb (tone_allowed (effective_tone w body))) eqn:Hrej.
  { destruct Hshape as (_ & _ & -> & _). split; [auto|].
    split; [|reflexivity]. intros _. exists body.
    apply orb_true_iff in Hrej as [Hb | Ht]; [auto|].
    apply negb_true_iff in Ht. auto. }
  assert (Hno : ~ exists b,
               Some body = Some b /\ is_null b = false
               /\ (bad_text w (field (lit "text") b) = true
                   \/ tone_allowed (effective_tone w b) = false)).
  { intros (b & Hb & _ & Hcase). injection Hb as <-.
    apply orb_false_iff in Hrej as [Hb Ht]. apply negb_false_iff in Ht.
    destruct Hcase; congruence. }
  destruct (key_missing env).
  { destruct Hshape as (_ & _ & -> & _). split; [auto|].
    split; [discriminate|]. intros Hex. contradiction. }
  destruct (pipeline_run_status _ _ _ _ _ _ _ Hshape) as [-> | ->];
    (split; [auto|]); (split; [discriminate|]); intros Hex; contradiction.
Qed.

(** X10: the guards are checked in the order text, tone, key, and the
    first that fails decides the answer, before any call: 400 for the text,
    400 for the tone, 500 for the key. A body that is not JSON, or is null, is
    answered by the catch clause. *)
Theorem guards_answer_in_order :
  forall api w request env,
    (forall body,
       request_json request = Some body -> is_null body = false ->
       (bad_text w (field (lit "text") body) = true ->
        run api 0 (onRequestPost w request env)
        = (inr (error_response (text_error w) 400), []))
       /\ (bad_text w (field (lit "text") body) = false ->
           tone_allowed (effective_tone w body) = false ->
           run api 0 (onRequestPost w request env)
           = (inr (error_response (tone_error w) 400), []))
       /\ (bad_text w (field (lit "text") body) = false ->
           tone_allowed (effective_tone w body) = true ->
           key_missing env = true ->
           run api 0 (onRequestPost w request env)
           = (inr (error_response (key_error w) 500), [])))
    /\ (request_json request = None ->
        run api 0 (onRequestPost w request env)
        = (inr (failure w (Native BodyNotJson)), []))
    /\ (request_json request = Some JNull ->
        run api 0 (onRequestPost w request env)
        = (inr (failure w (Native PropertyOfNullish)), [])).
Proof.
  intros api w request env. split; [|split].
  - intros body Hb Hn. unfold bad_text, effective_tone.
    repeat split; intros; destruct w;
      unfold onRequestPost, V1.onRequestPost, V2.onRequestPost,
        V3.onRequestPost, Part000.onRequestPost, Part001.onRequestPost,
        await_json, member;
      unfold key_missing in *;
      rewrite Hb; cbn [mbind Prog_bind bind]; rewrite Hn;
      cbn [mbind Prog_bind bind];
      repeat (progress (use_eqs; cbn [negb]));
      reflexivity.
  - intros Hb. destruct w;
      unfold onRequestPost, V1.onRequestPost, V2.onRequestPost,
        V3.onRequestPost, Part000.onRequestPost, Part001.onRequestPost,
        await_json; rewrite Hb; reflexivity.
  - intros Hb. destruct w;
      unfold onRequestPost, V1.onRequestPost, V2.onRequestPost,
        V3.onRequestPost, Part000.onRequestPost, Part001.onRequestPost,
        await_json, member; rewrite Hb; reflexivity.
Qed.

End Guards.

(** ** Where the calls go and where the tone goes *)

Section Requests.
Context `{Engine}.

Lemma call_url_request_for w env k p :
  call_url (request_for w env k p) = endpoint_of w ++ spliced (GEMINI_API_KEY env).
Proof. destruct w; reflexivity. Qed.

Lemma key_present env :
  key_missing env = false ->
  exists key, GEMINI_API_KEY env = Some key /\ key <> [].
Proof.
  unfold key_missing. destruct (GEMINI_API_KEY env) as [key|]; [|discriminate].
  cbn. intros Hk. apply negb_false_iff, nonempty_spec in Hk. eauto.
Qed.

(** X11: every call of a run goes to the endpoint of the handler followed
    by the configured key, which is not empty; neither the text nor the tone
    has any part in the address. *)
Theorem calls_go_to_the_endpoint_with_the_key :
  forall api w request env k q r,
    (run api 0 (onRequestPost w request env)).2 !! k = Some (q, r) ->
    exists key,
      GEMINI_API_KEY env = Some key /\ key <> []
      /\ call_url q = endpoint_of w ++ key.
Proof.
  intros api w request env k q r Hk.
  destruct (handled_lookup _ _ _ _ _ _ _ Hk)
    as (text & tone & resp & Hacc & _ & Hrun).
  destruct (accepted_text _ _ _ _ _ Hacc) as (_ & _ & _ & _ & _ & _ & _ & _ & _ & Hkey).
  destruct (key_present env Hkey) as (key & Hsome & Hne).
  exists key. split; [exact Hsome|]. split; [exact Hne|].
  destruct (pipeline_run_lookup _ _ _ _ _ _ _ _ _ _ Hrun Hk) as (_ & _ & _ & ->).
  rewrite call_url_request_for, Hsome. reflexivity.
Qed.

Lemma fourth_prompt_names_the_tone w tone v p :
  later_prompt w 3 tone v = Some p -> substring_of (interpolate tone) p.
Proof.
  unfold later_prompt. destruct w; intros Hp; injection Hp as <-;
    unfold V1.stage4_prompt, V2.stage3Prompt, V3.stage4_prompt,
      Part000.stage4_prompt, Part001.stage4_prompt;
    find_substring.
Qed.

(** X12: the fourth call of every handler carries the tone: its prompt
    contains the tone of the request, or "standard" where the handler
    defaults it, and that tone is one of the four allowed. *)
Theorem fourth_call_carries_the_tone :
  forall api w request env q r,
    (run api 0 (onRequestPost w request env)).2 !! 3%nat = Some (q, r) ->
    exists body tone,
      request_json request = Some body
      /\ effective_tone w body = Some (JStr tone)
      /\ tone ∈ allowedTones
      /\ substring_of tone (call_prompt q).
Proof.
  intros api w request env q r Hk.
  destruct (handled_lookup _ _ _ _ _ _ _ Hk)
    as (text & tn & resp & Hacc & _ & Hrun).
  destruct (accepted_text _ _ _ _ _ Hacc)
    as (body & s & Hb & _ & _ & _ & _ & -> & Hallowed & _).
  destruct (tone_allowed_string _ Hallowed) as (tone & Htone & Hin).
  exists body, tone. split; [exact Hb|]. split; [exact Htone|]. split; [exact Hin|].
  destruct (pipeline_run_lookup _ _ _ _ _ _ _ _ _ _ Hrun Hk) as (vs & Hall & Hp & _).
  apply Forall2_length in Hall. rewrite length_take in Hall.
  apply lookup_lt_Some in Hk.
  assert (Hlen : length vs = 3%nat) by lia.
  destruct vs as [|v1 [|v2 [|v3 [|v4 vs]]]]; try discriminate Hlen.
  cbn [app] in Hp. rewrite next_prompt_long in Hp. cbn in Hp.
  apply fourth_prompt_names_the_tone in Hp. rewrite Htone in Hp. exact Hp.
Qed.

(** X13: where the tone is defaulted (every handler but the second of
    paraphrase.js), a tone that is falsy (null, false, 0, the empty string)
    is handled exactly as the tone "standard". *)
Theorem falsy_tone_is_standard :
  forall api w fields env,
    w <> Second ->
    truthy (assoc (lit "tone") fields) = false ->
    run api 0 (onRequestPost w (request_with fields) env)
    = run api 0 (onRequestPost w (request_with (standard_tone :: fields)) env).
Proof.
  intros api w fields env Hw Hfalsy.
  assert (Htone : tone_or_standard (field (lit "tone") (JObj fields))
                  = tone_or_standard
                      (field (lit "tone") (JObj (standard_tone :: fields)))).
  { cbn [field]. rewrite assoc_tone_standard. unfold tone_or_standard.
    rewrite Hfalsy. reflexivity. }
  pose proof (assoc_text_standard fields) as Htext.
  f_equal.
  destruct w; try congruence; cbn [onRequestPost];
    unfold V1.onRequestPost, V3.onRequestPost, Part000.onRequestPost,
      Part001.onRequestPost, request_with, await_json, member;
    cbn [request_json is_null mbind Prog_bind bind];
    rewrite Htone; cbn [field]; rewrite Htext; reflexivity.
Qed.

End Requests.

(** ** The Express route and the page *)

Lemma trim_nil : trim [] = [].
Proof. reflexivity. Qed.

Lemma validateInput_long s :
  (10 <= length (trim s))%nat -> Server.validateInput (Some (JStr s)) = None.
Proof.
  intros Hlen. unfold Server.validateInput.
  destruct s as [|c s]; [rewrite trim_nil in Hlen; cbn in Hlen; lia|].
  cbn [nonempty negb].
  destruct (Nat.ltb_spec (length (trim (c :: s))) 10); [lia|reflexivity].
Qed.

Lemma validateInput_short s :
  s <> [] -> (length (trim s) < 10)%nat ->
  Server.validateInput (Some (JStr s))
  = Some (lit "Text must be at least 10 characters long.").
Proof.
  intros Hne Hlen. unfold Server.validateInput.
  destruct s as [|c s]; [congruence|]. cbn [nonempty negb].
  destruct (Nat.ltb_spec (length (trim (c :: s))) 10); [reflexivity|lia].
Qed.

(** X14: validateInput lets through exactly the strings with at least ten
    code units left after trimming; a non-empty string with fewer (white
    space only, for one) gets the second message, everything else the
    first. *)
Theorem validateInput_decides_by_trimmed_length :
  forall text,
    (Server.validateInput text = None <->
     exists s, text = Some (JStr s) /\ (10 <= length (trim s))%nat)
    /\ (Server.validateInput text
        = Some (lit "Text must be at least 10 characters long.") <->
        exists s, text = Some (JStr s) /\ s <> []
                  /\ (length (trim s) < 10)%nat)
    /\ (Server.validateInput text
        = Some (lit "Text must be a non-empty string.") <->
        ~ exists s, text = Some (JStr s) /\ s <> []).
Proof.
  intros text. unfold Server.validateInput.
  assert (Hne : lit "Text must be a non-empty string."
                <> lit "Text must be at least 10 characters long.")
    by (vm_compute; discriminate).
  destruct text as [[ | b | x | s | items | fields]|];
    try (split; [|split]; split;
         [discriminate | intros (s & Hs & _); discriminate Hs
         | intros Heq; injection Heq as Heq; congruence
         | intros (s & Hs & _); discriminate Hs
         | intros _ (s & Hs & _); discriminate Hs
         | reflexivity ]).
  destruct s as [|c s].
  - cbn [nonempty negb]. split; [|split]; split.
    + discriminate.
    + intros (s & Hs & Hl). injection Hs as <-. rewrite trim_nil in Hl. cbn in Hl. lia.
    + intros Heq. injection Heq as Heq. congruence.
    + intros (s & Hs & Hn & _). congruence.
    + intros _ (s & Hs & Hn). congruence.
    + reflexivity.
  - cbn [nonempty negb]. destruct (length (trim (c :: s)) <? 10)%nat eqn:E.
    + apply Nat.ltb_lt in E. split; [|split]; split.
      * discriminate.
      * intros (s' & Hs & Hl). injection Hs as <-. lia.
      * intros _. exists (c :: s). auto.
      * reflexivity.
      * intros Heq. injection Heq as Heq. congruence.
      * intros Hno. exfalso. apply Hno. exists (c :: s). auto.
    + apply Nat.ltb_ge in E. split; [|split]; split.
      * intros _. eauto.
      * reflexivity.
      * discriminate.
      * intros (s' & Hs & _ & Hl). injection Hs as <-. lia.
      * discriminate.
      * intros Hno. exfalso. apply Hno. exists (c :: s). auto.
Qed.

(** X15: the Express route. A body that is null or missing gets the 500
    answer and a refused text the 400 answer with validateInput's message,
    both without a call to the SDK; an accepted text is sent once, trimmed,
    at the end of the prompt, and the answer is the trimmed text of the SDK
    or the 500 answer when the SDK throws. *)
Theorem route_answers_in_three_ways :
  forall sdk req,
    let out := run sdk 0 (Server.paraphrase req) in
    ((Server.req_body req = None \/ Server.req_body req = Some JNull) ->
     out = (inr server_error, []))
    /\ (forall b msg,
          Server.req_body req = Some b -> b <> JNull ->
          Server.validateInput (field (lit "text") b) = Some msg ->
          out = (inr (Server.res_json 400 (JObj [(lit "error", JStr msg)])), []))
    /\ (forall b s,
          Server.req_body req = Some b ->
          field (lit "text") b = Some (JStr s) ->
          (10 <= length (trim s))%nat ->
          let call :=
            {| Server.sdk_model := lit "gemini-2.5-flash-lite";
               Server.sdk_prompt := Server.prompt_of (trim s) |} in
          out = (inr match sdk O call with
                     | Server.SdkThrows => server_error
                     | Server.SdkText x =>
                         Server.res_json 200
                           (JObj [(lit "paraphrased", JStr (trim x))])
                     end,
                 [(call, sdk O call)])).
Proof.
  intros sdk req out. subst out. unfold Server.paraphrase.
  split; [|split].
  - intros [-> | ->]; reflexivity.
  - intros b msg -> Hb Hmsg.
    destruct b; try congruence; cbn [mbind Prog_bind bind];
      rewrite Hmsg; reflexivity.
  - intros b s -> Hs Hlen.
    pose proof (validateInput_long s Hlen) as Hok.
    destruct b; try discriminate Hs; cbn [mbind Prog_bind bind];
      rewrite Hs, Hok; cbn [Server.trim_method mbind Prog_bind bind];
      unfold Server.generateContent;
      cbn [mbind Prog_bind bind try_catch run];
      destruct (sdk O _); reflexivity.
Qed.

Section Page.
Context `{Engine}.

(** X16: a click on blank input shows the request for text and posts
    nothing, leaving the loading element and the button as they were. A
    click on anything else posts once, to /paraphrase, the trimmed input as
    the text member, and whatever comes back the loading element ends hidden
    and the button enabled. *)
Theorem click_posts_trimmed_text_once :
  forall api value page,
    let out := run api 0 (Client.onClick value page) in
    (trim value = [] ->
     out = (inr (Client.with_output page
                   (lit "Please enter some text to paraphrase.")), []))
    /\ (trim value <> [] ->
        let post :=
          {| Client.post_url := lit "/paraphrase";
             Client.post_body := JObj [(lit "text", JStr (trim value))] |} in
        exists shown,
          out = (inr {| Client.output_text := shown;
                        Client.loading_display := lit "none";
                        Client.button_disabled := false |},
                 [(post, api O post)])).
Proof.
  intros api value page out. subst out. unfold Client.onClick.
  split.
  - intros ->. reflexivity.
  - intros Hne. destruct (trim value) as [|c s] eqn:E; [congruence|].
    cbn [nonempty negb try_catch mbind Prog_bind bind run].
    destruct (api O _) as [|code [data|]]; cbn [try_catch bind run];
      try (eexists; reflexivity).
    unfold member.
    destruct (ok code), (is_null data); cbn [try_catch bind run];
      eexists; reflexivity.
Qed.

(** X17: what the page shows after a post. The paraphrased member of a 2xx
    reply when it is a string; the error member of any other reply after
    Error: ; and the fixed apology when the request failed, the reply was
    not JSON, or it was the document null. *)
Theorem click_shows_the_reply :
  forall api value page,
    trim value <> [] ->
    let post :=
      {| Client.post_url := lit "/paraphrase";
         Client.post_body := JObj [(lit "text", JStr (trim value))] |} in
    let shown := option_map Client.output_text
                   (match (run api 0 (Client.onClick value page)).1 with
                    | inr p => Some p | inl _ => None end) in
    (forall code data s,
       api O post = HttpReply code (Some data) -> ok code = true ->
       field (lit "paraphrased") data = Some (JStr s) ->
       shown = Some s)
    /\ (forall code data s,
          api O post = HttpReply code (Some data) -> ok code = false ->
          field (lit "error") data = Some (JStr s) ->
          shown = Some (lit "Error: " ++ s))
    /\ ((api O post = NetworkError
         \/ (exists code, api O post = HttpReply code None)
         \/ (exists code, api O post = HttpReply code (Some JNull))) ->
        shown = Some (lit "An error occurred. Please try again.")).
Proof.
  intros api value page Hne post shown. subst shown post.
  unfold Client.onClick.
  destruct (trim value) as [|c s0] eqn:E; [congruence|].
  cbn [nonempty negb try_catch mbind Prog_bind bind run].
  split; [|split].
  - intros code data s -> Hok Hs. cbn [try_catch bind run]. rewrite Hok.
    unfold member. destruct data; try discriminate Hs.
    cbn [is_null try_catch bind run fst option_map Client.output_text
         Client.with_output].
    rewrite Hs. reflexivity.
  - intros code data s -> Hok Hs. cbn [try_catch bind run]. rewrite Hok.
    unfold member. destruct data; try discriminate Hs.
    cbn [is_null try_catch bind run fst option_map Client.output_text
         Client.with_output].
    rewrite Hs. reflexivity.
  - intros [-> | [[code ->] | [code ->]]]; try reflexivity.
    cbn [try_catch bind run]. unfold member.
    destruct (ok code); reflexivity.
Qed.

End Page.

Lemma through_route_reply sdk n s :
  through_route sdk n
    {| Client.post_url := lit "/paraphrase";
       Client.post_body := JObj [(lit "text", JStr s)] |}
  = match Server.validateInput (Some (JStr s)) with
    | Some msg => HttpReply 400 (Some (JObj [(lit "error", JStr msg)]))
    | None =>
        match sdk O (server_call (trim s)) with
        | Server.SdkThrows =>
            HttpReply 500
              (Some (JObj [(lit "error",
                            JStr (lit "An error occurred while paraphrasing the text."))]))
        | Server.SdkText x =>
            HttpReply 200 (Some (JObj [(lit "paraphrased", JStr (trim x))]))
        end
    end.
Proof.
  unfold through_route, Server.paraphrase.
  cbn [Client.post_body Server.req_body field assoc mbind Prog_bind bind].
  rewrite bool_decide_eq_true_2 by reflexivity.
  destruct (Server.validateInput (Some (JStr s))) as [msg|]; [reflexivity|].
  cbn [Server.trim_method mbind Prog_bind bind].
  unfold Server.generateContent, server_call.
  cbn [mbind Prog_bind bind try_catch run].
  destruct (sdk O _); reflexivity.
Qed.

Section Site.
Context `{Engine}.

(** X18: the page against the route. The route trims the text the page
    already trimmed, so the SDK is asked about exactly the trimmed input;
    the page then shows the trimmed text of the SDK, Error: with the length
    message when fewer than ten code units are left, and Error: with the
    route's apology when the SDK throws. *)
Theorem page_shows_what_the_route_answers :
  forall sdk value page,
    let shown :=
      match (run (through_route sdk) 0 (Client.onClick value page)).1 with
      | inr p => Some (Client.output_text p)
      | inl _ => None
      end in
    (trim value <> [] -> (length (trim value) < 10)%nat ->
     shown = Some (lit "Error: "
                   ++ lit "Text must be at least 10 characters long."))
    /\ ((10 <= length (trim value))%nat ->
        match sdk O (server_call (trim value)) with
        | Server.SdkText x => shown = Some (trim x)
        | Server.SdkThrows =>
            shown = Some (lit "Error: "
                          ++ lit "An error occurred while paraphrasing the text.")
        end).
Proof.
  intros sdk value page shown. subst shown. unfold Client.onClick.
  assert (Hnil : (10 <= length (trim value))%nat -> trim value <> []).
  { intros Hlen E. rewrite E in Hlen. cbn in Hlen. lia. }
  split.
  - intros Hne Hlen.
    pose proof (validateInput_short (trim value) Hne) as Hv.
    rewrite trim_idem in Hv. specialize (Hv Hlen).
    destruct (trim value) as [|c s] eqn:E; [congruence|].
    cbn [nonempty negb try_catch mbind Prog_bind bind run].
    rewrite through_route_reply, Hv. reflexivity.
  - intros Hlen. specialize (Hnil Hlen).
    pose proof (validateInput_long (trim value)) as Hv.
    pose proof (trim_idem value) as Hidem.
    rewrite Hidem in Hv. specialize (Hv Hlen).
    destruct (trim value) as [|c s] eqn:E; [congruence|].
    cbn [nonempty negb try_catch mbind Prog_bind bind run].
    rewrite through_route_reply, Hv, Hidem.
    destruct (sdk O _); reflexivity.
Qed.

End Site.

(** ** The further properties on sample runs *)

Lemma full_result_is_trimmed_text_witness :
  exists s,
    body (success First (JStr (lit "final")))
    = Stringified (JObj [(lit "result", JStr s)])
    /\ s <> [] /\ trim s = s.
Proof.
  apply (@full_result_is_trimmed_text plain_engine (scripted chain_replies)
           First sample_request sample_env); evaluate.
Defined.

Lemma listed_candidates_are_clean_witness :
  let t := (run (scripted chain_replies) 0
              (@onRequestPost plain_engine First sample_request sample_env)).2 in
  exists q1 r1 raw cands,
    t !! 0%nat = Some (q1, r1) /\ @read plain_engine First r1 = inr (JStr raw)
    /\ candidates First (JStr raw) = Some cands
    /\ forall c, c ∈ cands -> c <> [] /\ (First <> Second -> trim c = c).
Proof.
  cbv zeta.
  eapply (@listed_candidates_are_clean plain_engine (scripted chain_replies)
            First sample_request sample_env _ (gemini_reply "2")).
  evaluate.
Defined.

Lemma selection_follows_the_reply_witness :
  let t := (run (scripted chain_replies) 0
              (@onRequestPost plain_engine First sample_request sample_env)).2 in
  exists c q3 r3,
    variations_of (lit "a|||b|||c") !! 1%nat = Some c
    /\ t !! 2%nat = Some (q3, r3)
    /\ call_prompt q3 = prompt3 First (Some c).
Proof.
  cbv zeta.
  eapply (@selection_follows_the_reply plain_engine (scripted chain_replies)
            First sample_request sample_env
            _ (gemini_reply "a|||b|||c") _ (gemini_reply "2")
            (lit "a|||b|||c") (lit "2") 1%nat).
  - discriminate.
  - lia.
  - evaluate.
  - evaluate.
  - evaluate.
  - evaluate.
  - evaluate.
Defined.

Lemma second_handler_reads_a_leading_number_witness :
  let t := (run (scripted numbered_replies) 0
              (@onRequestPost plain_engine Second sample_request sample_env)).2 in
  exists c q3 r3,
    [lit "a"; lit "b"; lit "c"] !! 1%nat = Some c
    /\ t !! 2%nat = Some (q3, r3)
    /\ call_prompt q3 = V2.stage2Prompt c.
Proof.
  cbv zeta.
  eapply (@second_handler_reads_a_leading_number plain_engine
            (scripted numbered_replies) sample_request sample_env
            _ (gemini_reply "1. a
2. b
3. c") _ (gemini_reply "2) the second")
            _ _ (lit "2) the second") 1%nat (lit ") the second")).
  - lia.
  - evaluate.
  - evaluate.
  - evaluate.
  - evaluate.
  - evaluate.
  - evaluate.
  - evaluate.
Defined.

Lemma refined_candidate_is_among_the_first_three_witness :
  let t := (run (scripted chain_replies) 0
              (@onRequestPost plain_engine First sample_request sample_env)).2 in
  exists q3 q1 r1 raw cands c,
    t !! 0%nat = Some (q1, r1) /\ @read plain_engine First r1 = inr (JStr raw)
    /\ candidates First (JStr raw) = Some cands
    /\ c ∈ take 3 cands
    /\ call_prompt q3 = prompt3 First (Some c).
Proof.
  cbv zeta. eexists.
  eapply (@refined_candidate_is_among_the_first_three plain_engine
            (scripted chain_replies) First sample_request sample_env
            _ (gemini_reply "refined")).
  evaluate.
Defined.

Lemma upstream_failure_is_named_witness :
  (run (always NetworkError) 0
     (@onRequestPost plain_engine First sample_request sample_env)).1
  = inr (pipeline_failed (lit "Failed to reach Gemini API (network error)")).
Proof.
  refine (proj1 (@upstream_failure_is_named plain_engine (always NetworkError)
                   First sample_request sample_env 0%nat _ NetworkError
                   eq_refl _) eq_refl).
  evaluate.
Defined.

Lemma failure_is_opaque_witness :
  exists resp,
    (run (scripted short_replies) 0
       (@onRequestPost plain_engine Third sample_request sample_env)).1 = inr resp
    /\ resp = error_response (lit "Internal server error") 500.
Proof.
  eexists. split; [evaluate|].
  apply (@failure_is_opaque plain_engine (scripted short_replies) Third
           sample_request sample_env).
  - reflexivity.
  - vm_compute. discriminate.
  - evaluate.
  - vm_compute. discriminate.
Defined.

Lemma too_few_separators_stop_the_run_witness :
  let t := (run (scripted four_bar_replies) 0
              (@onRequestPost plain_engine First sample_request sample_env)).2 in
  separators (lit "|||") (lit "a||||b") = 1%nat
  /\ exists q1,
       t = [(q1, gemini_reply "a||||b")]
       /\ (run (scripted four_bar_replies) 0
             (@onRequestPost plain_engine First sample_request sample_env)).1
          = inr (pipeline_failed (lit "Gemini failed to generate 3 variations")).
Proof.
  cbv zeta. split; [evaluate|]. eexists.
  eapply (@too_few_separators_stop_the_run plain_engine (scripted four_bar_replies)
            First sample_request sample_env _ _ (lit "a||||b")).
  - reflexivity.
  - evaluate.
  - evaluate.
  - vm_compute. lia.
Defined.

Lemma status_is_200_400_or_500_witness :
  exists resp,
    (run (scripted chain_replies) 0
       (@onRequestPost plain_engine First empty_text_request sample_env)).1
    = inr resp
    /\ (status resp = 200%Z \/ status resp = 400%Z \/ status resp = 500%Z)
    /\ (status resp = 400%Z <->
        exists body,
          request_json empty_text_request = Some body /\ is_null body = false
          /\ (bad_text First (field (lit "text") body) = true
              \/ tone_allowed (effective_tone First body) = false)).
Proof.
  eexists. split; [evaluate|].
  apply (@status_is_200_400_or_500 plain_engine (scripted chain_replies) First
           empty_text_request sample_env).
  evaluate.
Defined.

Lemma guards_answer_in_order_witness :
  run (scripted chain_replies) 0
    (@onRequestPost plain_engine First empty_text_request sample_env)
  = (inr (error_response (text_error First) 400), []).
Proof.
  refine (proj1 (proj1 (@guards_answer_in_order plain_engine
                          (scripted chain_replies) First empty_text_request
                          sample_env)
                   (JObj [(lit "text", JStr [])]) eq_refl eq_refl) _).
  evaluate.
Defined.

Lemma calls_go_to_the_endpoint_with_the_key_witness :
  exists q key,
    GEMINI_API_KEY sample_env = Some key /\ key <> []
    /\ call_url q = endpoint_of First ++ key.
Proof.
  eexists.
  eapply (@calls_go_to_the_endpoint_with_the_key plain_engine
            (scripted chain_replies) First sample_request sample_env
            4%nat _ (gemini_reply "final")).
  evaluate.
Defined.

Lemma fourth_call_carries_the_tone_witness :
  exists q body tone,
    request_json sample_request = Some body
    /\ effective_tone First body = Some (JStr tone)
    /\ tone ∈ allowedTones
    /\ substring_of tone (call_prompt q).
Proof.
  eexists.
  eapply (@fourth_call_carries_the_tone plain_engine
            (scripted chain_replies) First sample_request sample_env
            _ (gemini_reply "toned")).
  evaluate.
Defined.

Lemma falsy_tone_is_standard_witness :
  run (scripted chain_replies) 0
    (@onRequestPost plain_engine First (request_with empty_tone_fields) sample_env)
  = run (scripted chain_replies) 0
      (@onRequestPost plain_engine First
         (request_with (standard_tone :: empty_tone_fields)) sample_env).
Proof.
  apply (@falsy_tone_is_standard plain_engine (scripted chain_replies) First
           empty_tone_fields sample_env).
  - discriminate.
  - evaluate.
Defined.

Lemma validateInput_decides_by_trimmed_length_witness :
  Server.validateInput (Some (JStr (lit "   short   ")))
  = Some (lit "Text must be at least 10 characters long.").
Proof.
  apply (proj2 (proj1 (proj2 (validateInput_decides_by_trimmed_length
                                (Some (JStr (lit "   short   "))))))).
  exists (lit "   short   "). split; [reflexivity|]. split.
  - vm_compute. discriminate.
  - vm_compute. lia.
Defined.

Lemma route_answers_in_three_ways_witness :
  run (sdk_says " a better text ") 0
    (Server.paraphrase
       {| Server.req_body := Some (JObj [(lit "text", JStr (lit " hello world "))]) |})
  = (inr (Server.res_json 200
            (JObj [(lit "paraphrased", JStr (lit "a better text"))])),
     [(server_call (lit "hello world"), Server.SdkText (lit " a better text "))]).
Proof.
  refine (eq_trans
            (proj2 (proj2 (route_answers_in_three_ways
                             (sdk_says " a better text ")
                             {| Server.req_body :=
                                  Some (JObj [(lit "text",
                                               JStr (lit " hello world "))]) |}))
               (JObj [(lit "text", JStr (lit " hello world "))])
               (lit " hello world ") eq_refl _ _) _).
  - evaluate.
  - vm_compute. lia.
  - evaluate.
Defined.

Lemma click_posts_trimmed_text_once_witness :
  exists shown,
    run (answers NetworkError) 0
      (@Client.onClick plain_engine (lit "  hello  ") sample_page)
    = (inr {| Client.output_text := shown;
              Client.loading_display := lit "none";
              Client.button_disabled := false |},
       [({| Client.post_url := lit "/paraphrase";
            Client.post_body := JObj [(lit "text", JStr (lit "hello"))] |},
         NetworkError)]).
Proof.
  destruct (proj2 (@click_posts_trimmed_text_once plain_engine
                     (answers NetworkError) (lit "  hello  ") sample_page))
    as [shown Hshown].
  - vm_compute. discriminate.
  - exists shown. refine (eq_trans Hshown _). evaluate.
Defined.

Lemma click_shows_the_reply_witness :
  option_map Client.output_text
    match (run (answers limit_reply) 0
             (@Client.onClick plain_engine (lit "  hello  ") sample_page)).1
    with inr p => Some p | inl _ => None end
  = Some (lit "Error: " ++ lit "slow down").
Proof.
  refine (proj1 (proj2 (@click_shows_the_reply plain_engine
                          (answers limit_reply) (lit "  hello  ") sample_page _))
            429%Z (JObj [(lit "error", JStr (lit "slow down"))])
            (lit "slow down") eq_refl _ _).
  - vm_compute. discriminate.
  - reflexivity.
  - evaluate.
Defined.

Lemma page_shows_what_the_route_answers_witness :
  match (run (through_route (sdk_says " a better text ")) 0
           (@Client.onClick plain_engine (lit "  hello world  ") sample_page)).1
  with
  | inr p => Some (Client.output_text p)
  | inl _ => None
  end = Some (lit "a better text").
Proof.
  refine (eq_trans
            (proj2 (@page_shows_what_the_route_answers plain_engine
                      (sdk_says " a better text ") (lit "  hello world  ")
                      sample_page) _) _).
  - vm_compute. lia.
  - evaluate.
Defined.

(** ** The tone and the first three calls *)

(** The answer in a trace is what the API gave to that call. *)
Lemma run_replies {Q R A} (p : Prog Q R A) (api : nat -> Q -> R) n k q r :
  (run api n p).2 !! k = Some (q, r) -> r = api (n + k)%nat q.
Proof.
  revert n k. induction p as [a|e|q0 f IH]; intros n k; cbn;
    [discriminate | discriminate | ].
  destruct (run api (S n) (f (api n q0))) as [o t] eqn:E. cbn.
  destruct k as [|k]; cbn.
  - intros Heq. injection Heq as <- <-. rewrite Nat.add_0_r. reflexivity.
  - intros Hk. specialize (IH (api n q0) (S n) k). rewrite E in IH.
    replace (n + S k)%nat with (S n + k)%nat by lia. apply IH, Hk.
Qed.

Section ToneFree.
Context `{Engine}.

Lemma next_prompt_tone w text tone1 tone2 vs :
  (length vs < 3)%nat ->
  next_prompt w text tone1 vs = next_prompt w text tone2 vs.
Proof.
  destruct vs as [|v1 [|v2 [|v3 vs]]]; cbn [length]; try reflexivity. lia.
Qed.

Lemma pipeline_run_tone api w env text tone1 tone2 vs t1 resp1 :
  pipeline_run w env text tone1 vs t1 resp1 ->
  forall t2 resp2,
    pipeline_run w env text tone2 vs t2 resp2 ->
    (forall k q r, t1 !! k = Some (q, r) -> r = api (length vs + k)%nat q) ->
    (forall k q r, t2 !! k = Some (q, r) -> r = api (length vs + k)%nat q) ->
    take (3 - length vs) t1 = take (3 - length vs) t2.
Proof.
  assert (Hst : (4 <= stages w)%nat) by (destruct w; cbn; lia).
  induction 1 as [vs final Hlen Hlast | vs err Hlen Hnone
                 | vs prompt r err Hp Hr | vs prompt r v rest resp Hp Hr Hrest IH];
    intros t2 resp2 Hrun2 Hapi1 Hapi2.
  - replace (3 - length vs)%nat with O by lia. reflexivity.
  - destruct (Nat.le_gt_cases 3 (length vs)) as [Hge|Hlt].
    { replace (3 - length vs)%nat with O by lia. reflexivity. }
    rewrite (next_prompt_tone w text tone1 tone2 vs Hlt) in Hnone.
    inversion Hrun2; subst; congruence.
  - destruct (Nat.le_gt_cases 3 (length vs)) as [Hge|Hlt].
    { replace (3 - length vs)%nat with O by lia. reflexivity. }
    rewrite (next_prompt_tone w text tone1 tone2 vs Hlt) in Hp.
    inversion Hrun2 as [ | | vs' prompt' r' err' Hp' Hr' | vs' prompt' r' v' rest' resp' Hp' Hr' Hrest'];
      subst; try congruence; try lia.
    + assert (prompt' = prompt) by congruence. subst prompt'.
      pose proof (Hapi1 O _ _ eq_refl) as Hr1.
      pose proof (Hapi2 O _ _ eq_refl) as Hr2.
      assert (r' = r) by congruence. clear Hr1 Hr2. subst r'. reflexivity.
    + assert (prompt' = prompt) by congruence. subst prompt'.
      pose proof (Hapi1 O _ _ eq_refl) as Hr1.
      pose proof (Hapi2 O _ _ eq_refl) as Hr2.
      assert (r' = r) by congruence. clear Hr1 Hr2. subst r'. congruence.
  - destruct (Nat.le_gt_cases 3 (length vs)) as [Hge|Hlt].
    { replace (3 - length vs)%nat with O by lia. reflexivity. }
    rewrite (next_prompt_tone w text tone1 tone2 vs Hlt) in Hp.
    inversion Hrun2 as [ | | vs' prompt' r' err' Hp' Hr' | vs' prompt' r' v' rest' resp' Hp' Hr' Hrest'];
      subst; try congruence; try lia.
    + assert (prompt' = prompt) by congruence. subst prompt'.
      pose proof (Hapi1 O _ _ eq_refl) as Hr1.
      pose proof (Hapi2 O _ _ eq_refl) as Hr2.
      assert (r' = r) by congruence. clear Hr1 Hr2. subst r'. congruence.
    + assert (prompt' = prompt) by congruence. subst prompt'.
      pose proof (Hapi1 O _ _ eq_refl) as Hr1.
      pose proof (Hapi2 O _ _ eq_refl) as Hr2.
      assert (r' = r) by congruence. clear Hr1 Hr2. subst r'.
      assert (v' = v) by congruence. subst v'.
      replace (3 - length vs)%nat with (S (3 - length (vs ++ [v])))%nat
        by (rewrite length_app; cbn; lia).
      cbn [take]. f_equal.
      apply (IH rest' resp2 Hrest').
      * intros k q r0 Hk. rewrite length_app. cbn [length].
        replace (length vs + 1 + k)%nat with (length vs + S k)%nat by lia.
        apply Hapi1. exact Hk.
      * intros k q r0 Hk. rewrite length_app. cbn [length].
        replace (length vs + 1 + k)%nat with (length vs + S k)%nat by lia.
        apply Hapi2. exact Hk.
Qed.

(** X19: the tone has no part in the first three calls. Two requests with
    the same text and allowed tones make, against the same API, the same
    first three calls with the same answers: the candidates, the selection
    and its refinement do not depend on the tone. *)
Theorem tone_has_no_part_in_the_first_three_calls :
  forall api w request1 request2 env body1 body2,
    request_json request1 = Some body1 ->
    request_json request2 = Some body2 ->
    field (lit "text") body1 = field (lit "text") body2 ->
    tone_allowed (effective_tone w body1) = true ->
    tone_allowed (effective_tone w body2) = true ->
    take 3 (run api 0 (onRequestPost w request1 env)).2
    = take 3 (run api 0 (onRequestPost w request2 env)).2.
Proof.
  intros api w request1 request2 env body1 body2 Hb1 Hb2 Htext Ht1 Ht2.
  destruct (handled_run api w request1 env) as (resp1 & _ & Hshape1).
  destruct (handled_run api w request2 env) as (resp2 & _ & Hshape2).
  destruct (accepted w request1 env) as [[text1 tone1]|] eqn:E1;
    destruct (accepted w request2 env) as [[text2 tone2]|] eqn:E2.
  - destruct (accepted_text _ _ _ _ _ E1)
      as (b1 & s1 & Hb1' & Hf1 & -> & _).
    destruct (accepted_text _ _ _ _ _ E2)
      as (b2 & s2 & Hb2' & Hf2 & -> & _).
    assert (b1 = body1) by congruence. assert (b2 = body2) by congruence.
    subst b1 b2. assert (s2 = s1) by congruence. subst s2.
    apply (pipeline_run_tone api w env (Some (JStr s1)) tone1 tone2 []
             _ resp1 Hshape1 _ resp2 Hshape2).
    + intros k q r Hk. eapply run_replies. exact Hk.
    + intros k q r Hk. eapply run_replies. exact Hk.
  - exfalso.
    destruct (accepted_text _ _ _ _ _ E1)
      as (b1 & s1 & Hb1' & Hf1 & _ & Hs & Hl & _ & _ & Hkey).
    assert (b1 = body1) by congruence. subst b1.
    rewrite Htext in Hf1.
    rewrite (accepted_intro w request2 env body2 s1 Hb2 Hf1 Hs Hl Ht2 Hkey) in E2.
    discriminate E2.
  - exfalso.
    destruct (accepted_text _ _ _ _ _ E2)
      as (b2 & s2 & Hb2' & Hf2 & _ & Hs & Hl & _ & _ & Hkey).
    assert (b2 = body2) by congruence. subst b2.
    rewrite <- Htext in Hf2.
    rewrite (accepted_intro w request1 env body1 s2 Hb1 Hf2 Hs Hl Ht1 Hkey) in E1.
    discriminate E1.
  - destruct Hshape1 as [-> _]. destruct Hshape2 as [-> _]. reflexivity.
Qed.

End ToneFree.

Lemma tone_has_no_part_in_the_first_three_calls_witness :
  take 3 (run (scripted chain_replies) 0
            (@onRequestPost plain_engine First sample_request sample_env)).2
  = take 3 (run (scripted chain_replies) 0
              (@onRequestPost plain_engine First academic_request sample_env)).2.
Proof.
  eapply (@tone_has_no_part_in_the_first_three_calls plain_engine
            (scripted chain_replies) First sample_request academic_request
            sample_env).
  - reflexivity.
  - reflexivity.
  - evaluate.
  - evaluate.
  - evaluate.
Defined.
